(** * Research agent: retrieval with fallback, and synthesis of findings

    A shallow embedding of [research_agent.py],
    [context7_integration.py] and the session of [main.py].  Python text
    is a list of code points, runtime values of JSON shape are a small
    inductive type, a call that may raise returns an [outcome], and
    everything the program obtains from outside (environment variable,
    clock, HTTP, HTML parser, language model) is a field of the record
    [Env]. *)

From Stdlib Require Import List NArith ZArith Bool String Ascii Arith Lia.
Import ListNotations.

Set Warnings "-register-all".

(** ** Text *)

Module Text.

Local Open Scope N_scope.

(** A Python [str]: the sequence of its code points. *)
Definition str := list N.

(** Literals.  [py] reads an ASCII literal; [js] reads one in which the
    apostrophe stands for the double quote, which keeps JSON readable. *)
Definition py (s : string) : str := map N_of_ascii (list_ascii_of_string s).

Definition ch (a : ascii) : N := N_of_ascii a.

Definition DQUOTE : N := 34.

Definition js (s : string) : str :=
  map (fun c => if c =? 39 then DQUOTE else c) (py s).

Fixpoint str_eqb (a b : str) : bool :=
  match a, b with
  | [], [] => true
  | x :: a', y :: b' => (x =? y) && str_eqb a' b'
  | _, _ => false
  end.

(** [s.startswith(p)] *)
Fixpoint startswith (p s : str) : bool :=
  match p, s with
  | [], _ => true
  | x :: p', y :: s' => (x =? y) && startswith p' s'
  | _ :: _, [] => false
  end.

(** [p in s] for two strings. *)
Fixpoint contains (p s : str) : bool :=
  startswith p s ||
  match s with
  | [] => false
  | _ :: s' => contains p s'
  end.

(** [sep.join(parts)] *)
Fixpoint join (sep : str) (parts : list str) : str :=
  match parts with
  | [] => []
  | [p] => p
  | p :: rest => p ++ sep ++ join sep rest
  end.

(** [str.isspace] on one code point (the characters [str.strip] removes). *)
Definition isspace (c : N) : bool :=
  ((9 <=? c) && (c <=? 13)) || ((28 <=? c) && (c <=? 32)) ||
  (c =? 133) || (c =? 160) || (c =? 5760) ||
  ((8192 <=? c) && (c <=? 8202)) || (c =? 8232) || (c =? 8233) ||
  (c =? 8239) || (c =? 8287) || (c =? 12288).

(** The line boundaries of [str.splitlines]. *)
Definition islinebreak (c : N) : bool :=
  ((10 <=? c) && (c <=? 13)) || ((28 <=? c) && (c <=? 30)) ||
  (c =? 133) || (c =? 8232) || (c =? 8233).

Fixpoint lstrip (s : str) : str :=
  match s with
  | [] => []
  | c :: s' => if isspace c then lstrip s' else s
  end.

(** [s.strip()] *)
Definition strip (s : str) : str := rev (lstrip (rev (lstrip s))).

(** [s.splitlines()]: CR LF is one boundary, and a boundary at the very
    end opens no further line. *)
Fixpoint splitlines_from (cur : str) (s : str) : list str :=
  match s with
  | [] => match cur with [] => [] | _ => [rev cur] end
  | c :: s' =>
      if islinebreak c then
        match s' with
        | d :: s'' =>
            if (c =? 13) && (d =? 10)
            then rev cur :: splitlines_from [] s''
            else rev cur :: splitlines_from [] s'
        | [] => [rev cur]
        end
      else splitlines_from (c :: cur) s'
  end.

Definition splitlines (s : str) : list str := splitlines_from [] s.

(** [s.split("  ")]: cut at every occurrence of two spaces, leftmost
    first and without overlap. *)
Fixpoint split2sp_from (cur : str) (s : str) : list str :=
  match s with
  | [] => [rev cur]
  | c :: s' =>
      match s' with
      | d :: s'' =>
          if (c =? 32) && (d =? 32)
          then rev cur :: split2sp_from [] s''
          else split2sp_from (c :: cur) s'
      | [] => [rev (c :: cur)]
      end
  end.

Definition split2sp (s : str) : list str := split2sp_from [] s.

End Text.

Export Text.

(** ** Runtime values, exceptions and outcomes *)

Module Py.

Local Open Scope N_scope.

(** A Python [float] is kept symbolic: the double nearest to the decimal
    [±m·10^e], or one of the constants the JSON decoder accepts. *)
Inductive pyfloat :=
| FDec (negative : bool) (m : N) (e : Z)
| FInf (negative : bool)
| FNaN.

(** The literal [0.0]. *)
Definition float_zero : pyfloat := FDec false 0 0.

(** Values of JSON shape.  A [dict] is the list of its items in
    insertion order. *)
Inductive pyvalue :=
| PNone
| PBool (b : bool)
| PInt (z : Z)
| PFloat (f : pyfloat)
| PStr (s : str)
| PList (l : list pyvalue)
| PDict (items : list (str * pyvalue)).

(** The exceptions the modelled code can meet.  Their text, [str(e)], is
    produced by the libraries and is read from the environment. *)
Inductive exn :=
| JSONDecodeError
| ValueError
| RecursionError
| ValidationError (model : str)
| TypeError
| AttributeError
| External (tag : str).

Inductive outcome (A : Type) :=
| Ret (a : A)
| Raise (e : exn).

Arguments Ret {A} a.
Arguments Raise {A} e.

Definition bind {A B} (m : outcome A) (k : A -> outcome B) : outcome B :=
  match m with
  | Ret a => k a
  | Raise e => Raise e
  end.

(** [try: body  except Exception as e: handler(e)] *)
Definition try_except {A} (body : outcome A) (handler : exn -> outcome A)
  : outcome A :=
  match body with
  | Ret a => Ret a
  | Raise e => handler e
  end.

Fixpoint mapM {A B} (f : A -> outcome B) (l : list A) : outcome (list B) :=
  match l with
  | [] => Ret []
  | a :: l' =>
      bind (f a) (fun b => bind (mapM f l') (fun bs => Ret (b :: bs)))
  end.

(** A decimal [m·10^e] rounds to zero exactly when it is at most half the
    least subnormal double, [2^-1075]. *)
Definition float_is_zero (f : pyfloat) : bool :=
  match f with
  | FDec _ m e =>
      (m =? 0) ||
      ((e <? 0)%Z && (Z.of_N m * 2 ^ 1075 <=? 10 ^ (- e))%Z)
  | FInf _ | FNaN => false
  end.

(** [bool(v)] *)
Definition truthy (v : pyvalue) : bool :=
  match v with
  | PNone => false
  | PBool b => b
  | PInt z => negb (z =? 0)%Z
  | PFloat f => negb (float_is_zero f)
  | PStr s => match s with [] => false | _ => true end
  | PList l => match l with [] => false | _ => true end
  | PDict d => match d with [] => false | _ => true end
  end.

(** The value stored under [k]: a later item with the same key has
    overwritten an earlier one. *)
Fixpoint lookup (k : str) (items : list (str * pyvalue)) : option pyvalue :=
  match items with
  | [] => None
  | (k', v) :: rest =>
      match lookup k rest with
      | Some v' => Some v'
      | None => if str_eqb k k' then Some v else None
      end
  end.

(** [d.get(k, default)] on a dict. *)
Definition dict_get (items : list (str * pyvalue)) (k : str)
           (default : pyvalue) : pyvalue :=
  match lookup k items with
  | Some v => v
  | None => default
  end.

(** [v.get(k, default)] on any value: only a dict has the method. *)
Definition get (v : pyvalue) (k : str) (default : pyvalue)
  : outcome pyvalue :=
  match v with
  | PDict items => Ret (dict_get items k default)
  | _ => Raise AttributeError
  end.

(** The keys of a dict, each once, in insertion order. *)
Fixpoint keys_from (seen : list str) (items : list (str * pyvalue))
  : list str :=
  match items with
  | [] => []
  | (k, _) :: rest =>
      if existsb (str_eqb k) seen then keys_from seen rest
      else k :: keys_from (k :: seen) rest
  end.

(** [for item in v]: the items the loop visits. *)
Definition iterate (v : pyvalue) : outcome (list pyvalue) :=
  match v with
  | PList l => Ret l
  | PStr s => Ret (map (fun c => PStr [c]) s)
  | PDict items => Ret (map PStr (keys_from [] items))
  | _ => Raise TypeError
  end.

(** Python's [==] between a string and a value. *)
Definition eq_str (p : str) (v : pyvalue) : bool :=
  match v with
  | PStr s => str_eqb p s
  | _ => false
  end.

(** [p in v] for a string [p]. *)
Definition str_in (p : str) (v : pyvalue) : outcome bool :=
  match v with
  | PStr s => Ret (contains p s)
  | PList l => Ret (existsb (eq_str p) l)
  | PDict items => Ret (existsb (fun kv => str_eqb p (fst kv)) items)
  | _ => Raise TypeError
  end.

End Py.

Export Py.

(** ** The pattern [\{.*\}] *)

Module Re.

Local Open Scope N_scope.

(** [.*\}] under DOTALL, greedy: the longest prefix that ends in a
    closing brace. *)
Fixpoint greedy_to_rbrace (s : str) : option str :=
  match s with
  | [] => None
  | c :: s' =>
      match greedy_to_rbrace s' with
      | Some m => Some (c :: m)
      | None => if c =? ch "}" then Some [c] else None
      end
  end.

(** A match of the whole pattern that starts at the head of [s]. *)
Definition match_here (s : str) : option str :=
  match s with
  | c :: s' =>
      if c =? ch "{" then option_map (cons c) (greedy_to_rbrace s')
      else None
  | [] => None
  end.

(** [re.search(r'\{.*\}', s, re.DOTALL)]: the leftmost start position
    that matches wins; the result is [json_match.group()]. *)
Fixpoint search (s : str) : option str :=
  match match_here s with
  | Some m => Some m
  | None =>
      match s with
      | [] => None
      | _ :: s' => search s'
      end
  end.

End Re.

(** ** [json.loads]

    The decoder of the standard library, in its default configuration:
    strict strings, the constants [NaN], [Infinity] and [-Infinity]
    accepted, objects decoded to dicts.  The model is exact on whether a
    text decodes and to which value.  Which exception a text that does not
    decode raises is kept as the text decides it; the program catches them
    all alike. *)

Module Json.

Local Open Scope N_scope.

Definition is_ws (c : N) : bool :=
  (c =? 32) || (c =? 9) || (c =? 10) || (c =? 13).

Fixpoint skip_ws (s : str) : str :=
  match s with
  | [] => []
  | c :: s' => if is_ws c then skip_ws s' else s
  end.

Definition is_digit (c : N) : bool := (48 <=? c) && (c <=? 57).

Definition hex_value (c : N) : option N :=
  if is_digit c then Some (c - 48)
  else if (97 <=? c) && (c <=? 102) then Some (c - 87)
  else if (65 <=? c) && (c <=? 70) then Some (c - 55)
  else None.

Definition hex4 (a b c d : N) : option N :=
  match hex_value a, hex_value b, hex_value c, hex_value d with
  | Some x, Some y, Some z, Some w => Some (((x * 16 + y) * 16 + z) * 16 + w)
  | _, _, _, _ => None
  end.

(** The character a backslash escape other than [\u] stands for. *)
Definition escape_char (c : N) : option N :=
  if c =? DQUOTE then Some DQUOTE
  else if c =? ch "\" then Some 92
  else if c =? ch "/" then Some 47
  else if c =? ch "b" then Some 8
  else if c =? ch "f" then Some 12
  else if c =? ch "n" then Some 10
  else if c =? ch "r" then Some 13
  else if c =? ch "t" then Some 9
  else None.

Definition is_high_surrogate (u : N) : bool := (55296 <=? u) && (u <=? 56319).
Definition is_low_surrogate (u : N) : bool := (56320 <=? u) && (u <=? 57343).
Definition join_surrogates (hi lo : N) : N :=
  65536 + ((hi - 55296) * 1024 + (lo - 56320)).

(** [scanstring]: the text after an opening quote, up to the closing one.
    [None] is a decoding error. *)
Fixpoint scanstring_from (acc : str) (s : str) : option (str * str) :=
  match s with
  | [] => None
  | c :: s1 =>
      if c =? DQUOTE then Some (rev acc, s1)
      else if c =? ch "\" then
        match s1 with
        | [] => None
        | e :: s2 =>
            if e =? ch "u" then
              match s2 with
              | a :: b :: c' :: d :: s3 =>
                  match hex4 a b c' d with
                  | None => None
                  | Some u =>
                      if is_high_surrogate u then
                        match s3 with
                        | b1 :: u1 :: a' :: b' :: c'' :: d' :: s4 =>
                            if (b1 =? ch "\") && (u1 =? ch "u") then
                              match hex4 a' b' c'' d' with
                              | None => None
                              | Some u2 =>
                                  if is_low_surrogate u2
                                  then scanstring_from
                                         (join_surrogates u u2 :: acc) s4
                                  else scanstring_from (u :: acc) s3
                              end
                            else scanstring_from (u :: acc) s3
                        | _ => scanstring_from (u :: acc) s3
                        end
                      else scanstring_from (u :: acc) s3
                  end
              | _ => None
              end
            else
              match escape_char e with
              | Some x => scanstring_from (x :: acc) s2
              | None => None
              end
        end
      else if c <=? 31 then None
      else scanstring_from (c :: acc) s1
  end.

Definition scanstring (s : str) : option (str * str) := scanstring_from [] s.

Fixpoint span_digits (s : str) : str * str :=
  match s with
  | [] => ([], [])
  | c :: s' =>
      if is_digit c
      then let (d, r) := span_digits s' in (c :: d, r)
      else ([], s)
  end.

Fixpoint digits_value (acc : N) (d : str) : N :=
  match d with
  | [] => acc
  | c :: d' => digits_value (acc * 10 + (c - 48)) d'
  end.

(** [0|[1-9][0-9]*] *)
Definition match_int_part (s : str) : option (str * str) :=
  match s with
  | [] => None
  | c :: s' =>
      if c =? 48 then Some ([c], s')
      else if is_digit c
           then let (d, r) := span_digits s' in Some (c :: d, r)
           else None
  end.

(** [\.[0-9]+] *)
Definition match_frac (s : str) : option (str * str) :=
  match s with
  | [] => None
  | c :: s' =>
      if c =? ch "."
      then match span_digits s' with
           | ([], _) => None
           | (d, r) => Some (d, r)
           end
      else None
  end.

(** [[eE][-+]?[0-9]+] *)
Definition match_exp (s : str) : option (Z * str) :=
  match s with
  | [] => None
  | c :: s' =>
      if (c =? ch "e") || (c =? ch "E") then
        let '(neg, s'') :=
          match s' with
          | g :: t =>
              if g =? ch "-" then (true, t)
              else if g =? ch "+" then (false, t)
              else (false, s')
          | [] => (false, s')
          end in
        match span_digits s'' with
        | ([], _) => None
        | (d, r) =>
            let v := Z.of_N (digits_value 0 d) in
            Some (if neg then (- v)%Z else v, r)
        end
      else None
  end.

(** CPython refuses to convert a decimal literal of more than this many
    digits to an [int]. *)
Definition max_str_digits : nat := 4300.

(** A number at the head of [s]: its value, or the fault of converting
    it, and the rest of the text.  [None]: no number starts here. *)
Definition match_number (s : str) : option (outcome pyvalue * str) :=
  let '(neg, s0) :=
    match s with
    | c :: t => if c =? ch "-" then (true, t) else (false, s)
    | [] => (false, s)
    end in
  match match_int_part s0 with
  | None => None
  | Some (ip, s1) =>
      let '(fp, s2) :=
        match match_frac s1 with
        | Some (d, r) => (Some d, r)
        | None => (None, s1)
        end in
      let '(ex, s3) :=
        match match_exp s2 with
        | Some (z, r) => (Some z, r)
        | None => (None, s2)
        end in
      match fp, ex with
      | None, None =>
          let v := Z.of_N (digits_value 0 ip) in
          Some (if (max_str_digits <? List.length ip)%nat
                then Raise ValueError
                else Ret (PInt (if neg then (- v)%Z else v)), s3)
      | _, _ =>
          let fd := match fp with Some d => d | None => [] end in
          let e := match ex with Some z => z | None => 0%Z end in
          Some (Ret (PFloat (FDec neg (digits_value 0 (ip ++ fd))
                                  (e - Z.of_nat (List.length fd)))), s3)
      end
  end.

(** The named constants and numbers. *)
Definition scan_atom (s : str) : outcome (pyvalue * str) :=
  if startswith (py "null") s then Ret (PNone, skipn 4 s)
  else if startswith (py "true") s then Ret (PBool true, skipn 4 s)
  else if startswith (py "false") s then Ret (PBool false, skipn 5 s)
  else if startswith (py "NaN") s then Ret (PFloat FNaN, skipn 3 s)
  else if startswith (py "Infinity") s
       then Ret (PFloat (FInf false), skipn 8 s)
  else if startswith (py "-Infinity") s
       then Ret (PFloat (FInf true), skipn 9 s)
  else match match_number s with
       | Some (Ret v, r) => Ret (v, r)
       | Some (Raise e, _) => Raise e
       | None => Raise JSONDecodeError
       end.

(** [scan_once] with the object and array loops.  [depth] is the number
    of nested objects and arrays the decoder may still enter before the
    interpreter's recursion limit is reached.  [fuel] only makes the
    recursion structural: above twice the length of the text the result
    does not depend on it (see [scan_fuel]). *)
Fixpoint scan_once (fuel depth : nat) (s : str) {struct fuel}
  : outcome (pyvalue * str) :=
  match fuel with
  | O => Raise RecursionError
  | S n =>
      match s with
      | [] => Raise JSONDecodeError
      | c :: s' =>
          if c =? DQUOTE then
            match scanstring s' with
            | Some (v, r) => Ret (PStr v, r)
            | None => Raise JSONDecodeError
            end
          else if c =? ch "{" then
            match depth with
            | O => Raise RecursionError
            | S d =>
                match skip_ws s' with
                | c1 :: s2 =>
                    if c1 =? ch "}" then Ret (PDict [], s2)
                    else bind (parse_members n d (c1 :: s2))
                              (fun '(items, r) => Ret (PDict items, r))
                | [] => Raise JSONDecodeError
                end
            end
          else if c =? ch "[" then
            match depth with
            | O => Raise RecursionError
            | S d =>
                match skip_ws s' with
                | c1 :: s2 =>
                    if c1 =? ch "]" then Ret (PList [], s2)
                    else bind (parse_elements n d (c1 :: s2))
                              (fun '(l, r) => Ret (PList l, r))
                | [] => Raise JSONDecodeError
                end
            end
          else scan_atom s
      end
  end

(** The members of an object, from the position of a key. *)
with parse_members (fuel depth : nat) (s : str) {struct fuel}
  : outcome (list (str * pyvalue) * str) :=
  match fuel with
  | O => Raise RecursionError
  | S n =>
      match s with
      | [] => Raise JSONDecodeError
      | q :: s1 =>
          if q =? DQUOTE then
            match scanstring s1 with
            | None => Raise JSONDecodeError
            | Some (k, s2) =>
                match skip_ws s2 with
                | [] => Raise JSONDecodeError
                | colon :: s3 =>
                    if colon =? ch ":" then
                      bind (scan_once n depth (skip_ws s3)) (fun '(v, s4) =>
                        match skip_ws s4 with
                        | [] => Raise JSONDecodeError
                        | d :: s5 =>
                            if d =? ch "}" then Ret ([(k, v)], s5)
                            else if d =? ch "," then
                              bind (parse_members n depth (skip_ws s5))
                                   (fun '(rest, r) => Ret ((k, v) :: rest, r))
                            else Raise JSONDecodeError
                        end)
                    else Raise JSONDecodeError
                end
            end
          else Raise JSONDecodeError
      end
  end

(** The elements of an array, from the position of a value. *)
with parse_elements (fuel depth : nat) (s : str) {struct fuel}
  : outcome (list pyvalue * str) :=
  match fuel with
  | O => Raise RecursionError
  | S n =>
      bind (scan_once n depth s) (fun '(v, s1) =>
        match skip_ws s1 with
        | [] => Raise JSONDecodeError
        | d :: s2 =>
            if d =? ch "]" then Ret ([v], s2)
            else if d =? ch "," then
              bind (parse_elements n depth (skip_ws s2))
                   (fun '(rest, r) => Ret (v :: rest, r))
            else Raise JSONDecodeError
        end)
  end.

(** [json.loads(s)], called where [depth] nested objects and arrays can
    still be entered. *)
Definition loads (depth : nat) (s : str) : outcome pyvalue :=
  if startswith [65279] s then Raise JSONDecodeError
  else
    bind (scan_once (S (2 * List.length s)) depth (skip_ws s)) (fun '(v, r) =>
      match skip_ws r with
      | [] => Ret v
      | _ :: _ => Raise JSONDecodeError
      end).

End Json.

(** ** The parsed page (BeautifulSoup) *)

Module Html.

Local Open Scope N_scope.

(** A node of the parse tree.  [Text] is a string that [get_text]
    returns; [Special] is one it skips (comment, doctype and the like). *)
Inductive node :=
| Text (s : str)
| Special (s : str)
| Element (name : str) (attrs : list (str * str)) (children : list node).

Definition is_script_or_style (name : str) : bool :=
  str_eqb name (py "script") || str_eqb name (py "style").

(** [for script in soup(["script", "style"]): script.decompose()]:
    every such element leaves the tree together with what it holds. *)
Fixpoint decompose_node (n : node) : list node :=
  match n with
  | Element name attrs children =>
      if is_script_or_style name then []
      else [Element name attrs (flat_map decompose_node children)]
  | _ => [n]
  end.

Definition decompose_scripts (soup : list node) : list node :=
  flat_map decompose_node soup.

(** The strings below a node, in document order. *)
Fixpoint strings (n : node) : list str :=
  match n with
  | Text s => [s]
  | Special _ => []
  | Element _ _ children => flat_map strings children
  end.

(** [soup.get_text()] *)
Definition get_text (soup : list node) : str :=
  List.concat (flat_map strings soup).

(** [tag.get_text(strip=True)] *)
Definition get_text_strip (n : node) : str :=
  List.concat (filter (fun s => negb (str_eqb s [])) (map strip (strings n))).

(** Every node below [n], in document order. *)
Fixpoint descendants (n : node) : list node :=
  match n with
  | Element _ _ children =>
      flat_map (fun c => c :: descendants c) children
  | _ => []
  end.

Definition all_nodes (soup : list node) : list node :=
  flat_map (fun c => c :: descendants c) soup.

Fixpoint attr (k : str) (attrs : list (str * str)) : option str :=
  match attrs with
  | [] => None
  | (k', v) :: rest => if str_eqb k k' then Some v else attr k rest
  end.

(** The names in a [class] attribute: its maximal runs of non-space. *)
Fixpoint words_from (cur : str) (s : str) : list str :=
  match s with
  | [] => match cur with [] => [] | _ => [rev cur] end
  | c :: s' =>
      if isspace c
      then match cur with
           | [] => words_from [] s'
           | _ => rev cur :: words_from [] s'
           end
      else words_from (c :: cur) s'
  end.

(** The test behind [find_all(name, class_=cls)]. *)
Definition matches (name cls : str) (n : node) : bool :=
  match n with
  | Element name' attrs _ =>
      str_eqb name name' &&
      match attr (py "class") attrs with
      | Some v => existsb (str_eqb cls) (words_from [] v)
      | None => false
      end
  | _ => false
  end.

Definition find_all (name cls : str) (soup : list node) : list node :=
  filter (matches name cls) (all_nodes soup).

(** [tag.find(name, class_=cls)] *)
Definition find (name cls : str) (n : node) : option node :=
  match filter (matches name cls) (descendants n) with
  | [] => None
  | m :: _ => Some m
  end.

(** [tag.get(k, default)] *)
Definition tag_get (n : node) (k : str) (default : str) : str :=
  match n with
  | Element _ attrs _ =>
      match attr k attrs with
      | Some v => v
      | None => default
      end
  | _ => default
  end.

End Html.

(** ** The environment *)

Module World.

(** An [httpx] response: [status_code], [text] and what [json()] gives. *)
Record response := {
  status_code : Z;
  text : str;
  json : outcome pyvalue
}.

(** What the generation backend hands back: the text of [result.output]
    or of [result.data] when the attribute exists, and [str(result)]. *)
Record run_result := {
  output : option str;
  data : option str;
  as_str : str
}.

(** Everything read from outside the program.  Telemetry ([logfire]) and
    [print] are left out: they are taken to return, and nothing they
    return is looked at. *)
Record Env := {
  (** [os.getenv("CONTEXT7_API_KEY")] *)
  CONTEXT7_API_KEY : option str;
  (** How many nested objects and arrays [json.loads] can enter, where
      [research] calls it, before the recursion limit is reached *)
  recursion_budget : nat;
  (** [datetime.now().isoformat()] *)
  now_isoformat : str;
  (** [datetime.now().strftime("%B %d, %Y")] *)
  now_strftime : str;
  (** [client.post(url, headers=..., json=body, timeout=30.0)] *)
  http_post : str -> pyvalue -> outcome response;
  (** [client.get(url, params=..., headers=..., timeout=10.0)] *)
  http_get : str -> list (str * str) -> outcome response;
  (** [BeautifulSoup(text, 'html.parser')] *)
  html_parser : str -> outcome (list Html.node);
  (** [self.agent.run(prompt, deps=deps)], tools included *)
  agent_run : str -> Z -> outcome run_result;
  (** [str(e)] *)
  exn_str : exn -> str;
  (** Pydantic's coercion of a value that is neither [None] nor a float
      to [float]; [None] when it refuses. *)
  coerce_float : pyvalue -> option pyfloat
}.

(** A request that left the process. *)
Inductive event :=
| Post (url : str)
| Get (url : str).

(** A computation that may raise and records the requests it made. *)
Definition M (A : Type) : Type := outcome A * list event.

Definition mret {A} (a : A) : M A := (Ret a, []).

Definition lift {A} (o : outcome A) : M A := (o, []).

Definition mbind {A B} (m : M A) (k : A -> M B) : M B :=
  match m with
  | (Ret a, t) => let (r, t') := k a in (r, t ++ t')
  | (Raise e, t) => (Raise e, t)
  end.

Definition mtry {A} (body : M A) (handler : exn -> M A) : M A :=
  match body with
  | (Ret a, t) => (Ret a, t)
  | (Raise e, t) => let (r, t') := handler e in (r, t ++ t')
  end.

Definition post (env : Env) (url : str) (body : pyvalue) : M response :=
  (http_post env url body, [Post url]).

Definition get_url (env : Env) (url : str) (params : list (str * str))
  : M response :=
  (http_get env url params, [Get url]).

End World.

Export World.

Declare Scope py_scope.
Delimit Scope py_scope with py.
Notation "x <- m ;; k" := (mbind m (fun x => k))
  (at level 61, m at next level, right associativity) : py_scope.

(** ** The result types and their validation *)

Module Models.

(** [class SearchResult(BaseModel)] *)
Record SearchResult := {
  title : str;
  url : str;
  snippet : str;
  relevance_score : option pyfloat
}.

(** [class ResearchFindings(BaseModel)] *)
Record ResearchFindings := {
  query : str;
  summary : str;
  key_findings : list str;
  sources : list str;
  timestamp : str
}.

(** A field annotated [str] takes a string and nothing else. *)
Definition validate_str (model : str) (v : pyvalue) : outcome str :=
  match v with
  | PStr s => Ret s
  | _ => Raise (ValidationError model)
  end.

(** A field annotated [list[str]], from a value of JSON shape. *)
Definition validate_list_str (model : str) (v : pyvalue)
  : outcome (list str) :=
  match v with
  | PList l => mapM (validate_str model) l
  | _ => Raise (ValidationError model)
  end.

(** A field annotated [Optional[float]]. *)
Definition validate_optional_float (env : Env) (model : str) (v : pyvalue)
  : outcome (option pyfloat) :=
  match v with
  | PNone => Ret None
  | PFloat f => Ret (Some f)
  | _ => match coerce_float env v with
         | Some f => Ret (Some f)
         | None => Raise (ValidationError model)
         end
  end.

(** A field without default must be among the keyword arguments. *)
Definition required (model : str) (kwargs : list (str * pyvalue)) (k : str)
  : outcome pyvalue :=
  match lookup k kwargs with
  | Some v => Ret v
  | None => Raise (ValidationError model)
  end.

(** A call with [**v]: the value must be a mapping. *)
Definition keyword_arguments (v : pyvalue) : outcome (list (str * pyvalue)) :=
  match v with
  | PDict items => Ret items
  | _ => Raise TypeError
  end.

(** [ResearchFindings] called with [**kwargs]: four required fields, [timestamp]
    from its default factory when absent, other keys ignored. *)
Definition new_ResearchFindings (env : Env) (kwargs : list (str * pyvalue))
  : outcome ResearchFindings :=
  let model := py "ResearchFindings" in
  bind (bind (required model kwargs (py "query")) (validate_str model))
    (fun q =>
  bind (bind (required model kwargs (py "summary")) (validate_str model))
    (fun s =>
  bind (bind (required model kwargs (py "key_findings"))
             (validate_list_str model))
    (fun kf =>
  bind (bind (required model kwargs (py "sources"))
             (validate_list_str model))
    (fun src =>
  bind (match lookup (py "timestamp") kwargs with
        | Some v => validate_str model v
        | None => Ret (now_isoformat env)
        end)
    (fun ts =>
  Ret {| query := q; summary := s; key_findings := kf;
         sources := src; timestamp := ts |}))))).

(** [SearchResult(title=..., url=..., snippet=..., relevance_score=...)] *)
Definition new_SearchResult (env : Env) (t u s score : pyvalue)
  : outcome SearchResult :=
  let model := py "SearchResult" in
  bind (validate_str model t) (fun t' =>
  bind (validate_str model u) (fun u' =>
  bind (validate_str model s) (fun s' =>
  bind (validate_optional_float env model score) (fun score' =>
  Ret {| title := t'; url := u'; snippet := s';
         relevance_score := score' |})))).

End Models.

(** ** Synthesis of the findings ([research], the inner [try]) *)

Module Synth.

Import Models.

Definition generic_findings : list str :=
  [ py "Research completed using available tools";
    py "Multiple sources were consulted";
    py "Findings synthesized from web search and content analysis" ].

(** The [else] branch: no match of the pattern. *)
Definition degraded_no_json (env : Env) (query response_text : str)
  : ResearchFindings :=
  {| query := query;
     summary := response_text;
     key_findings := generic_findings;
     sources := [py "Web search results"; py "Content analysis"];
     timestamp := now_isoformat env |}.

(** The [except] branch: decoding or validation raised. *)
Definition degraded_on_fault (env : Env) (query response_text : str)
  : ResearchFindings :=
  {| query := query;
     summary := response_text;
     key_findings := firstn 2 generic_findings;
     sources := [py "Agent analysis"];
     timestamp := now_isoformat env |}.

(** What the [if] branch does with the matched region: the region is
    decoded and its items become the keyword arguments of
    [ResearchFindings]. *)
Definition decode (env : Env) (region : str) : outcome ResearchFindings :=
  bind (Json.loads (recursion_budget env) region) (fun findings_dict =>
  bind (keyword_arguments findings_dict) (new_ResearchFindings env)).

(** The body of the [try]. *)
Definition extract (env : Env) (response_text query : str)
  : outcome ResearchFindings :=
  match Re.search response_text with
  | Some json_match => decode env json_match
  | None => Ret (degraded_no_json env query response_text)
  end.

(** [synthesize(raw_text, query)]: lines 318 to 348 of [research]. *)
Definition synthesize (env : Env) (raw_text query : str)
  : outcome ResearchFindings :=
  try_except (extract env raw_text query)
             (fun _ => Ret (degraded_on_fault env query raw_text)).

(** The three ways the synthesis can go. *)
Inductive shape := Structured | DegradedNoJson | DegradedOnFault.

Definition shape_of (env : Env) (raw_text : str) : shape :=
  match Re.search raw_text with
  | None => DegradedNoJson
  | Some region =>
      match decode env region with
      | Ret _ => Structured
      | Raise _ => DegradedOnFault
      end
  end.

End Synth.

(** ** The two providers ([context7_integration.py]) *)

Module Context7.

Import Html.
Local Open Scope py_scope.

Definition base_url : str := py "https://api.context7.com/v1".

(** [not self.api_key or self.api_key.startswith("dummy")], with
    [self.api_key] read from the environment. *)
Definition unconfigured (env : Env) : bool :=
  match CONTEXT7_API_KEY env with
  | None => true
  | Some [] => true
  | Some key => startswith (py "dummy") key
  end.

(** [Context7Search.search] *)
Definition search (env : Env) (query : str) (max_results : Z) : M pyvalue :=
  if unconfigured env then mret (PList [])
  else
    mtry
      (response <- post env (base_url ++ py "/search")
                     (PDict [(py "query", PStr query);
                             (py "max_results", PInt max_results)]) ;;
       if (status_code response =? 200)%Z then
         data <- lift (json response) ;;
         lift (get data (py "results") (PList []))
       else mret (PList []))
      (fun _ => mret (PList [])).

Definition placeholder (url : str) : str :=
  py "Content from " ++ url ++ py " (Context7 API key required for real data)".

Definition error_fetching (env : Env) (url : str) (e : exn) : str :=
  py "Error fetching " ++ url ++ py ": " ++ exn_str env e.

(** [Context7Search.fetch_content] *)
Definition fetch_content (env : Env) (url : str) : M pyvalue :=
  if unconfigured env then mret (PStr (placeholder url))
  else
    mtry
      (response <- post env (base_url ++ py "/fetch")
                     (PDict [(py "url", PStr url)]) ;;
       if (status_code response =? 200)%Z then
         data <- lift (json response) ;;
         lift (get data (py "content") (PStr []))
       else mret (PStr (py "Failed to fetch " ++ url)))
      (fun e => mret (PStr (error_fetching env url e))).

(** [l[:n]] *)
Definition slice_to {A} (n : Z) (l : list A) : list A :=
  if (0 <=? n)%Z then firstn (Z.to_nat n) l
  else firstn (Z.to_nat (Z.of_nat (List.length l) + n)) l.

(** One turn of the loop over the result blocks. *)
Definition scrape_result (result : node) : list pyvalue :=
  match find (py "a") (py "result__a") result with
  | Some title_elem =>
      [PDict
         [(py "title", PStr (get_text_strip title_elem));
          (py "url", PStr (tag_get title_elem (py "href") []));
          (py "snippet",
           PStr match find (py "a") (py "result__snippet") result with
                | Some snippet_elem => get_text_strip snippet_elem
                | None => []
                end)]]
  | None => []
  end.

Definition duckduckgo : str := py "https://html.duckduckgo.com/html/".

(** [fallback_search] *)
Definition fallback_search (env : Env) (query : str) (max_results : Z)
  : M pyvalue :=
  mtry
    (response <- get_url env duckduckgo [(py "q", query)] ;;
     soup <- lift (html_parser env (text response)) ;;
     mret (PList (flat_map scrape_result
                    (slice_to max_results
                       (find_all (py "div") (py "result") soup)))))
    (fun _ => mret (PList [])).

(** The whitespace clean-up of [fallback_fetch]. *)
Definition clean_whitespace (text : str) : str :=
  let lines := map strip (splitlines text) in
  let chunks := flat_map (fun line => map strip (split2sp line)) lines in
  join [10%N] (filter (fun chunk => negb (str_eqb chunk [])) chunks).

(** [if len(text) > 5000: text = text[:5000] + "..."] *)
Definition limit_length (text : str) : str :=
  if (5000 <? List.length text)%nat then firstn 5000 text ++ py "..."
  else text.

(** The text extracted from a parsed page, before it is cut. *)
Definition extracted_text (soup : list node) : str :=
  clean_whitespace (get_text (decompose_scripts soup)).

(** The text [fallback_fetch] makes of a parsed page. *)
Definition page_text (soup : list node) : str :=
  limit_length (extracted_text soup).

(** [fallback_fetch] *)
Definition fallback_fetch (env : Env) (url : str) : M str :=
  mtry
    (response <- get_url env url [] ;;
     soup <- lift (html_parser env (text response)) ;;
     mret (page_text soup))
    (fun e => mret (error_fetching env url e)).

End Context7.

(** ** The agent ([research_agent.py]) *)

Module Agent.

Import Models.
Local Open Scope py_scope.

(** One turn of the loop that converts the provider's items. *)
Definition to_SearchResult (env : Env) (item : pyvalue)
  : outcome SearchResult :=
  bind (get item (py "title") (PStr [])) (fun t =>
  bind (get item (py "url") (PStr [])) (fun u =>
  bind (get item (py "content") (PStr [])) (fun c =>
  bind (get item (py "snippet") c) (fun s =>
  bind (get item (py "score") PNone) (fun score =>
  new_SearchResult env t u s score))))).

Definition no_results (query : str) : SearchResult :=
  {| title := py "Search for: " ++ query;
     url := [];
     snippet := py "No search results available at this time";
     relevance_score := Some float_zero |}.

Definition search_error (env : Env) (e : exn) : SearchResult :=
  {| title := py "Search error";
     url := [];
     snippet := py "Search functionality encountered an error: "
                ++ exn_str env e;
     relevance_score := Some float_zero |}.

(** The tool [search_web]; [max_search_results] is
    [ctx.deps.max_search_results]. *)
Definition search_web (env : Env) (query : str) (max_search_results : Z)
  : M (list SearchResult) :=
  mtry
    (search_results <- Context7.search env query max_search_results ;;
     search_results <-
       (if negb (truthy search_results)
        then Context7.fallback_search env query max_search_results
        else mret search_results) ;;
     items <- lift (iterate search_results) ;;
     results <- lift (mapM (to_SearchResult env) items) ;;
     mret (match results with
           | [] => [no_results query]
           | _ :: _ => results
           end))
    (fun e => mret [search_error env e]).

Definition key_required : str := py "Context7 API key required".

(** The tool [fetch_webpage_content]. *)
Definition fetch_webpage_content (env : Env) (url : str) : M pyvalue :=
  mtry
    (content <- Context7.fetch_content env url ;;
     unavailable <-
       (if negb (truthy content) then mret true
        else lift (str_in key_required content)) ;;
     if unavailable : bool
     then content <- Context7.fallback_fetch env url ;; mret (PStr content)
     else mret content)
    (fun e => mret (PStr (Context7.error_fetching env url e))).

(** The prompt of [research]. *)
Definition prompt (env : Env) (query : str) : str :=
  py "Research the following topic and provide comprehensive, detailed findings: "
  ++ query ++ py "

Use your knowledge and the available tools to provide specific, detailed information. Remember, today's date is "
  ++ now_strftime env ++ py " and we are in 2025.

Please provide your response in the following JSON format with SPECIFIC, DETAILED information (not generic placeholders):
{
    " ++ js "'query': '" ++ query ++ js "',
    'summary': 'A comprehensive, detailed summary of your findings with specific facts, numbers, and recent developments',
    'key_findings': ['Specific finding 1 with details', 'Specific finding 2 with data', 'Specific finding 3 with examples', 'Specific finding 4', 'Specific finding 5'],
    'sources': ['Specific source or reference 1', 'Specific source or reference 2', 'Specific source or reference 3']
}

Provide REAL, SPECIFIC information based on your knowledge, not generic placeholders.".

(** The text taken from the backend's result. *)
Definition response_text (result : run_result) : str :=
  match output result with
  | Some s => s
  | None =>
      match data result with
      | Some s => s
      | None => as_str result
      end
  end.

(** [ResearchAgent.research] *)
Definition research (env : Env) (query : str) (max_results : Z)
  : outcome ResearchFindings :=
  try_except
    (bind (agent_run env (prompt env query) max_results) (fun result =>
     Synth.synthesize env (response_text result) query))
    (fun e => Raise e).

(** [str(i)] for an index of [enumerate]. *)
Fixpoint uint_digits (d : Decimal.uint) : str :=
  match d with
  | Decimal.Nil => []
  | Decimal.D0 d' => 48%N :: uint_digits d'
  | Decimal.D1 d' => 49%N :: uint_digits d'
  | Decimal.D2 d' => 50%N :: uint_digits d'
  | Decimal.D3 d' => 51%N :: uint_digits d'
  | Decimal.D4 d' => 52%N :: uint_digits d'
  | Decimal.D5 d' => 53%N :: uint_digits d'
  | Decimal.D6 d' => 54%N :: uint_digits d'
  | Decimal.D7 d' => 55%N :: uint_digits d'
  | Decimal.D8 d' => 56%N :: uint_digits d'
  | Decimal.D9 d' => 57%N :: uint_digits d'
  end.

Definition str_of_nat (i : nat) : str := uint_digits (Nat.to_uint i).

(** [enumerate(l, start)] *)
Definition enumerate {A} (l : list A) (start : nat) : list (nat * A) :=
  combine (seq start (List.length l)) l.

(** The text [quick_search] builds from the findings. *)
Definition quick_search_text (findings : ResearchFindings) : str :=
  let summary :=
    py "
Research Query: " ++ query findings ++ py "

Summary:
" ++ summary findings ++ py "

Key Findings:
" in
  let summary :=
    fold_left
      (fun summary '(i, finding) =>
         summary ++ [10%N] ++ str_of_nat i ++ py ". " ++ finding)
      (enumerate (key_findings findings) 1) summary in
  summary ++ py "

Sources: " ++ join (py ", ") (sources findings).

(** [ResearchAgent.quick_search] *)
Definition quick_search (env : Env) (query : str) : outcome str :=
  bind (research env query 3) (fun findings =>
  Ret (quick_search_text findings)).

End Agent.

(** ** The interactive session ([main.py]) *)

Module Console.

Import Models Agent.
Local Open Scope N_scope.

(** What the session does, in the order it does it.  The texts are the
    arguments of [print] and [input]; what the constructor of the agent
    and the tools print is left out, and so is an interrupt from the
    keyboard. *)
Inductive action :=
| Print (s : str)
| Sleep (seconds : Z)
| Input (prompt : str)
| Research (query : str) (max_results : Z).

(** [input] at the end of the input. *)
Definition EOFError : exn := External (py "EOFError").

(** [c.lower() == x] for one character [c] and a lower-case ASCII letter
    [x]: the letter, its capital, and for k the Kelvin sign. *)
Definition lowers_to (x c : N) : bool :=
  (c =? x) || (c + 32 =? x) || ((x =? 107) && (c =? 8490)).

(** [s.lower() == t], for a [t] of lower-case ASCII letters. *)
Fixpoint lower_is (t s : str) : bool :=
  match t, s with
  | [], [] => true
  | x :: t', c :: s' => lowers_to x c && lower_is t' s'
  | _, _ => false
  end.

(** [s.lower() in l], for an [l] of such strings. *)
Definition lower_in (s : str) (l : list str) : bool :=
  existsb (fun t => lower_is t s) l.

Definition commands : list str := [py "quit"; py "exit"; py "q"].

Definition consent : list str := [py "y"; py "yes"; []].

(** The sign [=], 70 times. *)
Definition rule : str := repeat 61 70.

(** The microscope sign, 35 times. *)
Definition microscopes : str := repeat 128300 35.

(** The display of the findings. *)
Definition show_results (results : ResearchFindings) : list action :=
  [Print rule; Print (py "RESEARCH RESULTS"); Print rule;
   Print (10 :: py " Summary:"); Print (summary results);
   Print (10 :: py " Key Findings:")]
  ++ map (fun '(i, finding) =>
            Print (py "  " ++ str_of_nat i ++ py ". " ++ finding))
         (enumerate (key_findings results) 1)
  ++ [Print (10 :: py " Sources:")]
  ++ map (fun '(i, source) =>
            Print (py "  " ++ str_of_nat i ++ py ". " ++ source))
         (enumerate (sources results) 1)
  ++ [Print (10 :: py " Completed at: " ++ timestamp results);
      Print (rule ++ [10])].

(** The head of the [except] branch. *)
Definition show_error (env : Env) (e : exn) : list action :=
  [Print (10 :: py " Error during research: " ++ exn_str env e);
   Print (py "Please try again with a different query." ++ [10])].

(** The [while True] of [interactive_research].  [inputs] are the lines
    still to be read, [world k] is the environment in which the research
    call number [k] runs, and [calls] counts the calls made so far.  The
    result is how the loop ends, the number of calls, and what was done. *)
Fixpoint loop (world : nat -> Env) (inputs : list str) (calls : nat)
         {struct inputs} : outcome unit * nat * list action :=
  let asked :=
    [Print rule; Print (py "What would you like to research?");
     Print (py "(Type 'quit' to exit, 'help' for commands)"); Print rule;
     Sleep 3; Input (10 :: py "Enter your research topic: ")] in
  match inputs with
  | [] => (Raise EOFError, calls, asked)
  | line :: inputs =>
      let query := strip line in
      if negb (truthy (PStr query)) then
        let '(r, n, t) := loop world inputs calls in (r, n, asked ++ t)
      else if lower_in query commands then
        (Ret tt, calls,
         asked ++ [Print (10 :: py "Thank you for using Research Agent!");
                   Print (py "Goodbye!" ++ [10])])
      else
        let env := world calls in
        let started :=
          asked ++
          [Print ([10; 128269] ++ py " Researching: " ++ query);
           Print (9203 :: py " Please wait while I gather and analyze information..."
                  ++ [10]);
           Research query 5] in
        match research env query 5 with
        | Ret results =>
            let shown :=
              started ++ show_results results ++
              [Input (py "Would you like to research another topic? (y/n): ")] in
            match inputs with
            | [] =>
                (Raise EOFError, S calls,
                 shown ++ show_error env EOFError ++
                 [Input (py "Would you like to try again? (y/n): ")])
            | continue_choice :: inputs =>
                if negb (lower_in (strip continue_choice) consent) then
                  (Ret tt, S calls,
                   shown ++
                   [Print ([10; 128075]
                           ++ py " Thank you for using Research Agent!");
                    Print (py "Goodbye!" ++ [10])])
                else
                  let '(r, n, t) := loop world inputs (S calls) in
                  (r, n, shown ++ t)
            end
        | Raise e =>
            let failed :=
              started ++ show_error env e ++
              [Input (py "Would you like to try again? (y/n): ")] in
            match inputs with
            | [] => (Raise EOFError, S calls, failed)
            | retry :: inputs =>
                if negb (lower_in (strip retry) consent) then
                  (Ret tt, S calls,
                   failed ++ [Print (10 :: py " Goodbye!" ++ [10])])
                else
                  let '(r, n, t) := loop world inputs (S calls) in
                  (r, n, failed ++ t)
            end
        end
  end.

(** [interactive_research]; [init] is what [ResearchAgent()] does. *)
Definition interactive_research (world : nat -> Env) (init : outcome unit)
           (inputs : list str) : outcome unit * nat * list action :=
  let banner :=
    [Print (10 :: microscopes);
     Print (py "      RESEARCH AGENT - INTERACTIVE MODE");
     Print (py "      Powered by Pydantic AI + Gemini");
     Print (microscopes ++ [10]);
     Print (py "Initializing research agent...")] in
  match init with
  | Raise e => (Raise e, 0%nat, banner)
  | Ret _ =>
      let '(r, n, t) := loop world inputs 0 in
      (r, n, banner ++ Print (9989 :: py " Agent ready!" ++ [10]) :: t)
  end.

(** How [main] ends: it returns, or it calls [sys.exit]. *)
Inductive ending :=
| Returned
| Exit (code : Z).

(** [main], without its branch for an interrupt. *)
Definition main (world : nat -> Env) (init : outcome unit)
           (inputs : list str) : ending * list action :=
  match interactive_research world init inputs with
  | (Ret _, _, t) => (Returned, t)
  | (Raise e, n, t) =>
      (Exit 1,
       t ++ [Print ([10; 10060] ++ py " Unexpected error: "
                    ++ exn_str (world n) e);
             Print (py "Please check your configuration and try again."
                    ++ [10])])
  end.

End Console.

(** ** Environments used in the examples *)

Module Samples.

Definition refused : exn := External (py "ConnectError").

Definition clock : str := py "2025-06-01T12:00:00".

(** No credential, and no network at all. *)
Definition offline : Env :=
  {| CONTEXT7_API_KEY := None;
     recursion_budget := 900;
     now_isoformat := clock;
     now_strftime := py "June 01, 2025";
     http_post := fun _ _ => Raise refused;
     http_get := fun _ _ => Raise refused;
     html_parser := fun _ => Ret [];
     agent_run := fun _ _ => Raise refused;
     exn_str := fun _ => py "All connection attempts failed";
     coerce_float := fun _ => None |}.

(** The same at a later time. *)
Definition later : Env :=
  {| CONTEXT7_API_KEY := None;
     recursion_budget := 900;
     now_isoformat := py "2025-06-02T08:30:00";
     now_strftime := py "June 02, 2025";
     http_post := fun _ _ => Raise refused;
     http_get := fun _ _ => Raise refused;
     html_parser := fun _ => Ret [];
     agent_run := fun _ _ => Raise refused;
     exn_str := fun _ => py "All connection attempts failed";
     coerce_float := fun _ => None |}.

(** No credential; every GET answers a page that parses to [soup]. *)
Definition serving (soup : list Html.node) : Env :=
  {| CONTEXT7_API_KEY := None;
     recursion_budget := 900;
     now_isoformat := clock;
     now_strftime := py "June 01, 2025";
     http_post := fun _ _ => Raise refused;
     http_get := fun _ _ =>
       Ret {| status_code := 200; text := []; json := Raise JSONDecodeError |};
     html_parser := fun _ => Ret soup;
     agent_run := fun _ _ => Raise refused;
     exn_str := fun _ => py "All connection attempts failed";
     coerce_float := fun _ => None |}.

(** A real credential; the primary answers 200 with [payload], and the
    secondary is unreachable. *)
Definition answering (payload : pyvalue) : Env :=
  {| CONTEXT7_API_KEY := Some (py "live-key");
     recursion_budget := 900;
     now_isoformat := clock;
     now_strftime := py "June 01, 2025";
     http_post := fun _ _ =>
       Ret {| status_code := 200; text := []; json := Ret payload |};
     http_get := fun _ _ => Raise refused;
     html_parser := fun _ => Ret [];
     agent_run := fun _ _ => Raise refused;
     exn_str := fun _ => py "All connection attempts failed";
     coerce_float := fun _ => None |}.

(** The backend answers [reply] as [result.output]. *)
Definition replying (reply : str) : Env :=
  {| CONTEXT7_API_KEY := None;
     recursion_budget := 900;
     now_isoformat := clock;
     now_strftime := py "June 01, 2025";
     http_post := fun _ _ => Raise refused;
     http_get := fun _ _ => Raise refused;
     html_parser := fun _ => Ret [];
     agent_run := fun _ _ =>
       Ret {| output := Some reply; data := None; as_str := [] |};
     exn_str := fun _ => py "All connection attempts failed";
     coerce_float := fun _ => None |}.

(** A real credential, and no network at all. *)
Definition unreachable : Env :=
  {| CONTEXT7_API_KEY := Some (py "live-key");
     recursion_budget := 900;
     now_isoformat := clock;
     now_strftime := py "June 01, 2025";
     http_post := fun _ _ => Raise refused;
     http_get := fun _ _ => Raise refused;
     html_parser := fun _ => Ret [];
     agent_run := fun _ _ => Raise refused;
     exn_str := fun _ => py "All connection attempts failed";
     coerce_float := fun _ => None |}.

(** As [offline], where the call stack leaves [json.loads] room for one
    level of nesting only. *)
Definition shallow : Env :=
  {| CONTEXT7_API_KEY := None;
     recursion_budget := 1;
     now_isoformat := clock;
     now_strftime := py "June 01, 2025";
     http_post := fun _ _ => Raise refused;
     http_get := fun _ _ => Raise refused;
     html_parser := fun _ => Ret [];
     agent_run := fun _ _ => Raise refused;
     exn_str := fun _ => py "All connection attempts failed";
     coerce_float := fun _ => None |}.

(** A page of the secondary provider with two result blocks. *)
Definition two_results : list Html.node :=
  [ Html.Element (py "div") [(py "class", py "result")]
      [ Html.Element (py "a")
          [(py "class", py "result__a"); (py "href", py "https://a.example/")]
          [Html.Text (py " Ownership ")];
        Html.Element (py "a") [(py "class", py "result__snippet")]
          [Html.Text (py "Each value has one owner.")] ];
    Html.Element (py "div") [(py "class", py "result results_links")]
      [ Html.Element (py "a")
          [(py "class", py "result__a"); (py "href", py "https://b.example/")]
          [Html.Text (py "Borrowing")] ] ].

End Samples.

(** ** Vocabulary of the properties *)

Module Spec.

Local Open Scope N_scope.

(** What the secondary provider returns: dicts with three strings. *)
Definition scraped (v : pyvalue) : Prop :=
  exists t u s,
    v = PDict [(py "title", PStr t); (py "url", PStr u);
               (py "snippet", PStr s)].

(** No two neighbours in [s] are related by [r]. *)
Fixpoint no_adjacent (r : N -> N -> bool) (s : str) : bool :=
  match s with
  | a :: t =>
      match t with
      | b :: _ => negb (r a b) && no_adjacent r t
      | [] => true
      end
  | [] => true
  end.

(** A space or a line boundary. *)
Definition soft (c : N) : bool := (c =? 32) || islinebreak c.

(** The text holds no run of two or more whitespace characters. *)
Definition runs_collapsed (s : str) : bool :=
  no_adjacent (fun a b => isspace a && isspace b) s.

(** The text holds no run of two or more spaces and line boundaries. *)
Definition soft_runs_collapsed (s : str) : bool :=
  no_adjacent (fun a b => soft a && soft b) s.

Definition is_script_element (n : Html.node) : bool :=
  match n with
  | Html.Element name _ _ => Html.is_script_or_style name
  | _ => false
  end.

(** Two spaces side by side. *)
Definition double_space (a b : N) : bool := (a =? 32) && (b =? 32).

(** The text begins, or ends, with a character that is no whitespace. *)
Definition starts_hard (s : str) : bool :=
  match s with
  | c :: _ => negb (isspace c)
  | [] => false
  end.

Definition ends_hard (s : str) : bool := starts_hard (rev s).

(** A chunk of the cleaned text: it begins and ends with a character that
    is no whitespace, and holds no run of spaces and line boundaries. *)
Definition good_chunk (chunk : str) : Prop :=
  starts_hard chunk = true /\ ends_hard chunk = true /\
  soft_runs_collapsed chunk = true.

(** Some node of the tree is a [script] or [style] element. *)
Definition has_script_or_style (soup : list Html.node) : bool :=
  existsb is_script_element (Html.all_nodes soup).

(** What is left of a text without its whitespace. *)
Definition visible (s : str) : str := filter (fun c => negb (isspace c)) s.

(** A chunk as the clean-up leaves it: hard at both ends, on one line, and
    without two spaces side by side. *)
Definition clean_chunk (chunk : str) : Prop :=
  starts_hard chunk = true /\ ends_hard chunk = true /\
  Forall (fun c => islinebreak c = false) chunk /\
  no_adjacent double_space chunk = true.

(** The requests a tool call may send: the primary's POST, the secondary's
    GET, or the first and then the second. *)
Definition one_attempt_each (primary secondary : str) (t : list event)
  : Prop :=
  t = [Post primary] \/ t = [Get secondary] \/
  t = [Post primary; Get secondary].

(** The clean-up, in the words of its description.  A run of whitespace
    between two characters that are no whitespace is kept when it holds no
    line boundary and no two spaces side by side; otherwise one line feed
    stands for it.  The runs before the first and after the last such
    character are dropped. *)
Definition kept_run (run : str) : bool :=
  forallb (fun c => negb (islinebreak c)) run &&
  no_adjacent double_space run.

Definition squeeze (run : str) : str :=
  if kept_run run then run else [10].

(** [run] is the whitespace met since the last character that is none, in
    reverse; [started] tells whether there has been such a character. *)
Fixpoint collapse_from (started : bool) (run : str) (s : str) : str :=
  match s with
  | [] => []
  | c :: s' =>
      if isspace c then collapse_from started (c :: run) s'
      else (if started then squeeze (rev run) else [])
           ++ c :: collapse_from true [] s'
  end.

Definition collapse (text : str) : str := collapse_from false [] text.

(** The strings of a page that stand in no [script] or [style] element,
    in document order. *)
Fixpoint strings_outside (n : Html.node) : list str :=
  match n with
  | Html.Text s => [s]
  | Html.Special _ => []
  | Html.Element name _ children =>
      if Html.is_script_or_style name then []
      else flat_map strings_outside children
  end.

Definition text_outside_scripts (soup : list Html.node) : str :=
  List.concat (flat_map strings_outside soup).

(** The chunks the clean-up makes of one line, and of a text. *)
Definition pieces (line : str) : list str :=
  filter (fun chunk => negb (str_eqb chunk [])) (map strip (split2sp line)).

Definition line_chunks (line : str) : list str := pieces (strip line).

Definition text_chunks (text : str) : list str :=
  flat_map line_chunks (splitlines text).

(** The research calls and the reads of a session. *)
Definition is_research (a : Console.action) : bool :=
  match a with
  | Console.Research _ _ => true
  | _ => false
  end.

Definition is_input (a : Console.action) : bool :=
  match a with
  | Console.Input _ => true
  | _ => false
  end.

Definition research_count (t : list Console.action) : nat :=
  List.length (filter is_research t).

Definition input_count (t : list Console.action) : nat :=
  List.length (filter is_input t).

(** A research call as the session may make one: with the limit 5, for a
    line of the input, stripped, that is neither blank nor a command. *)
Definition proper_call (inputs : list str) (a : Console.action) : Prop :=
  match a with
  | Console.Research query max_results =>
      max_results = 5%Z /\
      exists line,
        In line inputs /\ query = strip line /\ query <> [] /\
        Console.lower_in query Console.commands = false
  | _ => True
  end.

End Spec.

Export Spec.

(** * Properties *)

(** ** The pattern: from the first opening brace to the last closing one *)

Section RegexFacts.

Local Open Scope N_scope.

Lemma str_eqb_eq (a b : str) : str_eqb a b = true <-> a = b.
Proof.
  revert b; induction a as [|x a IH]; intros [|y b]; simpl;
    try (split; congruence).
  rewrite andb_true_iff, N.eqb_eq, IH. split.
  - intros [-> ->]; reflexivity.
  - intros H; injection H; auto.
Qed.

Lemma greedy_none (s : str) :
  Re.greedy_to_rbrace s = None -> ~ In 125 s.
Proof.
  induction s as [|c s IH]; simpl; [tauto|].
  destruct (Re.greedy_to_rbrace s); [discriminate|].
  change (ch "}") with 125.
  destruct (N.eqb_spec c 125); [discriminate|].
  intros _ [H|H]; [congruence | exact (IH eq_refl H)].
Qed.

Lemma greedy_some (s m : str) :
  Re.greedy_to_rbrace s = Some m ->
  exists mid post, m = mid ++ [125] /\ s = m ++ post /\ ~ In 125 post.
Proof.
  revert m; induction s as [|c s IH]; simpl; intros m; [discriminate|].
  destruct (Re.greedy_to_rbrace s) as [m'|] eqn:E.
  - intros H; injection H as <-.
    destruct (IH m' eq_refl) as (mid & post & -> & Hs & Hp).
    exists (c :: mid), post. simpl. rewrite Hs at 1. auto.
  - change (ch "}") with 125.
    destruct (N.eqb_spec c 125) as [->|]; [|discriminate].
    intros H; injection H as <-.
    exists [], s. simpl. auto using greedy_none.
Qed.

Lemma greedy_app (mid post : str) :
  ~ In 125 post ->
  Re.greedy_to_rbrace (mid ++ 125 :: post) = Some (mid ++ [125]).
Proof.
  intros Hp. induction mid as [|c mid IH]; simpl.
  - destruct (Re.greedy_to_rbrace post) as [m|] eqn:E; [|reflexivity].
    destruct (greedy_some _ _ E) as (mid & post' & -> & -> & _).
    exfalso; apply Hp. rewrite <- app_assoc. apply in_or_app; right.
    simpl; auto.
  - rewrite IH. reflexivity.
Qed.

(** The match is the region from the first opening brace to the last
    closing brace, when the latter comes after the former. *)
Lemma search_spec (s m : str) :
  Re.search s = Some m <->
  exists pre mid post,
    s = pre ++ 123 :: mid ++ 125 :: post /\
    ~ In 123 pre /\ ~ In 125 post /\ m = 123 :: mid ++ [125].
Proof.
  split.
  - revert m; induction s as [|c s IH]; intros m; simpl; [discriminate|].
    change (ch "{") with 123.
    destruct (N.eqb_spec c 123) as [->|Hc].
    + destruct (Re.greedy_to_rbrace s) as [m'|] eqn:E; simpl.
      * intros H; injection H as <-.
        destruct (greedy_some _ _ E) as (mid & post & -> & -> & Hp).
        exists [], mid, post. simpl. rewrite <- app_assoc. simpl. auto.
      * intros H. destruct (IH _ H) as (pre & mid & post & -> & _).
        exfalso. apply (greedy_none _ E).
        apply in_or_app; right; right. apply in_or_app; right; left.
        reflexivity.
    + intros H. destruct (IH _ H) as (pre & mid & post & -> & Hpre & Hp & ->).
      exists (c :: pre), mid, post. simpl.
      repeat split; auto. intros [?|?]; [congruence | auto].
  - intros (pre & mid & post & -> & Hpre & Hp & ->).
    induction pre as [|c pre IH]; simpl.
    + change (ch "{") with 123. simpl. rewrite greedy_app by assumption.
      reflexivity.
    + change (ch "{") with 123.
      destruct (N.eqb_spec c 123) as [->|Hc].
      * exfalso; apply Hpre; left; reflexivity.
      * apply IH. intros H; apply Hpre; right; exact H.
Qed.

(** A text that begins with an opening brace and ends with a closing one
    is matched whole. *)
Lemma search_whole (mid : str) :
  Re.search (123 :: mid ++ [125]) = Some (123 :: mid ++ [125]).
Proof.
  apply search_spec. exists [], mid, []. simpl. auto.
Qed.

(** An opening brace with a closing brace somewhere after it is enough
    for a match. *)
Lemma search_found (pre mid post : str) :
  exists m, Re.search (pre ++ 123 :: mid ++ 125 :: post) = Some m.
Proof.
  induction pre as [|c pre [m IH]].
  - simpl. change (ch "{") with 123. simpl.
    destruct (Re.greedy_to_rbrace (mid ++ 125 :: post)) as [g|] eqn:E;
      simpl; eauto.
    exfalso. apply (greedy_none _ E).
    apply in_or_app; right; left; reflexivity.
  - simpl app. cbn [Re.search].
    destruct (Re.match_here (c :: pre ++ 123 :: mid ++ 125 :: post)); eauto.
Qed.

(** There is no match exactly when no opening brace has a closing brace
    after it. *)
Lemma search_none (s : str) :
  Re.search s = None <->
  ~ exists pre mid post, s = pre ++ 123 :: mid ++ 125 :: post.
Proof.
  split.
  - intros H (pre & mid & post & ->).
    destruct (search_found pre mid post) as [m Hm]. congruence.
  - intros H. destruct (Re.search s) as [m|] eqn:E; [|reflexivity].
    exfalso; apply H. apply search_spec in E.
    destruct E as (pre & mid & post & -> & _). eauto.
Qed.

End RegexFacts.

(** ** Validation of the decoded object *)

Section ValidationFacts.

Import Models.

Lemma mapM_validate_str (model : str) (l : list pyvalue) (ss : list str) :
  mapM (validate_str model) l = Ret ss <-> l = map PStr ss.
Proof.
  revert ss; induction l as [|v l IH]; intros ss; simpl.
  - split.
    + intros H; injection H as <-; reflexivity.
    + destruct ss; [reflexivity | discriminate].
  - destruct v; simpl; try (split; [discriminate | destruct ss; discriminate]).
    destruct (mapM (validate_str model) l) as [ss'|e] eqn:E; simpl.
    + split.
      * intros H; injection H as <-. simpl. f_equal. apply IH; reflexivity.
      * destruct ss as [|s0 ss]; [discriminate|]. simpl.
        intros H; injection H as -> H. apply IH in H. congruence.
    + split; [discriminate|]. destruct ss as [|s0 ss]; [discriminate|].
      simpl. intros H; injection H as -> H. apply IH in H. discriminate.
Qed.

Lemma validate_list_str_ok (model : str) (v : pyvalue) (ss : list str) :
  validate_list_str model v = Ret ss <-> v = PList (map PStr ss).
Proof.
  destruct v; simpl; try (split; discriminate).
  rewrite mapM_validate_str. split; congruence.
Qed.

Lemma validate_str_ok (model : str) (v : pyvalue) (s : str) :
  validate_str model v = Ret s <-> v = PStr s.
Proof. destruct v; simpl; split; congruence. Qed.

Lemma required_ok (model : str) (kw : list (str * pyvalue)) (k : str)
      (v : pyvalue) :
  required model kw k = Ret v <-> lookup k kw = Some v.
Proof.
  unfold required. destruct (lookup k kw); split; congruence.
Qed.

(** What a successful construction says about the keyword arguments. *)
Lemma new_ResearchFindings_inv (env : Env) (kw : list (str * pyvalue))
      (f : ResearchFindings) :
  new_ResearchFindings env kw = Ret f ->
  lookup (py "query") kw = Some (PStr (query f)) /\
  lookup (py "summary") kw = Some (PStr (summary f)) /\
  lookup (py "key_findings") kw = Some (PList (map PStr (key_findings f))) /\
  lookup (py "sources") kw = Some (PList (map PStr (sources f))) /\
  match lookup (py "timestamp") kw with
  | Some v => v = PStr (timestamp f)
  | None => timestamp f = now_isoformat env
  end.
Proof.
  unfold new_ResearchFindings.
  set (model := py "ResearchFindings").
  destruct (required model kw (py "query")) as [vq|] eqn:Rq;
    simpl; [|discriminate].
  destruct (validate_str model vq) as [q|] eqn:Vq; simpl; [|discriminate].
  destruct (required model kw (py "summary")) as [vs|] eqn:Rs;
    simpl; [|discriminate].
  destruct (validate_str model vs) as [s|] eqn:Vs; simpl; [|discriminate].
  destruct (required model kw (py "key_findings")) as [vk|] eqn:Rk;
    simpl; [|discriminate].
  destruct (validate_list_str model vk) as [kf|] eqn:Vk;
    simpl; [|discriminate].
  destruct (required model kw (py "sources")) as [vr|] eqn:Rr;
    simpl; [|discriminate].
  destruct (validate_list_str model vr) as [src|] eqn:Vr;
    simpl; [|discriminate].
  apply required_ok in Rq, Rs, Rk, Rr.
  apply validate_str_ok in Vq, Vs. apply validate_list_str_ok in Vk, Vr.
  subst vq vs vk vr.
  destruct (lookup (py "timestamp") kw) as [vt|] eqn:Lt.
  - destruct (validate_str model vt) as [t|] eqn:Vt; simpl; [|discriminate].
    apply validate_str_ok in Vt. intros H; injection H as <-. simpl. auto.
  - simpl. intros H; injection H as <-. simpl. auto.
Qed.

(** The converse: well-typed fields make the construction succeed. *)
Lemma new_ResearchFindings_ok (env : Env) (kw : list (str * pyvalue))
      (q s : str) (kf src : list str) :
  lookup (py "query") kw = Some (PStr q) ->
  lookup (py "summary") kw = Some (PStr s) ->
  lookup (py "key_findings") kw = Some (PList (map PStr kf)) ->
  lookup (py "sources") kw = Some (PList (map PStr src)) ->
  (forall v, lookup (py "timestamp") kw = Some v -> exists t, v = PStr t) ->
  new_ResearchFindings env kw =
    Ret {| query := q; summary := s; key_findings := kf; sources := src;
           timestamp := match lookup (py "timestamp") kw with
                        | Some (PStr t) => t
                        | _ => now_isoformat env
                        end |}.
Proof.
  intros Hq Hs Hk Hr Ht. unfold new_ResearchFindings.
  set (model := py "ResearchFindings").
  apply required_ok with (model := model) in Hq, Hs, Hk, Hr.
  rewrite Hq, Hs, Hk, Hr. simpl.
  assert (mapM (validate_str model) (map PStr kf) = Ret kf) as ->
    by (apply mapM_validate_str; reflexivity).
  assert (mapM (validate_str model) (map PStr src) = Ret src) as ->
    by (apply mapM_validate_str; reflexivity).
  simpl.
  destruct (lookup (py "timestamp") kw) as [vt|]; [|reflexivity].
  destruct (Ht vt eq_refl) as [t ->]. reflexivity.
Qed.

(** A region that begins with an opening brace decodes to a dict or not at
    all. *)
Lemma loads_region_is_dict (depth : nat) (rest : str) (v : pyvalue) :
  Json.loads depth (123%N :: rest) = Ret v -> exists o, v = PDict o.
Proof.
  unfold Json.loads.
  change (startswith [65279%N] (123%N :: rest)) with false.
  change (Json.skip_ws (123%N :: rest)) with (123%N :: rest).
  cbv beta iota.
  remember (2 * List.length (123%N :: rest))%nat as n eqn:En. clear En.
  simpl Json.scan_once.
  destruct depth as [|d]; [simpl; discriminate|].
  destruct (Json.skip_ws rest) as [|c1 s2]; [simpl; discriminate|].
  destruct (N.eqb c1 125).
  - simpl. destruct (Json.skip_ws s2); [|discriminate].
    intros H; injection H as <-. eauto.
  - destruct (Json.parse_members n d (c1 :: s2)) as [[items r]|]; simpl;
      [|discriminate].
    destruct (Json.skip_ws r); [|discriminate].
    intros H; injection H as <-. eauto.
Qed.

(** So the region the pattern matches always gives keyword arguments, or
    raises in the decoder. *)
Lemma matched_region_is_dict (depth : nat) (raw_text region : str)
      (v : pyvalue) :
  Re.search raw_text = Some region ->
  Json.loads depth region = Ret v -> exists o, v = PDict o.
Proof.
  intros H. apply search_spec in H as (pre & mid & post & _ & _ & _ & ->).
  apply loads_region_is_dict.
Qed.

End ValidationFacts.

(** ** Synthesis *)

Section SynthesisFacts.

Import Models Synth.

(** The three branches of the synthesis, in one equation. *)
Lemma synthesize_unfold (env : Env) (raw_text query : str) :
  synthesize env raw_text query =
  Ret match Re.search raw_text with
      | None => degraded_no_json env query raw_text
      | Some region =>
          match decode env region with
          | Ret f => f
          | Raise _ => degraded_on_fault env query raw_text
          end
      end.
Proof.
  unfold synthesize, extract.
  destruct (Re.search raw_text) as [region|]; [|reflexivity].
  destruct (decode env region); reflexivity.
Qed.

Lemma decode_inv (env : Env) (region : str) (f : ResearchFindings) :
  decode env region = Ret f ->
  exists o, Json.loads (recursion_budget env) region = Ret (PDict o) /\
            new_ResearchFindings env o = Ret f.
Proof.
  unfold decode.
  destruct (Json.loads (recursion_budget env) region) as [v|]; simpl;
    [|discriminate].
  destruct v; simpl; try discriminate. eauto.
Qed.

Lemma decode_ok (env : Env) (region : str) (o : list (str * pyvalue)) :
  Json.loads (recursion_budget env) region = Ret (PDict o) ->
  decode env region = new_ResearchFindings env o.
Proof. unfold decode. intros ->. reflexivity. Qed.

Lemma degraded_nonempty (env : Env) (query raw_text : str) :
  (key_findings (degraded_no_json env query raw_text) <> [] /\
   sources (degraded_no_json env query raw_text) <> []) /\
  (key_findings (degraded_on_fault env query raw_text) <> [] /\
   sources (degraded_on_fault env query raw_text) <> []).
Proof. simpl. repeat split; discriminate. Qed.

(** The clock is the only part of the environment the construction reads,
    and only for [timestamp]. *)
Lemma new_ResearchFindings_env (env1 env2 : Env) (kw : list (str * pyvalue)) :
  match new_ResearchFindings env1 kw, new_ResearchFindings env2 kw with
  | Ret f1, Ret f2 =>
      query f1 = query f2 /\ summary f1 = summary f2 /\
      key_findings f1 = key_findings f2 /\ sources f1 = sources f2
  | Raise _, Raise _ => True
  | _, _ => False
  end.
Proof.
  unfold new_ResearchFindings.
  set (model := py "ResearchFindings").
  destruct (bind (required model kw (py "query")) (validate_str model));
    simpl; [|exact I].
  destruct (bind (required model kw (py "summary")) (validate_str model));
    simpl; [|exact I].
  destruct (bind (required model kw (py "key_findings"))
                 (validate_list_str model)); simpl; [|exact I].
  destruct (bind (required model kw (py "sources"))
                 (validate_list_str model)); simpl; [|exact I].
  destruct (lookup (py "timestamp") kw) as [v|]; simpl.
  - destruct (validate_str model v); simpl; auto.
  - auto.
Qed.

Lemma decode_env (env1 env2 : Env) (region : str) :
  recursion_budget env1 = recursion_budget env2 ->
  match decode env1 region, decode env2 region with
  | Ret f1, Ret f2 =>
      query f1 = query f2 /\ summary f1 = summary f2 /\
      key_findings f1 = key_findings f2 /\ sources f1 = sources f2
  | Raise _, Raise _ => True
  | _, _ => False
  end.
Proof.
  intros Hb. unfold decode. rewrite Hb.
  destruct (Json.loads (recursion_budget env2) region) as [v|]; simpl;
    [|exact I].
  destruct v; simpl; try exact I. apply new_ResearchFindings_env.
Qed.

End SynthesisFacts.

Section SynthesisClaims.

Import Models Synth.

(** C1, as the code has it.  [synthesize] returns findings for every
    [raw_text] and [query] and lets no decoding or validation fault out.
    [key_findings] and [sources] are non-empty on the two degraded paths;
    on the structured path they are the lists of the decoded object,
    whatever their length. *)
Theorem synthesize_total (env : Env) (raw_text query : str) :
  exists f,
    synthesize env raw_text query = Ret f /\
    (shape_of env raw_text <> Structured ->
     key_findings f <> [] /\ sources f <> []) /\
    (shape_of env raw_text = Structured ->
     exists region o,
       Re.search raw_text = Some region /\
       Json.loads (recursion_budget env) region = Ret (PDict o) /\
       lookup (py "key_findings") o
         = Some (PList (map PStr (key_findings f))) /\
       lookup (py "sources") o = Some (PList (map PStr (sources f)))).
Proof.
  rewrite synthesize_unfold. unfold shape_of.
  destruct (degraded_nonempty env query raw_text) as [HA HB].
  destruct (Re.search raw_text) as [region|].
  - destruct (decode env region) as [f|e] eqn:D.
    + exists f. split; [reflexivity|]. split; [congruence|].
      intros _. destruct (decode_inv _ _ _ D) as (o & L & N).
      apply new_ResearchFindings_inv in N.
      exists region, o. tauto.
    + eexists. split; [reflexivity|]. split; [auto | discriminate].
  - eexists. split; [reflexivity|]. split; [auto | discriminate].
Qed.

(** C1, as the claim has it, fails: an object with empty lists comes back
    with empty [key_findings] and [sources]. *)
Lemma synthesize_empty_lists :
  exists f,
    synthesize Samples.offline
      (js "{'query': 'q', 'summary': 's', 'key_findings': [], 'sources': []}")
      (py "q") = Ret f /\
    key_findings f = [] /\ sources f = [].
Proof. eexists. split; [vm_compute; reflexivity|]. split; reflexivity. Qed.

(** C5, as the code has it.  The region runs from the first opening brace
    of the text to its last closing brace.  When it decodes to an object
    whose [query] and [summary] are strings and whose [key_findings] and
    [sources] are lists of strings, what comes back depends on the
    [timestamp] of the object.  Without one, the findings reproduce the
    four fields and carry the time of the clock.  With one that is a
    string, they reproduce the four fields and keep that string.  With one
    that is no string, validation raises and the findings are those of the
    fault path. *)
Theorem synthesize_roundtrip (env : Env) (pre mid post query : str)
        (o : list (str * pyvalue)) (q s : str) (kf src : list str) :
  ~ In (ch "{") pre ->
  ~ In (ch "}") post ->
  Json.loads (recursion_budget env) (ch "{" :: mid ++ [ch "}"])
    = Ret (PDict o) ->
  lookup (py "query") o = Some (PStr q) ->
  lookup (py "summary") o = Some (PStr s) ->
  lookup (py "key_findings") o = Some (PList (map PStr kf)) ->
  lookup (py "sources") o = Some (PList (map PStr src)) ->
  synthesize env (pre ++ ch "{" :: mid ++ ch "}" :: post) query =
    Ret match lookup (py "timestamp") o with
        | None =>
            {| query := q; summary := s; key_findings := kf;
               sources := src; timestamp := now_isoformat env |}
        | Some (PStr t) =>
            {| query := q; summary := s; key_findings := kf;
               sources := src; timestamp := t |}
        | Some _ =>
            degraded_on_fault env query
              (pre ++ ch "{" :: mid ++ ch "}" :: post)
        end.
Proof.
  intros Hpre Hpost Hl Hq Hs Hk Hr.
  change (ch "{") with 123%N in *. change (ch "}") with 125%N in *.
  assert (Re.search (pre ++ 123%N :: mid ++ 125%N :: post)
          = Some (123%N :: mid ++ [125%N])) as Hre.
  { apply search_spec. exists pre, mid, post. auto. }
  rewrite synthesize_unfold, Hre, (decode_ok _ _ _ Hl).
  assert (forall v, lookup (py "timestamp") o = Some v ->
                    (forall t, v <> PStr t) ->
                    exists e, new_ResearchFindings env o = Raise e) as Hbad.
  { intros v Ev Hv.
    destruct (new_ResearchFindings env o) as [f|e] eqn:E; [|eauto].
    apply new_ResearchFindings_inv in E.
    destruct E as (_ & _ & _ & _ & E). rewrite Ev in E.
    exfalso. apply (Hv _ E). }
  destruct (lookup (py "timestamp") o) as [v|] eqn:Et.
  - destruct v as [|b|z|f|t|l|d];
      try (destruct (Hbad _ eq_refl ltac:(discriminate)) as [e ->];
           reflexivity).
    rewrite (new_ResearchFindings_ok env o q s kf src Hq Hs Hk Hr).
    + rewrite Et. reflexivity.
    + intros v Ev. rewrite Et in Ev. injection Ev as <-. eauto.
  - rewrite (new_ResearchFindings_ok env o q s kf src Hq Hs Hk Hr).
    + rewrite Et. reflexivity.
    + intros v Ev. rewrite Et in Ev. discriminate.
Qed.

(** C5 at a text that is exactly one object, without [timestamp]. *)
Lemma synthesize_roundtrip_witness :
  synthesize Samples.offline
    (js "{'query': 'q', 'summary': 's', 'key_findings': ['a', 'b'], 'sources': ['c']}")
    (py "asked") =
    Ret {| query := py "q"; summary := py "s";
           key_findings := [py "a"; py "b"]; sources := [py "c"];
           timestamp := Samples.clock |}.
Proof.
  refine (synthesize_roundtrip Samples.offline []
            (js "'query': 'q', 'summary': 's', 'key_findings': ['a', 'b'], 'sources': ['c']")
            [] (py "asked")
            [(py "query", PStr (py "q")); (py "summary", PStr (py "s"));
             (py "key_findings", PList [PStr (py "a"); PStr (py "b")]);
             (py "sources", PList [PStr (py "c")])]
            (py "q") (py "s") [py "a"; py "b"] [py "c"]
            _ _ _ _ _ _ _).
  - intros [].
  - intros [].
  - vm_compute. reflexivity.
  - reflexivity.
  - reflexivity.
  - reflexivity.
  - reflexivity.
Defined.

(** C5, as the claim has it, fails: a [timestamp] in the object is kept,
    not generated afresh. *)
Lemma roundtrip_keeps_timestamp :
  exists f,
    synthesize Samples.offline
      (js "{'query': 'q', 'summary': 's', 'key_findings': ['a'], 'sources': ['b'], 'timestamp': 'yesterday'}")
      (py "asked") = Ret f /\
    query f = py "q" /\ summary f = py "s" /\
    key_findings f = [py "a"] /\ sources f = [py "b"] /\
    timestamp f = py "yesterday" /\
    str_eqb (timestamp f) (now_isoformat Samples.offline) = false.
Proof.
  eexists. split; [vm_compute; reflexivity|].
  repeat split; vm_compute; reflexivity.
Qed.

(** A [timestamp] that is no string: validation raises, and the findings
    are those of the fault path. *)
Example timestamp_must_be_text :
  synthesize Samples.offline
    (js "{'query': 'q', 'summary': 's', 'key_findings': ['a'], 'sources': ['b'], 'timestamp': 5}")
    (py "asked")
  = Ret (degraded_on_fault Samples.offline (py "asked")
           (js "{'query': 'q', 'summary': 's', 'key_findings': ['a'], 'sources': ['b'], 'timestamp': 5}")).
Proof. vm_compute. reflexivity. Qed.

End SynthesisClaims.

Section LadderClaims.

Import Models Synth.

(** C6, as the code has it.  There are two degraded shapes and both carry
    [raw_text] as [summary] and the caller's [query].  Without a region the
    findings are the three generic entries and the sources
    "Web search results" and "Content analysis"; with a region whose
    decoding or validation raises, the first two generic entries and the
    single source "Agent analysis".  Otherwise the decoded findings are
    returned as they are. *)
Theorem degradation_ladder (env : Env) (raw_text query : str) :
  (Re.search raw_text = None ->
   synthesize env raw_text query =
     Ret {| query := query; summary := raw_text;
            key_findings :=
              [py "Research completed using available tools";
               py "Multiple sources were consulted";
               py "Findings synthesized from web search and content analysis"];
            sources := [py "Web search results"; py "Content analysis"];
            timestamp := now_isoformat env |}) /\
  (forall region e,
     Re.search raw_text = Some region -> decode env region = Raise e ->
     synthesize env raw_text query =
       Ret {| query := query; summary := raw_text;
              key_findings :=
                [py "Research completed using available tools";
                 py "Multiple sources were consulted"];
              sources := [py "Agent analysis"];
              timestamp := now_isoformat env |}) /\
  (forall region f,
     Re.search raw_text = Some region -> decode env region = Ret f ->
     synthesize env raw_text query = Ret f).
Proof.
  rewrite synthesize_unfold. repeat split.
  - intros ->. reflexivity.
  - intros region e -> ->. reflexivity.
  - intros region f -> ->. reflexivity.
Qed.

(** C6, as the claim has it, fails on the letter: the single source of the
    second shape is "Agent analysis", not "agent analysis". *)
Lemma fault_source_is_capitalised :
  exists f,
    Re.search (py "{}") = Some (py "{}") /\
    decode Samples.offline (py "{}")
      = Raise (ValidationError (py "ResearchFindings")) /\
    synthesize Samples.offline (py "{}") (py "asked") = Ret f /\
    sources f = [py "Agent analysis"] /\
    str_eqb (py "Agent analysis") (py "agent analysis") = false.
Proof.
  eexists. repeat split; vm_compute; reflexivity.
Qed.

(** C9.  On the two degraded paths the findings carry the caller's
    [query]; on the structured path they carry the [query] of the decoded
    object; and there is a reply of the backend for which [research]
    returns findings whose [query] is not the one asked. *)
Theorem query_of_findings :
  (forall env raw_text query,
     shape_of env raw_text <> Structured ->
     exists f, synthesize env raw_text query = Ret f /\ Models.query f = query) /\
  (forall env raw_text query,
     shape_of env raw_text = Structured ->
     exists region o f,
       Re.search raw_text = Some region /\
       Json.loads (recursion_budget env) region = Ret (PDict o) /\
       synthesize env raw_text query = Ret f /\
       lookup (py "query") o = Some (PStr (Models.query f))) /\
  (exists raw_text query f,
     shape_of (Samples.replying raw_text) raw_text = Structured /\
     Agent.research (Samples.replying raw_text) query 5 = Ret f /\
     Models.query f <> query).
Proof.
  split; [|split].
  - intros env raw_text query. rewrite synthesize_unfold. unfold shape_of.
    destruct (Re.search raw_text) as [region|].
    + destruct (decode env region); [congruence|].
      intros _. eexists; split; reflexivity.
    + intros _. eexists; split; reflexivity.
  - intros env raw_text query. rewrite synthesize_unfold. unfold shape_of.
    destruct (Re.search raw_text) as [region|]; [|discriminate].
    destruct (decode env region) as [f|] eqn:D; [|discriminate].
    intros _. destruct (decode_inv _ _ _ D) as (o & L & N).
    apply new_ResearchFindings_inv in N.
    exists region, o, f. tauto.
  - exists
      (js "{'query': 'something else', 'summary': 's', 'key_findings': [], 'sources': []}"),
      (py "asked").
    eexists. split; [vm_compute; reflexivity|].
    split; [vm_compute; reflexivity|].
    vm_compute. discriminate.
Qed.

(** C10, as the code has it.  Two runs on the same [raw_text] and [query],
    in two environments that leave [json.loads] the same room for
    recursion and may differ in everything else (the clock among the
    rest), both return findings, and these agree on [query], [summary],
    [key_findings] and [sources]. *)
Theorem synthesize_deterministic (env1 env2 : Env) (raw_text query : str) :
  recursion_budget env1 = recursion_budget env2 ->
  exists f1 f2,
    synthesize env1 raw_text query = Ret f1 /\
    synthesize env2 raw_text query = Ret f2 /\
    Models.query f1 = Models.query f2 /\
    summary f1 = summary f2 /\
    key_findings f1 = key_findings f2 /\
    sources f1 = sources f2.
Proof.
  intros Hb. rewrite !synthesize_unfold.
  destruct (Re.search raw_text) as [region|].
  - pose proof (decode_env env1 env2 region Hb) as H.
    destruct (decode env1 region), (decode env2 region);
      try contradiction; do 2 eexists;
      (split; [reflexivity|]); (split; [reflexivity|]); simpl; tauto.
  - do 2 eexists. repeat split.
Qed.

(** C10 at two environments with different clocks. *)
Lemma synthesize_deterministic_witness :
  exists f1 f2,
    synthesize Samples.offline
      (js "{'query': 'q', 'summary': 's', 'key_findings': ['a'], 'sources': ['b']}")
      (py "asked") = Ret f1 /\
    synthesize Samples.later
      (js "{'query': 'q', 'summary': 's', 'key_findings': ['a'], 'sources': ['b']}")
      (py "asked") = Ret f2 /\
    Models.query f1 = Models.query f2 /\
    summary f1 = summary f2 /\
    key_findings f1 = key_findings f2 /\
    sources f1 = sources f2.
Proof.
  exact (synthesize_deterministic Samples.offline Samples.later _ _ eq_refl).
Defined.

(** C10, as the claim has it, fails: the same reply and the same query
    give different findings in two runs that are reached at different
    depths of the call stack, when the object within the list within the
    reply is one level too deep for one of them.  That run ends on the
    fault path, the other returns the decoded object. *)
Lemma synthesize_depends_on_depth :
  exists f1 f2,
    synthesize Samples.offline
      (js "{'query': 'q', 'summary': 's', 'key_findings': ['a'], 'sources': ['b']}")
      (py "asked") = Ret f1 /\
    synthesize Samples.shallow
      (js "{'query': 'q', 'summary': 's', 'key_findings': ['a'], 'sources': ['b']}")
      (py "asked") = Ret f2 /\
    Models.query f1 = py "q" /\ Models.query f2 = py "asked" /\
    summary f1 = py "s" /\
    summary f2
      = js "{'query': 'q', 'summary': 's', 'key_findings': ['a'], 'sources': ['b']}" /\
    key_findings f1 = [py "a"] /\
    key_findings f2 = [py "Research completed using available tools";
                       py "Multiple sources were consulted"] /\
    sources f1 = [py "b"] /\ sources f2 = [py "Agent analysis"].
Proof.
  do 2 eexists. split; [vm_compute; reflexivity|].
  split; [vm_compute; reflexivity|]. repeat split.
Qed.

End LadderClaims.

(** ** The research call *)

Section ResearchClaims.

Import Models.


End ResearchClaims.

(** ** Retrieval: the two providers *)

Section ProviderFacts.

Import Models Context7.

(** The primary provider never raises.  Unconfigured, it answers the empty
    list and sends nothing; configured, it sends one POST. *)
Lemma search_cases (env : Env) (query : str) (max_results : Z) :
  (unconfigured env = true /\
   search env query max_results = (Ret (PList []), [])) \/
  (unconfigured env = false /\
   exists p, search env query max_results
             = (Ret p, [Post (base_url ++ py "/search")])).
Proof.
  unfold search. destruct (unconfigured env); [left; auto|right].
  split; [reflexivity|]. unfold post, mtry, mbind, mret, lift.
  destruct (http_post env _ _) as [response|e]; [|eauto].
  destruct (status_code response =? 200)%Z; [|eauto].
  destruct (json response) as [data|e]; [|eauto].
  destruct (get data (py "results") (PList [])); eauto.
Qed.


Lemma scrape_result_scraped (result : Html.node) :
  Forall scraped (scrape_result result).
Proof.
  unfold scrape_result.
  destruct (Html.find (py "a") (py "result__a") result); constructor;
    [|constructor].
  unfold scraped. eauto.
Qed.

(** The secondary provider never raises, and sends one GET. *)
Lemma fallback_search_cases (env : Env) (query : str) (max_results : Z) :
  exists l,
    fallback_search env query max_results
      = (Ret (PList l), [Get duckduckgo]) /\
    Forall scraped l.
Proof.
  unfold fallback_search, get_url, mtry, mbind, mret, lift.
  destruct (http_get env duckduckgo _) as [response|e]; [|eauto].
  destruct (html_parser env (text response)) as [soup|e]; [|eauto].
  eexists. split; [reflexivity|].
  generalize (slice_to max_results
                (Html.find_all (py "div") (py "result") soup)).
  intros l; induction l as [|r l IH]; simpl; [constructor|].
  apply Forall_app. split; [apply scrape_result_scraped | exact IH].
Qed.



(** The primary fetch never raises. *)
Lemma fetch_content_cases (env : Env) (url : str) :
  (unconfigured env = true /\
   fetch_content env url = (Ret (PStr (placeholder url)), [])) \/
  (unconfigured env = false /\
   exists c, fetch_content env url
             = (Ret c, [Post (base_url ++ py "/fetch")])).
Proof.
  unfold fetch_content. destruct (unconfigured env); [left; auto|right].
  split; [reflexivity|]. unfold post, mtry, mbind, mret, lift.
  destruct (http_post env _ _) as [response|e]; [|eauto].
  destruct (status_code response =? 200)%Z; [|eauto].
  destruct (json response) as [data|e]; [|eauto].
  destruct (get data (py "content") (PStr [])); eauto.
Qed.

(** The secondary fetch never raises, and sends one GET. *)
Lemma fallback_fetch_cases (env : Env) (url : str) :
  exists s, fallback_fetch env url = (Ret s, [Get url]) /\
    match http_get env url [] with
    | Raise e => s = error_fetching env url e
    | Ret response =>
        match html_parser env (text response) with
        | Raise e => s = error_fetching env url e
        | Ret soup => s = page_text soup
        end
    end.
Proof.
  unfold fallback_fetch, get_url, mtry, mbind, mret, lift.
  destruct (http_get env url []) as [response|e]; [|eauto].
  destruct (html_parser env (text response)) as [soup|e]; eauto.
Qed.

End ProviderFacts.

Section RetrievalClaims.

Import Models Context7 Agent.


(** C3.  The secondary provider is asked exactly when the primary is
    unconfigured or returned an empty sequence.  Unconfigured, the primary
    returns the empty list without sending anything; and for every list
    it returns, the secondary is asked exactly when the list is empty, so
    after a non-empty sequence it is never asked.  The test the code makes
    is the truth value of what the primary returned, which for a list is
    its being non-empty. *)
Theorem fallback_iff_falsy (env : Env) (query : str) (max_results : Z) :
  exists p,
    fst (search env query max_results) = Ret p /\
    (In (Get duckduckgo) (snd (search_web env query max_results))
     <-> truthy p = false) /\
    (unconfigured env = true ->
     p = PList [] /\ snd (search env query max_results) = [] /\
     In (Get duckduckgo) (snd (search_web env query max_results))) /\
    (forall x l,
       p = PList (x :: l) ->
       ~ In (Get duckduckgo) (snd (search_web env query max_results))) /\
    (forall l,
       p = PList l ->
       (In (Get duckduckgo) (snd (search_web env query max_results))
        <-> unconfigured env = true \/ l = [])).
Proof.
  assert (exists p t1,
            search env query max_results = (Ret p, t1) /\
            ~ In (Get duckduckgo) t1 /\
            (unconfigured env = true -> p = PList [] /\ t1 = []))
    as (p & t1 & E1 & Ht1 & Hu).
  { destruct (search_cases env query max_results) as [[U H]|[U [p H]]];
      rewrite H; do 2 eexists; (split; [reflexivity|]); split.
    - simpl; tauto.
    - auto.
    - simpl. intros [H'|[]]; discriminate.
    - congruence. }
  assert (In (Get duckduckgo) (snd (search_web env query max_results))
          <-> truthy p = false) as Hiff.
  { unfold search_web. rewrite E1. unfold mbind at 1.
    destruct (truthy p) eqn:Tp; simpl negb; cbv iota.
    - unfold mret at 1. unfold mbind, lift, mtry, mret.
      destruct (iterate p) as [items|e]; simpl.
      + destruct (mapM (to_SearchResult env) items); simpl;
          rewrite ?app_nil_r; split; [tauto|discriminate|tauto|discriminate].
      + rewrite ?app_nil_r. split; [tauto|discriminate].
    - destruct (fallback_search_cases env query max_results)
        as (l & -> & Hl).
      split; [reflexivity|intros _].
      unfold mbind, lift, mtry, mret. simpl iterate. cbv iota beta.
      destruct (mapM (to_SearchResult env) l); simpl; rewrite ?app_nil_r;
        apply in_or_app; right; simpl; auto. }
  exists p. rewrite E1. simpl fst. simpl snd.
  split; [reflexivity|]. split; [exact Hiff|]. split; [|split].
  - intros U. destruct (Hu U) as [-> ->].
    repeat split. apply Hiff. reflexivity.
  - intros x l -> H. apply Hiff in H. discriminate.
  - intros l ->. rewrite Hiff. split.
    + destruct l; [auto|discriminate].
    + intros [U| ->]; [|reflexivity].
      destruct (Hu U) as [E _]. injection E as ->. reflexivity.
Qed.

(** A payload outside the contract of the primary, which is to return a
    list: a configured primary that answers [{"results": null}] hands
    [None] on, and the secondary is asked as after an empty list. *)
Lemma falsy_payload_asks_secondary :
  let env := Samples.answering (PDict [(py "results", PNone)]) in
  unconfigured env = false /\
  search env (py "xyz") 5 = (Ret PNone, [Post (base_url ++ py "/search")]) /\
  snd (search_web env (py "xyz") 5)
    = [Post (base_url ++ py "/search"); Get duckduckgo].
Proof. repeat split; vm_compute; reflexivity. Qed.

(** C4, as the code has it.  [fetch_webpage_content] never raises.  When
    the primary's content is falsy or holds the placeholder, the result is
    the text of the secondary, which may be empty; when the content is
    truthy and does not hold the placeholder, it is returned as it is; when
    the test for the placeholder raises, the result is an error text.  A
    fault of either provider's request becomes the text
    "Error fetching <url>: <fault>", and a status other than 200 from the
    primary the text "Failed to fetch <url>". *)
Theorem fetch_never_raises (env : Env) (url : str) :
  exists v,
    fst (fetch_webpage_content env url) = Ret v /\
    (forall c,
       fst (fetch_content env url) = Ret c ->
       truthy c = false \/ str_in key_required c = Ret true ->
       exists s, fst (fallback_fetch env url) = Ret s /\ v = PStr s) /\
    (forall c,
       fst (fetch_content env url) = Ret c ->
       truthy c = true -> str_in key_required c = Ret false -> v = c) /\
    (forall c e,
       fst (fetch_content env url) = Ret c ->
       truthy c = true -> str_in key_required c = Raise e ->
       v = PStr (error_fetching env url e)) /\
    (forall e,
       unconfigured env = false ->
       http_post env (base_url ++ py "/fetch") (PDict [(py "url", PStr url)])
         = Raise e ->
       fst (fetch_content env url) = Ret (PStr (error_fetching env url e))) /\
    (forall response,
       unconfigured env = false ->
       http_post env (base_url ++ py "/fetch") (PDict [(py "url", PStr url)])
         = Ret response ->
       (status_code response =? 200)%Z = false ->
       fst (fetch_content env url) = Ret (PStr (py "Failed to fetch " ++ url))) /\
    (forall e,
       http_get env url [] = Raise e ->
       fst (fallback_fetch env url) = Ret (error_fetching env url e)) /\
    (forall e,
       error_fetching env url e
       = py "Error fetching " ++ url ++ py ": " ++ exn_str env e).
Proof.
  assert (exists c t, fetch_content env url = (Ret c, t)) as (c & t & Ec).
  { destruct (fetch_content_cases env url) as [[_ H]|[_ [c H]]]; eauto. }
  destruct (fallback_fetch_cases env url) as (s & Es & Hs).
  assert (exists v,
            fst (fetch_webpage_content env url) = Ret v /\
            (truthy c = false \/ str_in key_required c = Ret true ->
             v = PStr s) /\
            (truthy c = true -> str_in key_required c = Ret false -> v = c) /\
            (forall e, truthy c = true -> str_in key_required c = Raise e ->
                       v = PStr (error_fetching env url e)))
    as (v & Hv & Ha & Hb & Hc).
  { unfold fetch_webpage_content. rewrite Ec, Es.
    unfold mbind, mtry, mret, lift.
    destruct (truthy c); simpl negb; cbv iota beta.
    - destruct (str_in key_required c) as [[|]|e]; simpl;
        eexists; (split; [reflexivity|]);
        repeat split; try congruence; try tauto;
        intros [H|H]; discriminate.
    - simpl. eexists. split; [reflexivity|].
      repeat split; try congruence; try tauto. }
  exists v. rewrite Ec, Es. simpl fst.
  split; [exact Hv|]. split; [|split; [|split; [|split; [|split; [|split]]]]].
  - intros c' H Hor. injection H as <-. eauto.
  - intros c' H. injection H as <-. exact Hb.
  - intros c' e H. injection H as <-. apply Hc.
  - intros e U H. unfold fetch_content in Ec. rewrite U in Ec.
    unfold post, mtry, mbind, mret in Ec. rewrite H in Ec.
    injection Ec as <- _. reflexivity.
  - intros response U H St. unfold fetch_content in Ec. rewrite U in Ec.
    unfold post, mtry, mbind, mret in Ec. rewrite H, St in Ec.
    injection Ec as <- _. reflexivity.
  - intros e H. rewrite H in Hs. congruence.
  - reflexivity.
Qed.

(** C4, as the claim has it, fails: without a credential and with a page
    that holds no text, the result is the empty string. *)
Lemma fetch_empty_page :
  fetch_webpage_content (Samples.serving []) (py "https://example.org/")
  = (Ret (PStr []), [Get (py "https://example.org/")]).
Proof. vm_compute. reflexivity. Qed.

End RetrievalClaims.

(** ** The clean-up of whitespace *)

Section WhitespaceFacts.

Local Open Scope N_scope.

Lemma soft_isspace (c : N) : soft c = true -> isspace c = true.
Proof.
  unfold soft, islinebreak, isspace.
  repeat rewrite ?orb_true_iff, ?andb_true_iff, ?N.eqb_eq, ?N.leb_le.
  lia.
Qed.

Lemma soft_not_break (c : N) :
  islinebreak c = false -> soft c = (c =? 32).
Proof. unfold soft. intros ->. apply orb_false_r. Qed.

Lemma lstrip_head (s : str) (c : N) (t : str) :
  lstrip s = c :: t -> isspace c = false.
Proof.
  induction s as [|x s IH]; simpl; [discriminate|].
  destruct (isspace x) eqn:E; [exact IH|].
  intros H; injection H as <- _. exact E.
Qed.

Lemma lstrip_suffix (s : str) : exists a, s = a ++ lstrip s.
Proof.
  induction s as [|x s [a IH]]; simpl.
  - exists []. reflexivity.
  - destruct (isspace x).
    + exists (x :: a). simpl. congruence.
    + exists []. reflexivity.
Qed.

Lemma strip_infix (s : str) : exists a b, s = a ++ strip s ++ b.
Proof.
  unfold strip.
  destruct (lstrip_suffix s) as [a Ha].
  destruct (lstrip_suffix (rev (lstrip s))) as [b Hb].
  exists a, (rev b).
  rewrite <- rev_app_distr, <- Hb, rev_involutive. exact Ha.
Qed.

Lemma starts_hard_app (a b : str) :
  a <> [] -> starts_hard (a ++ b) = starts_hard a.
Proof. destruct a; [congruence | reflexivity]. Qed.

Lemma ends_hard_app (a b : str) :
  b <> [] -> ends_hard (a ++ b) = ends_hard b.
Proof.
  intros H. unfold ends_hard. rewrite rev_app_distr.
  apply starts_hard_app. intros E. apply H.
  rewrite <- (rev_involutive b), E. reflexivity.
Qed.

Lemma lstrip_starts_hard (s : str) :
  lstrip s <> [] -> starts_hard (lstrip s) = true.
Proof.
  destruct (lstrip s) as [|c t] eqn:E; [congruence|]. intros _.
  simpl. rewrite (lstrip_head _ _ _ E). reflexivity.
Qed.

(** A stripped text that is not empty begins and ends with a character
    that is no whitespace. *)
Lemma strip_hard (s : str) :
  strip s <> [] -> starts_hard (strip s) = true /\ ends_hard (strip s) = true.
Proof.
  unfold strip. set (L := lstrip s). set (X := lstrip (rev L)).
  intros HX.
  assert (X <> []) as HX'.
  { intros E. apply HX. rewrite E. reflexivity. }
  split.
  - change (starts_hard (rev X)) with (ends_hard X).
    destruct (lstrip_suffix (rev L)) as [a Ha]. fold X in Ha.
    rewrite <- (ends_hard_app a X HX'), <- Ha.
    unfold ends_hard. rewrite rev_involutive.
    apply lstrip_starts_hard. intros E. apply HX'.
    unfold X, L. rewrite E. reflexivity.
  - unfold ends_hard. rewrite rev_involutive.
    apply lstrip_starts_hard. exact HX'.
Qed.

Lemma no_adjacent_cons (r : N -> N -> bool) (a b : N) (s : str) :
  no_adjacent r (a :: b :: s) = negb (r a b) && no_adjacent r (b :: s).
Proof. reflexivity. Qed.

Lemma no_adjacent_tail (r : N -> N -> bool) (a : N) (s : str) :
  no_adjacent r (a :: s) = true -> no_adjacent r s = true.
Proof.
  simpl. destruct s; [reflexivity|].
  rewrite andb_true_iff. tauto.
Qed.

Lemma no_adjacent_infix (r : N -> N -> bool) (a m b : str) :
  no_adjacent r (a ++ m ++ b) = true -> no_adjacent r m = true.
Proof.
  induction a as [|x a IH]; simpl app.
  - induction m as [|x m IH]; [reflexivity|].
    simpl app. intros H. pose proof (no_adjacent_tail _ _ _ H) as H'.
    specialize (IH H'). destruct m as [|y m]; [reflexivity|].
    simpl in H |- *. rewrite andb_true_iff in H |- *.
    split; [tauto | exact IH].
  - intros H. apply IH. exact (no_adjacent_tail _ _ _ H).
Qed.

(** Two texts glued together: the seam is the only new pair. *)
Lemma no_adjacent_app (r : N -> N -> bool) (a : str) (c : N) (t : str) :
  no_adjacent r a = true ->
  no_adjacent r (c :: t) = true ->
  match rev a with x :: _ => r x c = false | [] => True end ->
  no_adjacent r (a ++ c :: t) = true.
Proof.
  intros Ha Ht. induction a as [|x a IH]; intros Hseam; [exact Ht|].
  destruct a as [|y a].
  - simpl in Hseam. change (([x] ++ c :: t)) with (x :: c :: t).
    change (no_adjacent r (x :: c :: t))
      with (negb (r x c) && no_adjacent r (c :: t)).
    rewrite Hseam, Ht. reflexivity.
  - change (no_adjacent r ((x :: y :: a) ++ c :: t))
      with (negb (r x y) && no_adjacent r ((y :: a) ++ c :: t)).
    change (no_adjacent r (x :: y :: a))
      with (negb (r x y) && no_adjacent r (y :: a)) in Ha.
    apply andb_true_iff in Ha as [Hxy Ha].
    rewrite Hxy, IH; auto.
    simpl rev in Hseam |- *.
    destruct (rev a ++ [y]) eqn:E; [destruct (rev a); discriminate|].
    exact Hseam.
Qed.

Lemma soft_runs_of_double_space (s : str) :
  Forall (fun c => islinebreak c = false) s ->
  no_adjacent double_space s = true ->
  soft_runs_collapsed s = true.
Proof.
  unfold soft_runs_collapsed.
  induction 1 as [|a s Ha Hs IH]; [reflexivity|].
  intros H. specialize (IH (no_adjacent_tail _ _ _ H)).
  destruct Hs as [|b s Hb Hs]; [reflexivity|].
  rewrite no_adjacent_cons in H |- *. apply andb_true_iff in H as [H _].
  rewrite (soft_not_break a Ha), (soft_not_break b Hb).
  unfold double_space in H. rewrite H. exact IH.
Qed.

End WhitespaceFacts.

Section CleanUpFacts.

Local Open Scope N_scope.

Import Context7.

Lemma Forall_strip (P : N -> Prop) (s : str) :
  Forall P s -> Forall P (strip s).
Proof.
  destruct (strip_infix s) as (a & b & E). intros H. rewrite E in H.
  apply Forall_app in H as [_ H]. apply Forall_app in H as [H _]. exact H.
Qed.

Lemma no_adjacent_strip (r : N -> N -> bool) (s : str) :
  no_adjacent r s = true -> no_adjacent r (strip s) = true.
Proof.
  destruct (strip_infix s) as (a & b & E). intros H. rewrite E in H.
  exact (no_adjacent_infix _ _ _ _ H).
Qed.

Lemma no_adjacent_snoc (r : N -> N -> bool) (cur : str) (c : N) :
  no_adjacent r (rev cur) = true ->
  match cur with x :: _ => r x c = false | [] => True end ->
  no_adjacent r (rev (c :: cur)) = true.
Proof.
  intros H Hseam. simpl rev. apply no_adjacent_app; [exact H|reflexivity|].
  rewrite rev_involutive. exact Hseam.
Qed.

(** No piece of [split("  ")] holds two spaces side by side. *)
Lemma split2sp_from_pieces (n : nat) :
  forall (s cur : str),
    (List.length s <= n)%nat ->
    no_adjacent double_space (rev cur) = true ->
    match cur, s with
    | x :: _, c :: _ => double_space x c = false
    | _, _ => True
    end ->
    Forall (fun p => no_adjacent double_space p = true) (split2sp_from cur s).
Proof.
  induction n as [|n IH]; intros s cur Hn Hcur Hseam.
  - destruct s; [|simpl in Hn; lia]. simpl. auto.
  - destruct s as [|c [|d s'']].
    + simpl. auto.
    + simpl. constructor; [|constructor].
      apply (no_adjacent_snoc _ cur c Hcur).
      destruct cur; [exact I | exact Hseam].
    + change (split2sp_from cur (c :: d :: s''))
        with (if (c =? 32) && (d =? 32)
              then rev cur :: split2sp_from [] s''
              else split2sp_from (c :: cur) (d :: s'')).
      simpl in Hn.
      destruct ((c =? 32) && (d =? 32)) eqn:E.
      * constructor; [exact Hcur|].
        apply IH; [lia | reflexivity | exact I].
      * apply IH; [simpl; lia | | exact E].
        apply (no_adjacent_snoc _ cur c Hcur).
        destruct cur; [exact I | exact Hseam].
Qed.

Lemma split2sp_from_Forall (P : N -> Prop) (n : nat) :
  forall (s cur : str),
    (List.length s <= n)%nat -> Forall P cur -> Forall P s ->
    Forall (Forall P) (split2sp_from cur s).
Proof.
  induction n as [|n IH]; intros s cur Hn Hcur Hs.
  - destruct s; [|simpl in Hn; lia]. simpl. constructor; [|constructor].
    apply Forall_rev. exact Hcur.
  - destruct s as [|c [|d s'']].
    + simpl. constructor; [|constructor]. apply Forall_rev. exact Hcur.
    + simpl. constructor; [|constructor].
      apply Forall_app. split; [apply Forall_rev; exact Hcur|].
      exact Hs.
    + change (split2sp_from cur (c :: d :: s''))
        with (if (c =? 32) && (d =? 32)
              then rev cur :: split2sp_from [] s''
              else split2sp_from (c :: cur) (d :: s'')).
      simpl in Hn. inversion Hs as [|? ? Hc Hs']; subst.
      inversion Hs' as [|? ? Hd Hs'']; subst.
      destruct ((c =? 32) && (d =? 32)).
      * constructor; [apply Forall_rev; exact Hcur|].
        apply IH; [lia | constructor | exact Hs''].
      * apply IH; [simpl; lia | constructor; assumption | exact Hs'].
Qed.

(** No line of [splitlines] holds a line boundary. *)
Lemma splitlines_from_lines (n : nat) :
  forall (s cur : str),
    (List.length s <= n)%nat ->
    Forall (fun c => islinebreak c = false) cur ->
    Forall (Forall (fun c => islinebreak c = false)) (splitlines_from cur s).
Proof.
  induction n as [|n IH]; intros s cur Hn Hcur.
  - destruct s; [|simpl in Hn; lia]. simpl.
    destruct cur as [|x cur']; constructor; [|constructor].
    apply Forall_rev with (l := x :: cur'). exact Hcur.
  - destruct s as [|c s'].
    + simpl. destruct cur as [|x cur']; constructor; [|constructor].
      apply Forall_rev with (l := x :: cur'). exact Hcur.
    + simpl in Hn. simpl splitlines_from.
      destruct (islinebreak c) eqn:E.
      * destruct s' as [|d s''].
        -- constructor; [apply Forall_rev; exact Hcur | constructor].
        -- simpl in Hn.
           destruct ((c =? 13) && (d =? 10));
             (constructor; [apply Forall_rev; exact Hcur|]);
             apply IH; simpl; try lia; constructor.
      * apply IH; [lia|]. constructor; assumption.
Qed.

(** Every chunk that reaches the [join] is a good one. *)
Lemma chunks_good (text : str) :
  Forall good_chunk
    (filter (fun chunk => negb (str_eqb chunk []))
       (flat_map (fun line => map strip (split2sp line))
          (map strip (splitlines text)))).
Proof.
  apply Forall_forall. intros chunk Hin.
  apply filter_In in Hin as [Hin Hne].
  apply in_flat_map in Hin as (line & Hline & Hin).
  apply in_map_iff in Hin as (piece & <- & Hpiece).
  apply in_map_iff in Hline as (l0 & <- & Hl0).
  assert (strip piece <> []) as Hne'.
  { intros E. rewrite E in Hne. discriminate. }
  pose proof (splitlines_from_lines _ text [] (le_n _) (Forall_nil _)) as HL.
  rewrite Forall_forall in HL. specialize (HL _ Hl0).
  apply Forall_strip in HL.
  pose proof (split2sp_from_Forall _ _ (strip l0) [] (le_n _)
                (Forall_nil _) HL) as HP.
  rewrite Forall_forall in HP. specialize (HP _ Hpiece).
  pose proof (split2sp_from_pieces _ (strip l0) [] (le_n _) eq_refl I) as HD.
  rewrite Forall_forall in HD. specialize (HD _ Hpiece).
  destruct (strip_hard piece Hne') as [Hs He].
  repeat split; [exact Hs | exact He |].
  apply soft_runs_of_double_space.
  - apply Forall_strip. exact HP.
  - apply no_adjacent_strip. exact HD.
Qed.

Lemma join_cons (sep p q : str) (rest : list str) :
  join sep (p :: q :: rest) = p ++ sep ++ join sep (q :: rest).
Proof. reflexivity. Qed.

Lemma hard_not_soft (s : str) :
  starts_hard s = true -> exists c t, s = c :: t /\ soft c = false.
Proof.
  destruct s as [|c t]; simpl; [discriminate|]. intros H.
  exists c, t. split; [reflexivity|].
  destruct (soft c) eqn:E; [|reflexivity].
  rewrite (soft_isspace c E) in H. discriminate.
Qed.

(** Good chunks joined by newlines hold no run of spaces and line
    boundaries. *)
Lemma join_good (chunks : list str) :
  Forall good_chunk chunks ->
  soft_runs_collapsed (join [10] chunks) = true /\
  (chunks <> [] -> starts_hard (join [10] chunks) = true).
Proof.
  induction 1 as [|p rest (Hs & He & Hp) Hrest IH]; [split; [reflexivity|congruence]|].
  destruct rest as [|q rest].
  - simpl. auto.
  - rewrite join_cons. destruct IH as [IHc IHs].
    specialize (IHs ltac:(discriminate)).
    destruct (hard_not_soft _ IHs) as (j & J & EJ & Hj).
    destruct (hard_not_soft _ Hs) as (p0 & p' & Ep & _).
    split.
    + unfold soft_runs_collapsed in *. rewrite EJ in IHc |- *.
      change (p ++ [10%N] ++ j :: J) with (p ++ 10%N :: j :: J).
      apply no_adjacent_app; [exact Hp | |].
      * rewrite no_adjacent_cons, Hj, IHc.
        rewrite andb_false_r. reflexivity.
      * unfold ends_hard in He.
        destruct (hard_not_soft _ He) as (x & t & -> & Hx).
        rewrite Hx. reflexivity.
    + intros _. rewrite Ep. simpl. rewrite Ep in Hs. exact Hs.
Qed.

(** The cleaned text holds no run of spaces and line boundaries. *)
Lemma clean_whitespace_collapsed (text : str) :
  soft_runs_collapsed (clean_whitespace text) = true.
Proof.
  unfold clean_whitespace. apply join_good. apply chunks_good.
Qed.

Lemma limit_length_spec (text : str) :
  ((5000 < List.length text)%nat ->
   limit_length text = firstn 5000 text ++ py "...") /\
  ((List.length text <= 5000)%nat -> limit_length text = text).
Proof.
  unfold limit_length.
  destruct (Nat.ltb_spec 5000 (List.length text)); split; intros; auto; lia.
Qed.

End CleanUpFacts.

(** ** The removal of script and style elements *)

Section DecomposeFacts.

Import Html.

Lemma node_ind_forest (P : node -> Prop) :
  (forall s, P (Text s)) ->
  (forall s, P (Special s)) ->
  (forall name attrs children,
     Forall P children -> P (Element name attrs children)) ->
  forall n, P n.
Proof.
  intros HT HS HE. fix IH 1. intros [s|s|name attrs children].
  - apply HT.
  - apply HS.
  - apply HE. induction children as [|c children IHc].
    + constructor.
    + constructor; [apply IH | exact IHc].
Qed.

Lemma forest_clean (l : list node) :
  Forall (fun n => existsb is_script_element
                     (all_nodes (decompose_node n)) = false) l ->
  existsb is_script_element (all_nodes (flat_map decompose_node l)) = false.
Proof.
  unfold all_nodes.
  induction 1 as [|n l Hn _ IH]; [reflexivity|].
  simpl flat_map. rewrite flat_map_app, existsb_app, Hn, IH. reflexivity.
Qed.

Lemma decompose_node_clean (n : node) :
  existsb is_script_element (all_nodes (decompose_node n)) = false.
Proof.
  induction n as [s|s|name attrs children IH] using node_ind_forest;
    try reflexivity.
  simpl decompose_node.
  destruct (is_script_or_style name) eqn:E; [reflexivity|].
  apply forest_clean in IH.
  unfold all_nodes in *. simpl. rewrite E, app_nil_r. exact IH.
Qed.

(** After the loop no [script] or [style] element is left in the tree. *)
Lemma decompose_scripts_clean (soup : list node) :
  has_script_or_style (decompose_scripts soup) = false.
Proof.
  unfold has_script_or_style, decompose_scripts. apply forest_clean.
  apply Forall_forall. intros n _. apply decompose_node_clean.
Qed.

End DecomposeFacts.

(** ** The decoder has fuel enough *)

Section DecoderFacts.

Import Json.
Local Open Scope nat_scope.

Lemma bind_Ret {A B} (m : outcome A) (k : A -> outcome B) (b : B) :
  bind m k = Ret b -> exists a, m = Ret a /\ k a = Ret b.
Proof. destruct m; simpl; [eauto | discriminate]. Qed.

Lemma skip_ws_length (s : str) : List.length (skip_ws s) <= List.length s.
Proof.
  induction s as [|c s IH]; simpl; [lia|].
  destruct (is_ws c); simpl; lia.
Qed.

Lemma scanstring_from_shorter (n : nat) :
  forall s acc v r,
    List.length s <= n -> scanstring_from acc s = Some (v, r) ->
    List.length r < List.length s.
Proof.
  induction n as [|n IH]; intros s acc v r Hn H.
  - destruct s; [discriminate | simpl in Hn; lia].
  - destruct s as [|c s1]; [discriminate|]. simpl in Hn, H.
    repeat match type of H with
           | context [if ?b then _ else _] => destruct b
           | context [match ?x with _ => _ end] => destruct x
           end;
      try discriminate;
      try (injection H as <- <-; simpl; lia);
      apply IH in H; simpl in *; lia.
Qed.

Lemma scanstring_shorter (s v r : str) :
  scanstring s = Some (v, r) -> List.length r < List.length s.
Proof. apply (scanstring_from_shorter _ s [] v r (le_n _)). Qed.

Lemma span_digits_length (s d r : str) :
  span_digits s = (d, r) -> List.length r <= List.length s.
Proof.
  revert d r; induction s as [|c s IH]; simpl; intros d r H.
  - injection H as <- <-. simpl; lia.
  - destruct (is_digit c).
    + destruct (span_digits s) as [d' r'].
      injection H as <- <-. specialize (IH _ _ eq_refl). lia.
    + injection H as <- <-. simpl; lia.
Qed.

Lemma match_int_part_shorter (s ip r : str) :
  match_int_part s = Some (ip, r) -> List.length r < List.length s.
Proof.
  unfold match_int_part. destruct s as [|c s]; [discriminate|].
  destruct (N.eqb c 48).
  - intros H; injection H as <- <-. simpl; lia.
  - destruct (is_digit c); [|discriminate].
    destruct (span_digits s) as [d r'] eqn:E.
    intros H; injection H as <- <-.
    apply span_digits_length in E. simpl; lia.
Qed.

Lemma match_frac_shorter (s d r : str) :
  match_frac s = Some (d, r) -> List.length r < List.length s.
Proof.
  unfold match_frac. destruct s as [|c s]; [discriminate|].
  destruct (N.eqb c (ch ".")); [|discriminate].
  destruct (span_digits s) as [[|x d'] r'] eqn:E; [discriminate|].
  intros H; injection H as <- <-.
  apply span_digits_length in E. simpl; lia.
Qed.

Lemma match_exp_shorter (s : str) (z : Z) (r : str) :
  match_exp s = Some (z, r) -> List.length r < List.length s.
Proof.
  unfold match_exp. destruct s as [|c s]; [discriminate|].
  destruct (N.eqb c (ch "e") || N.eqb c (ch "E"))%bool; [|discriminate].
  destruct s as [|g t]; [simpl; discriminate|].
  destruct (N.eqb g (ch "-")); [|destruct (N.eqb g (ch "+"))];
    cbv zeta;
    match goal with
    | |- context [span_digits ?x] =>
        destruct (span_digits x) as [[|y d] r0] eqn:E
    end;
    try discriminate;
    intros H; injection H as _ <-;
    apply span_digits_length in E; simpl in *; lia.
Qed.

Lemma match_number_shorter (s : str) (o : outcome pyvalue) (r : str) :
  match_number s = Some (o, r) -> List.length r < List.length s.
Proof.
  unfold match_number.
  set (p := match s with
            | c :: t => if N.eqb c (ch "-") then (true, t) else (false, s)
            | [] => (false, s)
            end).
  assert (List.length (snd p) <= List.length s) as Hp.
  { unfold p. destruct s as [|c t]; [simpl; lia|].
    destruct (N.eqb c (ch "-")); simpl; lia. }
  destruct p as [neg s0]. simpl in Hp.
  destruct (match_int_part s0) as [[ip s1]|] eqn:Ei; [|discriminate].
  apply match_int_part_shorter in Ei.
  destruct (match_frac s1) as [[d s2]|] eqn:Ef.
  - apply match_frac_shorter in Ef.
    destruct (match_exp s2) as [[z s3]|] eqn:Ee.
    + apply match_exp_shorter in Ee. intros H; injection H as _ <-. lia.
    + intros H; injection H as _ <-. lia.
  - destruct (match_exp s1) as [[z s3]|] eqn:Ee.
    + apply match_exp_shorter in Ee. intros H; injection H as _ <-. lia.
    + intros H; injection H as _ <-. lia.
Qed.

Lemma startswith_length (p s : str) :
  startswith p s = true -> List.length p <= List.length s.
Proof.
  revert s; induction p as [|x p IH]; intros [|y s]; simpl;
    try lia; try discriminate.
  rewrite andb_true_iff. intros [_ H]. apply IH in H. lia.
Qed.

Ltac atom_prefix H :=
  match goal with
  | |- (if startswith ?p ?s then _ else _) = _ -> _ =>
      destruct (startswith p s) eqn:H
  | |- (if startswith ?p ?s then _ else _) <> _ =>
      destruct (startswith p s) eqn:H
  end.

Lemma scan_atom_shorter (s : str) (v : pyvalue) (r : str) :
  scan_atom s = Ret (v, r) -> List.length r < List.length s.
Proof.
  unfold scan_atom.
  do 6 (let E := fresh "E" in
        atom_prefix E;
        [ apply startswith_length in E; intros H;
          apply (f_equal (fun o => match o with
                                   | Ret (_, r') => List.length r'
                                   | Raise _ => 0
                                   end)) in H;
          cbv beta iota in H; rewrite length_skipn in H;
          match type of E with
          | List.length ?p <= _ =>
              let n := eval vm_compute in (List.length p) in
              change (List.length p) with n in E
          end; lia |]).
  destruct (match_number s) as [[[v'|e] r']|] eqn:Em; try discriminate.
  intros H; injection H as _ <-. exact (match_number_shorter _ _ _ Em).
Qed.

Ltac head_if :=
  lazymatch goal with
  | |- (if ?b then _ else _) = _ -> _ => destruct b
  | |- (if ?b then _ else _) <> _ => destruct b
  end.

Ltac head_depth :=
  lazymatch goal with
  | |- match ?d with O => _ | S _ => _ end = _ -> _ =>
      destruct d; [discriminate|]
  end.

(** Whatever is decoded, something of the text has been read. *)
Lemma scan_shorter (n : nat) :
  (forall d s v r,
     scan_once n d s = Ret (v, r) -> List.length r < List.length s) /\
  (forall d s items r,
     parse_members n d s = Ret (items, r) ->
     List.length r < List.length s) /\
  (forall d s l r,
     parse_elements n d s = Ret (l, r) -> List.length r < List.length s).
Proof.
  induction n as [|n (IHs & IHm & IHe)];
    [repeat split; intros; discriminate|].
  repeat split.
  - intros d s v r. destruct s as [|c s']; [discriminate|].
    cbn [scan_once]. head_if.
    + destruct (scanstring s') as [[v' r']|] eqn:E; [|discriminate].
      intros H; injection H as _ <-.
      apply scanstring_shorter in E. simpl; lia.
    + head_if.
      * head_depth. pose proof (skip_ws_length s') as Hw.
        destruct (skip_ws s') as [|c1 s2]; [discriminate|].
        head_if.
        -- intros H; injection H as _ <-. simpl in *; lia.
        -- intros H. apply bind_Ret in H as ([items r'] & Hm & H).
           injection H as _ <-. apply IHm in Hm. simpl in *; lia.
      * head_if.
        -- head_depth. pose proof (skip_ws_length s') as Hw.
           destruct (skip_ws s') as [|c1 s2]; [discriminate|].
           head_if.
           ++ intros H; injection H as _ <-. simpl in *; lia.
           ++ intros H. apply bind_Ret in H as ([l r'] & Hm & H).
              injection H as _ <-. apply IHe in Hm. simpl in *; lia.
        -- apply scan_atom_shorter.
  - intros d0 s items r. destruct s as [|q s1]; [discriminate|].
    cbn [parse_members]. head_if; [|discriminate].
    destruct (scanstring s1) as [[k s2]|] eqn:E; [|discriminate].
    apply scanstring_shorter in E.
    pose proof (skip_ws_length s2) as Hw2.
    destruct (skip_ws s2) as [|colon s3]; [discriminate|].
    head_if; [|discriminate].
    intros H. apply bind_Ret in H as ([v s4] & Hv & H).
    apply IHs in Hv. pose proof (skip_ws_length s3) as Hw3.
    pose proof (skip_ws_length s4) as Hw4. revert H.
    destruct (skip_ws s4) as [|d s5]; [discriminate|].
    head_if.
    + intros H; injection H as _ <-. simpl in *; lia.
    + head_if; [|discriminate].
      intros H. apply bind_Ret in H as ([rest r'] & Hm & H).
      injection H as _ <-. apply IHm in Hm.
      pose proof (skip_ws_length s5). simpl in *; lia.
  - intros d0 s l r. cbn [parse_elements].
    intros H. apply bind_Ret in H as ([v s1] & Hv & H).
    apply IHs in Hv. pose proof (skip_ws_length s1) as Hw1. revert H.
    destruct (skip_ws s1) as [|d s2]; [discriminate|].
    head_if.
    + intros H; injection H as _ <-. simpl in *; lia.
    + head_if; [|discriminate].
      intros H. apply bind_Ret in H as ([rest r'] & Hm & H).
      injection H as _ <-. apply IHe in Hm.
      pose proof (skip_ws_length s2). simpl in *; lia.
Qed.

Ltac both_if :=
  lazymatch goal with
  | |- (if ?b then _ else _) = _ => destruct b
  end.

(** Above twice the length of the text, more fuel changes nothing: the
    only [RecursionError] of the decoder is that of [depth]. *)
Lemma scan_fuel (n : nat) :
  (forall m d s,
     2 * List.length s < n -> n <= m ->
     scan_once n d s = scan_once m d s) /\
  (forall m d s,
     2 * List.length s + 1 < n -> n <= m ->
     parse_members n d s = parse_members m d s) /\
  (forall m d s,
     2 * List.length s + 1 < n -> n <= m ->
     parse_elements n d s = parse_elements m d s).
Proof.
  induction n as [|n (IHs & IHm & IHe)]; [repeat split; intros; lia|].
  destruct (scan_shorter n) as (Ss & Sm & Se).
  repeat split.
  - intros m d s Hn Hm. destruct m as [|m]; [lia|].
    destruct s as [|c s']; [reflexivity|].
    cbn [scan_once]. simpl in Hn.
    both_if; [reflexivity|].
    pose proof (skip_ws_length s') as Hw.
    both_if.
    + destruct d as [|d]; [reflexivity|].
      destruct (skip_ws s') as [|c1 s2]; [reflexivity|].
      both_if; [reflexivity|].
      rewrite (IHm m d (c1 :: s2)); [reflexivity | simpl in *; lia | lia].
    + both_if; [|reflexivity].
      destruct d as [|d]; [reflexivity|].
      destruct (skip_ws s') as [|c1 s2]; [reflexivity|].
      both_if; [reflexivity|].
      rewrite (IHe m d (c1 :: s2)); [reflexivity | simpl in *; lia | lia].
  - intros m d0 s Hn Hm. destruct m as [|m]; [lia|].
    destruct s as [|q s1]; [reflexivity|].
    cbn [parse_members]. simpl in Hn.
    both_if; [|reflexivity].
    destruct (scanstring s1) as [[k s2]|] eqn:E; [|reflexivity].
    apply scanstring_shorter in E.
    pose proof (skip_ws_length s2) as Hw2.
    destruct (skip_ws s2) as [|colon s3]; [reflexivity|].
    both_if; [|reflexivity].
    pose proof (skip_ws_length s3) as Hw3.
    rewrite (IHs m d0 (skip_ws s3)); [|simpl in *; lia | lia].
    destruct (scan_once m d0 (skip_ws s3)) as [[v s4]|e] eqn:Ev;
      [|reflexivity].
    rewrite <- (IHs m d0 (skip_ws s3)) in Ev; [|simpl in *; lia | lia].
    apply Ss in Ev. simpl bind.
    pose proof (skip_ws_length s4) as Hw4.
    destruct (skip_ws s4) as [|d s5]; [reflexivity|].
    both_if; [reflexivity|].
    both_if; [|reflexivity].
    pose proof (skip_ws_length s5).
    rewrite (IHm m d0 (skip_ws s5)); [reflexivity | simpl in *; lia | lia].
  - intros m d0 s Hn Hm. destruct m as [|m]; [lia|].
    cbn [parse_elements].
    rewrite (IHs m d0 s); [|lia | lia].
    destruct (scan_once m d0 s) as [[v s1]|e] eqn:Ev; [|reflexivity].
    rewrite <- (IHs m d0 s) in Ev; [|lia | lia].
    apply Ss in Ev. simpl bind.
    pose proof (skip_ws_length s1) as Hw1.
    destruct (skip_ws s1) as [|d s2]; [reflexivity|].
    both_if; [reflexivity|].
    both_if; [|reflexivity].
    pose proof (skip_ws_length s2).
    rewrite (IHe m d0 (skip_ws s2)); [reflexivity | simpl in *; lia | lia].
Qed.

(** [json.loads] as modelled does not depend on the fuel it is given. *)
Lemma loads_fuel (depth : nat) (s : str) (m : nat) :
  S (2 * List.length s) <= m ->
  scan_once (S (2 * List.length s)) depth (skip_ws s)
  = scan_once m depth (skip_ws s).
Proof.
  intros Hm. apply (scan_fuel (S (2 * List.length s))); [|exact Hm].
  pose proof (skip_ws_length s). lia.
Qed.

End DecoderFacts.

(** ** The scenarios of the specification *)

Section Scenarios.

Import Models.

(** Primary unconfigured, two results from the secondary: exactly those
    two come back, and no sentinel. *)
Example secondary_only_scenario :
  Agent.search_web (Samples.serving Samples.two_results)
    (py "rust ownership model") 5
  = (Ret [ {| title := py "Ownership"; url := py "https://a.example/";
              snippet := py "Each value has one owner.";
              relevance_score := None |};
           {| title := py "Borrowing"; url := py "https://b.example/";
              snippet := []; relevance_score := None |} ],
     [Get Context7.duckduckgo]).
Proof. vm_compute. reflexivity. Qed.

(** Both providers fail: the one sentinel, with score 0.0. *)
Example total_failure_scenario :
  Agent.search_web Samples.offline (py "xyz") 5
  = (Ret [Agent.no_results (py "xyz")], [Get Context7.duckduckgo]).
Proof. vm_compute. reflexivity. Qed.

(** A primary that answers results is not followed by the secondary. *)
Example primary_results_scenario :
  Agent.search_web
    (Samples.answering
       (PDict [(py "results",
                PList [PDict [(py "title", PStr (py "T"));
                              (py "url", PStr (py "https://t.example/"));
                              (py "content", PStr (py "C"));
                              (py "score", PFloat (FDec false 5 (-1)))]])]))
    (py "xyz") 5
  = (Ret [ {| title := py "T"; url := py "https://t.example/";
              snippet := py "C";
              relevance_score := Some (FDec false 5 (-1)) |} ],
     [Post (Context7.base_url ++ py "/search")]).
Proof. vm_compute. reflexivity. Qed.

(** No network at all: the fetch answers an error text that names the
    address and the fault. *)
Example fetch_offline_scenario :
  Agent.fetch_webpage_content Samples.offline (py "https://example.org/")
  = (Ret (PStr (py "Error fetching https://example.org/: All connection attempts failed")),
     [Get (py "https://example.org/")]).
Proof. vm_compute. reflexivity. Qed.

(** Backend output without JSON: the text is the summary, with the three
    generic findings. *)
Example malformed_output_scenario :
  Synth.synthesize Samples.offline
    (py "I found some interesting things but here's no JSON") (py "asked")
  = Ret {| query := py "asked";
           summary := py "I found some interesting things but here's no JSON";
           key_findings := Synth.generic_findings;
           sources := [py "Web search results"; py "Content analysis"];
           timestamp := Samples.clock |}.
Proof. vm_compute. reflexivity. Qed.

(** A backend that cannot be reached: [research] raises its fault. *)
Example backend_fault_scenario :
  Agent.research Samples.offline (py "asked") 5 = Raise Samples.refused.
Proof. reflexivity. Qed.

End Scenarios.

(** * Further properties *)

(** ** When the findings are structured *)

Section StructuredPath.

Import Models Synth.

Lemma new_ResearchFindings_some (env : Env) (kw : list (str * pyvalue)) :
  (exists f, new_ResearchFindings env kw = Ret f) <->
  exists q s kf src,
    lookup (py "query") kw = Some (PStr q) /\
    lookup (py "summary") kw = Some (PStr s) /\
    lookup (py "key_findings") kw = Some (PList (map PStr kf)) /\
    lookup (py "sources") kw = Some (PList (map PStr src)) /\
    (forall v, lookup (py "timestamp") kw = Some v -> exists t, v = PStr t).
Proof.
  split.
  - intros [f H]. apply new_ResearchFindings_inv in H.
    destruct H as (Hq & Hs & Hk & Hr & Ht).
    exists (query f), (summary f), (key_findings f), (sources f).
    repeat split; try assumption.
    intros v Hv. rewrite Hv in Ht. eauto.
  - intros (q & s & kf & src & Hq & Hs & Hk & Hr & Ht).
    eexists. apply new_ResearchFindings_ok; eassumption.
Qed.

(** X1.  The findings are the structured ones exactly when the region from
    the first opening brace to the last closing one decodes to an object
    that has [query] and [summary] as strings, [key_findings] and
    [sources] as lists of strings, and [timestamp], if it has one, as a
    string.  An object that lacks one of the four, or has one of another
    type (a number for [query], a string for [sources]), is never taken:
    nothing is coerced. *)
Theorem structured_iff_well_typed (env : Env) (raw_text : str) :
  shape_of env raw_text = Structured <->
  exists region o q s kf src,
    Re.search raw_text = Some region /\
    Json.loads (recursion_budget env) region = Ret (PDict o) /\
    lookup (py "query") o = Some (PStr q) /\
    lookup (py "summary") o = Some (PStr s) /\
    lookup (py "key_findings") o = Some (PList (map PStr kf)) /\
    lookup (py "sources") o = Some (PList (map PStr src)) /\
    (forall v, lookup (py "timestamp") o = Some v -> exists t, v = PStr t).
Proof.
  unfold shape_of. split.
  - destruct (Re.search raw_text) as [region|]; [|discriminate].
    destruct (decode env region) as [f|e] eqn:E; [|discriminate].
    intros _. apply decode_inv in E. destruct E as (o & Hl & Hn).
    destruct (proj1 (new_ResearchFindings_some env o) (ex_intro _ f Hn))
      as (q & s & kf & src & H).
    exists region, o, q, s, kf, src. auto.
  - intros (region & o & q & s & kf & src & Hr & Hl & H).
    rewrite Hr, (decode_ok env region o Hl).
    destruct (proj2 (new_ResearchFindings_some env o)) as [f Hf].
    + exists q, s, kf, src. exact H.
    + rewrite Hf. reflexivity.
Qed.

(** X2.  An object without one of the four required fields gives the
    findings of the fault path: the caller's query, the whole reply as
    summary, two generic findings and the source "Agent analysis".  What
    the other fields of the object hold is lost. *)
Theorem missing_field_degrades (env : Env) (raw_text query region k : str)
        (o : list (str * pyvalue)) :
  Re.search raw_text = Some region ->
  Json.loads (recursion_budget env) region = Ret (PDict o) ->
  In k [py "query"; py "summary"; py "key_findings"; py "sources"] ->
  lookup k o = None ->
  synthesize env raw_text query
    = Ret (degraded_on_fault env query raw_text).
Proof.
  intros Hr Hl Hk Hn. rewrite synthesize_unfold, Hr.
  rewrite (decode_ok env region o Hl).
  destruct (new_ResearchFindings env o) as [f|e] eqn:E; [|reflexivity].
  exfalso. apply new_ResearchFindings_inv in E.
  destruct E as (Hq & Hs & Hf & Hsrc & _).
  simpl in Hk.
  destruct Hk as [<-|[<-|[<-|[<-|[]]]]]; congruence.
Qed.

(** X2 at a reply whose object has no [sources]. *)
Lemma missing_field_degrades_witness :
  synthesize Samples.offline
    (js "Here you are: {'query': 'q', 'summary': 's', 'key_findings': ['a']}")
    (py "asked")
  = Ret (degraded_on_fault Samples.offline (py "asked")
           (js "Here you are: {'query': 'q', 'summary': 's', 'key_findings': ['a']}")).
Proof.
  apply (missing_field_degrades Samples.offline _ (py "asked")
           (js "{'query': 'q', 'summary': 's', 'key_findings': ['a']}")
           (py "sources")
           [(py "query", PStr (py "q")); (py "summary", PStr (py "s"));
            (py "key_findings", PList [PStr (py "a")])]).
  - vm_compute. reflexivity.
  - vm_compute. reflexivity.
  - simpl. auto.
  - vm_compute. reflexivity.
Defined.

(** X3.  The findings of the no-JSON path are returned exactly when the
    reply has no opening brace with a closing brace somewhere after it;
    a closing brace that comes before every opening one does not count. *)
Theorem no_region_iff (env : Env) (raw_text query : str) :
  (synthesize env raw_text query
     = Ret (degraded_no_json env query raw_text) /\
   shape_of env raw_text = DegradedNoJson) <->
  ~ exists pre mid post,
      raw_text = pre ++ ch "{" :: mid ++ ch "}" :: post.
Proof.
  change (ch "{") with 123%N. change (ch "}") with 125%N.
  rewrite <- search_none. rewrite synthesize_unfold. unfold shape_of. split.
  - intros [_ H]. destruct (Re.search raw_text); [|reflexivity].
    destruct (decode env s); discriminate.
  - intros ->. auto.
Qed.

End StructuredPath.

(** ** Retrieval: what is sent, and what comes of the items *)

Section RetrievalFacts.

Import Models Context7 Agent.

Lemma startswith_app (p b : str) : startswith p (p ++ b) = true.
Proof.
  induction p as [|c p IH]; simpl; [reflexivity|].
  rewrite N.eqb_refl. exact IH.
Qed.

Lemma contains_app (p a b : str) : contains p (a ++ p ++ b) = true.
Proof.
  induction a as [|c a IH]; simpl.
  - assert (E : forall s, startswith p s = true -> contains p s = true)
      by (intros [|x s] H; simpl; rewrite H; reflexivity).
    apply E, startswith_app.
  - rewrite IH. apply orb_true_r.
Qed.

(** The text of the unconfigured primary holds the phrase the tool looks
    for, whatever the URL. *)
Lemma placeholder_has_phrase (url : str) :
  contains key_required (placeholder url) = true.
Proof.
  unfold placeholder.
  change (py " (Context7 API key required for real data)")
    with (py " (" ++ key_required ++ py " for real data)").
  rewrite (app_assoc url), (app_assoc (py "Content from ")).
  apply contains_app.
Qed.

Lemma scrape_result_short (result : Html.node) :
  (List.length (scrape_result result) <= 1)%nat.
Proof.
  unfold scrape_result.
  destruct (Html.find (py "a") (py "result__a") result); simpl; lia.
Qed.

Lemma flat_map_scrape_short (l : list Html.node) :
  (List.length (flat_map scrape_result l) <= List.length l)%nat.
Proof.
  induction l as [|r l IH]; simpl; [lia|].
  rewrite length_app. pose proof (scrape_result_short r). lia.
Qed.

(** The secondary search: one GET, items of three strings, and for a limit
    that is not negative no more items than the limit. *)
Lemma fallback_search_bounded (env : Env) (query : str) (max_results : Z) :
  exists l,
    fallback_search env query max_results
      = (Ret (PList l), [Get duckduckgo]) /\
    Forall scraped l /\
    ((0 <= max_results)%Z ->
     (List.length l <= Z.to_nat max_results)%nat).
Proof.
  unfold fallback_search, get_url, mtry, mbind, mret, lift.
  destruct (http_get env duckduckgo _) as [response|e].
  2:{ exists []. simpl. repeat split; [constructor|lia]. }
  destruct (html_parser env (text response)) as [soup|e].
  2:{ exists []. simpl. repeat split; [constructor|lia]. }
  eexists. split; [reflexivity|]. split.
  - generalize (slice_to max_results
                  (Html.find_all (py "div") (py "result") soup)).
    intros l; induction l as [|r l IH]; simpl; [constructor|].
    apply Forall_app. split; [apply scrape_result_scraped | exact IH].
  - intros H. etransitivity; [apply flat_map_scrape_short|].
    unfold slice_to. destruct (0 <=? max_results)%Z eqn:E; [|lia].
    apply firstn_le_length.
Qed.

(** The items of the secondary convert to results without a score. *)
Lemma convert_scraped_unscored (env : Env) (l : list pyvalue) :
  Forall scraped l ->
  exists rs, mapM (to_SearchResult env) l = Ret rs /\
             List.length rs = List.length l /\
             Forall (fun r => relevance_score r = None) rs.
Proof.
  induction 1 as [|v l (t & u & s & ->) _ (rs & E & L & F)]; simpl.
  - exists []. auto.
  - rewrite E. eexists. split; [vm_compute bind; reflexivity|].
    split; [simpl; congruence|]. constructor; [reflexivity|exact F].
Qed.

Lemma mapM_raise {A B} (f : A -> outcome B) (l : list A) (x : A) :
  In x l -> (exists e, f x = Raise e) -> exists e, mapM f l = Raise e.
Proof.
  intros Hin [e0 Hx]. induction l as [|a l IH]; [destruct Hin|].
  simpl. destruct (f a) as [b|e] eqn:Ea; [|simpl; eauto].
  destruct Hin as [->|Hin]; [congruence|].
  destruct (IH Hin) as [e' ->]. simpl. eauto.
Qed.

Lemma to_SearchResult_not_dict (env : Env) (item : pyvalue) :
  (forall d, item <> PDict d) ->
  to_SearchResult env item = Raise AttributeError.
Proof.
  intros H. destruct item; try reflexivity. exfalso. eapply H. reflexivity.
Qed.

(** What the tool sends after the primary has answered. *)
Lemma search_web_after_primary (env : Env) (query : str) (n : Z)
      (p : pyvalue) (t : list event) :
  search env query n = (Ret p, t) ->
  snd (search_web env query n)
    = t ++ (if truthy p then [] else [Get duckduckgo]).
Proof.
  intros H. unfold search_web, mtry, mbind. rewrite H.
  destruct (truthy p); simpl.
  - unfold lift, mret.
    destruct (iterate p) as [items|e]; simpl; [|rewrite ?app_nil_r; auto].
    destruct (mapM (to_SearchResult env) items); simpl;
      rewrite ?app_nil_r; reflexivity.
  - destruct (fallback_search_bounded env query n) as (l & -> & F & _).
    unfold lift, mret. simpl.
    destruct (mapM (to_SearchResult env) l); simpl;
      rewrite ?app_nil_r; reflexivity.
Qed.

(** X4.  One call of the search tool sends at most one request to each
    provider, the primary's first: a POST to the primary's search address,
    a GET to the secondary's page, or the first and then the second.
    Nothing is retried and nothing else is contacted; without a credential
    the GET is the only request. *)
Theorem search_web_requests (env : Env) (query : str) (n : Z) :
  one_attempt_each (base_url ++ py "/search") duckduckgo
    (snd (search_web env query n)) /\
  (unconfigured env = true <->
   snd (search_web env query n) = [Get duckduckgo]).
Proof.
  unfold one_attempt_each.
  destruct (search_cases env query n) as [[U H]|[U [p H]]];
    rewrite (search_web_after_primary _ _ _ _ _ H), U.
  - simpl. split; [auto|]. split; auto.
  - destruct (truthy p); simpl.
    + split; [auto|]. split; discriminate.
    + split; [auto|]. split; discriminate.
Qed.

(** What the fetch tool sends after the primary has answered. *)
Lemma fetch_after_primary (env : Env) (url : str) (c : pyvalue)
      (t : list event) :
  fetch_content env url = (Ret c, t) ->
  snd (fetch_webpage_content env url) = t \/
  snd (fetch_webpage_content env url) = t ++ [Get url].
Proof.
  intros H. unfold fetch_webpage_content, mtry, mbind. rewrite H.
  destruct (fallback_fetch_cases env url) as (s & Hs & _).
  destruct (truthy c); simpl.
  - unfold lift, mret. destruct (str_in key_required c) as [[|]|e]; simpl.
    + rewrite Hs. simpl. rewrite ?app_nil_r. auto.
    + rewrite ?app_nil_r. auto.
    + rewrite ?app_nil_r. auto.
  - rewrite Hs. simpl. auto.
Qed.

(** Without a credential the fetch tool hands over to the secondary. *)
Lemma fetch_unconfigured (env : Env) (url s : str) :
  unconfigured env = true ->
  fallback_fetch env url = (Ret s, [Get url]) ->
  fetch_webpage_content env url = (Ret (PStr s), [Get url]).
Proof.
  intros U Hs.
  assert (T : truthy (PStr (placeholder url)) = true) by reflexivity.
  unfold fetch_webpage_content, fetch_content, mtry, mbind. rewrite U.
  unfold mret. rewrite T. unfold negb, lift, str_in.
  rewrite placeholder_has_phrase, Hs. reflexivity.
Qed.

(** X5.  One call of the fetch tool sends at most one request to each
    provider, the primary's first: a POST to the primary's fetch address,
    a GET of the page itself, or the first and then the second. *)
Theorem fetch_requests (env : Env) (url : str) :
  one_attempt_each (base_url ++ py "/fetch") url
    (snd (fetch_webpage_content env url)).
Proof.
  unfold one_attempt_each.
  destruct (fetch_content_cases env url) as [[U H]|[U [c H]]].
  - destruct (fallback_fetch_cases env url) as (s & Hs & _).
    rewrite (fetch_unconfigured env url s U Hs). simpl. auto.
  - destruct (fetch_after_primary _ _ _ _ H) as [-> | ->]; simpl; auto.
Qed.

(** X6.  Without a usable credential (none, an empty one, or one that
    starts with "dummy") the fetch tool returns, for every URL, what the
    secondary fetch returns: the placeholder text of the primary never
    reaches the caller, and the page is requested once, by GET. *)
Theorem unconfigured_fetch_uses_secondary (env : Env) (url : str) :
  unconfigured env = true ->
  exists s,
    fallback_fetch env url = (Ret s, [Get url]) /\
    fetch_webpage_content env url = (Ret (PStr s), [Get url]).
Proof.
  intros U. destruct (fallback_fetch_cases env url) as (s & Hs & _).
  exists s. split; [exact Hs|]. apply fetch_unconfigured; assumption.
Qed.

(** X6 at an environment without credential, for a page of plain text. *)
Lemma unconfigured_fetch_uses_secondary_witness :
  exists s,
    fallback_fetch (Samples.serving [Html.Text (py "  Plain  text ")])
      (py "https://example.org/")
      = (Ret s, [Get (py "https://example.org/")]) /\
    fetch_webpage_content (Samples.serving [Html.Text (py "  Plain  text ")])
      (py "https://example.org/")
      = (Ret (PStr s), [Get (py "https://example.org/")]).
Proof.
  apply (unconfigured_fetch_uses_secondary
           (Samples.serving [Html.Text (py "  Plain  text ")])
           (py "https://example.org/")).
  reflexivity.
Defined.

(** X7.  With a credential, a failure of the primary fetch is final: when
    the POST raises, or answers a status other than 200, the tool returns
    the primary's message ("Error fetching <url>: <fault>" or
    "Failed to fetch <url>") and the secondary is not tried, as long as
    the message does not hold the phrase "Context7 API key required". *)
Theorem primary_fetch_failure_is_final (env : Env) (url msg : str) :
  unconfigured env = false ->
  (exists e,
     http_post env (base_url ++ py "/fetch") (PDict [(py "url", PStr url)])
       = Raise e /\
     msg = error_fetching env url e) \/
  (exists response,
     http_post env (base_url ++ py "/fetch") (PDict [(py "url", PStr url)])
       = Ret response /\
     status_code response <> 200%Z /\
     msg = py "Failed to fetch " ++ url) ->
  contains key_required msg = false ->
  fetch_webpage_content env url
    = (Ret (PStr msg), [Post (base_url ++ py "/fetch")]).
Proof.
  intros U H C.
  assert (E : fetch_content env url
              = (Ret (PStr msg), [Post (base_url ++ py "/fetch")])).
  { unfold fetch_content, post, mtry, mbind, mret. rewrite U.
    destruct H as [(e & -> & ->)|(response & -> & S & ->)];
      [reflexivity|].
    apply Z.eqb_neq in S. rewrite S. reflexivity. }
  unfold fetch_webpage_content, mtry, mbind. rewrite E.
  assert (T : truthy (PStr msg) = true).
  { destruct H as [(e & _ & ->)|(response & _ & _ & ->)]; reflexivity. }
  rewrite T. simpl negb. cbv iota. unfold lift, str_in. rewrite C.
  reflexivity.
Qed.

(** X7 at an environment with a credential and no network. *)
Lemma primary_fetch_failure_is_final_witness :
  fetch_webpage_content Samples.unreachable (py "https://example.org/")
  = (Ret (PStr (py "Error fetching https://example.org/: All connection attempts failed")),
     [Post (py "https://api.context7.com/v1/fetch")]).
Proof.
  apply (primary_fetch_failure_is_final Samples.unreachable
           (py "https://example.org/")).
  - reflexivity.
  - left. exists Samples.refused. split; reflexivity.
  - vm_compute. reflexivity.
Defined.

(** X8.  When the primary's answer is falsy and the limit is not negative,
    the search tool returns at most as many results as the limit, and at
    least one: either the single "no results" entry, or results scraped
    from the secondary, none of which has a relevance score. *)
Theorem secondary_results_bounded (env : Env) (query : str) (n : Z)
        (p : pyvalue) :
  fst (search env query n) = Ret p ->
  truthy p = false ->
  (0 <= n)%Z ->
  exists results,
    fst (search_web env query n) = Ret results /\
    (1 <= List.length results <= Z.to_nat (Z.max 1 n))%nat /\
    (results = [no_results query] \/
     Forall (fun r => relevance_score r = None) results).
Proof.
  intros H T N. unfold search_web, mtry, mbind.
  destruct (search env query n) as [r t]. simpl in H. subst r.
  rewrite T. simpl negb. cbv iota.
  destruct (fallback_search_bounded env query n) as (l & -> & F & B).
  specialize (B N).
  destruct (convert_scraped_unscored env l F) as (rs & E & L & S).
  unfold lift, mret. simpl. rewrite E. simpl.
  destruct rs as [|r rs].
  - eexists. split; [reflexivity|]. split; [simpl; lia|auto].
  - eexists. split; [reflexivity|]. split; [|auto].
    rewrite L. simpl in L. lia.
Qed.

(** X8 at a page of two result blocks and the limit 1. *)
Lemma secondary_results_bounded_witness :
  exists results,
    fst (search_web (Samples.serving Samples.two_results) (py "rust") 1)
      = Ret results /\
    (1 <= List.length results <= Z.to_nat (Z.max 1 1))%nat /\
    (results = [no_results (py "rust")] \/
     Forall (fun r => relevance_score r = None) results).
Proof.
  apply (secondary_results_bounded (Samples.serving Samples.two_results)
           (py "rust") 1 (PList [])).
  - reflexivity.
  - reflexivity.
  - lia.
Defined.

(** X9.  One malformed item spoils the whole answer of the primary: when
    the primary returns a list in which some item is not an object, the
    tool returns the single "Search error" entry.  The well-formed items
    of the list are dropped and the secondary is not asked. *)
Theorem bad_item_discards_all (env : Env) (query : str) (n : Z)
        (items : list pyvalue) (item : pyvalue) :
  fst (search env query n) = Ret (PList items) ->
  In item items ->
  (forall d, item <> PDict d) ->
  exists e,
    search_web env query n
      = (Ret [search_error env e], [Post (base_url ++ py "/search")]).
Proof.
  intros H Hin Hbad.
  destruct (mapM_raise (to_SearchResult env) items item Hin) as [e E].
  { exists AttributeError. apply to_SearchResult_not_dict, Hbad. }
  exists e.
  destruct (search_cases env query n) as [[U S]|[U [p S]]];
    rewrite S in H; simpl in H.
  - injection H as <-. destruct Hin.
  - injection H as ->. unfold search_web, mtry, mbind. rewrite S.
    assert (T : truthy (PList items) = true)
      by (destruct items; [destruct Hin|reflexivity]).
    rewrite T. unfold lift, mret. simpl. rewrite E. reflexivity.
Qed.

(** X9 at an answer of the primary with one object and one string. *)
Lemma bad_item_discards_all_witness :
  exists e,
    search_web
      (Samples.answering
         (PDict [(py "results",
                  PList [PDict [(py "title", PStr (py "Ownership"));
                                (py "url", PStr (py "https://a.example/"));
                                (py "snippet", PStr (py "One owner."))];
                         PStr (py "https://b.example/")])]))
      (py "rust") 5
    = (Ret [search_error
              (Samples.answering
                 (PDict [(py "results",
                  PList [PDict [(py "title", PStr (py "Ownership"));
                                (py "url", PStr (py "https://a.example/"));
                                (py "snippet", PStr (py "One owner."))];
                         PStr (py "https://b.example/")])])) e],
       [Post (base_url ++ py "/search")]).
Proof.
  apply (bad_item_discards_all _ (py "rust") 5
           [PDict [(py "title", PStr (py "Ownership"));
                   (py "url", PStr (py "https://a.example/"));
                   (py "snippet", PStr (py "One owner."))];
            PStr (py "https://b.example/")]
           (PStr (py "https://b.example/"))).
  - reflexivity.
  - simpl. auto.
  - intros d. discriminate.
Defined.

(** X10.  A result converted from an item of the primary takes its
    snippet from the item's [snippet]; only an item without that key
    shows its [content] instead, and an item with neither has an empty
    snippet.  A missing [title] or [url] is the empty string. *)
Theorem converted_fields (env : Env) (d : list (str * pyvalue))
        (r : SearchResult) :
  to_SearchResult env (PDict d) = Ret r ->
  PStr (title r) = dict_get d (py "title") (PStr []) /\
  PStr (url r) = dict_get d (py "url") (PStr []) /\
  PStr (snippet r) =
    match lookup (py "snippet") d with
    | Some s => s
    | None => dict_get d (py "content") (PStr [])
    end.
Proof.
  change (match lookup (py "snippet") d with
          | Some s => s
          | None => dict_get d (py "content") (PStr [])
          end)
    with (dict_get d (py "snippet") (dict_get d (py "content") (PStr []))).
  unfold to_SearchResult, get, new_SearchResult. simpl bind.
  generalize (dict_get d (py "title") (PStr [])) as t.
  generalize (dict_get d (py "url") (PStr [])) as u.
  generalize (dict_get d (py "snippet") (dict_get d (py "content") (PStr [])))
    as s.
  intros s u t.
  destruct t; try discriminate. destruct u; try discriminate.
  destruct s; try discriminate. simpl bind.
  destruct (validate_optional_float env _ _); [|discriminate].
  simpl. intros [= <-]. simpl. auto.
Qed.

(** X10 at an item with [title] and [content] only. *)
Lemma converted_fields_witness :
  PStr (title {| title := py "Ownership"; url := [];
                 snippet := py "Each value has one owner.";
                 relevance_score := None |})
  = dict_get [(py "title", PStr (py "Ownership"));
              (py "content", PStr (py "Each value has one owner."))]
      (py "title") (PStr []) /\
  PStr (url {| title := py "Ownership"; url := [];
               snippet := py "Each value has one owner.";
               relevance_score := None |})
  = dict_get [(py "title", PStr (py "Ownership"));
              (py "content", PStr (py "Each value has one owner."))]
      (py "url") (PStr []) /\
  PStr (snippet {| title := py "Ownership"; url := [];
                   snippet := py "Each value has one owner.";
                   relevance_score := None |})
  = match lookup (py "snippet")
            [(py "title", PStr (py "Ownership"));
             (py "content", PStr (py "Each value has one owner."))] with
    | Some s => s
    | None =>
        dict_get [(py "title", PStr (py "Ownership"));
                  (py "content", PStr (py "Each value has one owner."))]
          (py "content") (PStr [])
    end.
Proof.
  apply (converted_fields Samples.offline
           [(py "title", PStr (py "Ownership"));
            (py "content", PStr (py "Each value has one owner."))]).
  reflexivity.
Defined.

Lemma mapM_length {A B} (f : A -> outcome B) (l : list A) :
  forall bs, mapM f l = Ret bs -> List.length bs = List.length l.
Proof.
  induction l as [|a l IH]; intros bs; simpl.
  - intros [= <-]. reflexivity.
  - destruct (f a); [|discriminate]. simpl.
    destruct (mapM f l) as [bs'|]; [|discriminate]. simpl.
    intros [= <-]. simpl. rewrite (IH bs' eq_refl). reflexivity.
Qed.

(** X11.  The limit is not applied to what the primary returns: when the
    primary answers a non-empty list whose items all convert, the tool
    returns one result for each item, in their order, however many the
    limit allows, and the secondary is not asked. *)
Theorem primary_results_not_limited (env : Env) (query : str) (n : Z)
        (items : list pyvalue) (rs : list SearchResult) :
  fst (search env query n) = Ret (PList items) ->
  items <> [] ->
  mapM (to_SearchResult env) items = Ret rs ->
  search_web env query n = (Ret rs, [Post (base_url ++ py "/search")]) /\
  List.length rs = List.length items.
Proof.
  intros H Hne E. pose proof (mapM_length _ _ _ E) as L. split; [|exact L].
  destruct (search_cases env query n) as [[U S]|[U [p S]]];
    rewrite S in H; simpl in H.
  - injection H as <-. congruence.
  - injection H as ->. unfold search_web, mtry, mbind. rewrite S.
    assert (T : truthy (PList items) = true)
      by (destruct items; [congruence|reflexivity]).
    rewrite T. unfold lift, mret. simpl. rewrite E. simpl.
    destruct rs; [|reflexivity].
    destruct items; [congruence|discriminate L].
Qed.

(** X11 at an answer of two items and the limit 1. *)
Lemma primary_results_not_limited_witness :
  search_web
    (Samples.answering
       (PDict [(py "results",
                PList [PDict [(py "title", PStr (py "Ownership"))];
                       PDict [(py "title", PStr (py "Borrowing"))]])]))
    (py "rust") 1
  = (Ret [ {| title := py "Ownership"; url := []; snippet := [];
              relevance_score := None |};
           {| title := py "Borrowing"; url := []; snippet := [];
              relevance_score := None |} ],
     [Post (base_url ++ py "/search")]) /\
  List.length
    [ {| title := py "Ownership"; url := []; snippet := [];
         relevance_score := None |};
      {| title := py "Borrowing"; url := []; snippet := [];
         relevance_score := None |} ]
  = List.length
      [PDict [(py "title", PStr (py "Ownership"))];
       PDict [(py "title", PStr (py "Borrowing"))]].
Proof.
  apply (primary_results_not_limited _ (py "rust") 1).
  - reflexivity.
  - discriminate.
  - reflexivity.
Defined.

End RetrievalFacts.

(** ** The clean-up of whitespace: what it keeps *)

Section CleanUpKeeps.

Import Context7.

Lemma visible_app (a b : str) : visible (a ++ b) = visible a ++ visible b.
Proof. apply filter_app. Qed.

Lemma visible_rev (s : str) : visible (rev s) = rev (visible s).
Proof.
  induction s as [|c s IH]; [reflexivity|].
  simpl rev. rewrite visible_app, IH. unfold visible at 2 3. simpl.
  destruct (isspace c); simpl; rewrite ?app_nil_r; reflexivity.
Qed.

Lemma visible_space (c : N) (s : str) :
  isspace c = true -> visible (c :: s) = visible s.
Proof. intros H. unfold visible. simpl. rewrite H. reflexivity. Qed.

Lemma visible_hard (c : N) (s : str) :
  isspace c = false -> visible (c :: s) = c :: visible s.
Proof. intros H. unfold visible. simpl. rewrite H. reflexivity. Qed.

Lemma linebreak_isspace (c : N) : islinebreak c = true -> isspace c = true.
Proof.
  intros H. apply soft_isspace. unfold soft. rewrite H. apply orb_true_r.
Qed.

Lemma visible_lstrip (s : str) : visible (lstrip s) = visible s.
Proof.
  induction s as [|c s IH]; [reflexivity|]. simpl lstrip.
  destruct (isspace c) eqn:E; [|reflexivity].
  rewrite IH, (visible_space c s E). reflexivity.
Qed.

Lemma visible_strip (s : str) : visible (strip s) = visible s.
Proof.
  unfold strip.
  rewrite visible_rev, visible_lstrip, visible_rev, rev_involutive.
  apply visible_lstrip.
Qed.

Lemma splitlines_from_cons (cur : str) (c : N) (s' : str) :
  splitlines_from cur (c :: s') =
  if islinebreak c then
    match s' with
    | d :: s'' =>
        if ((c =? 13) && (d =? 10))%N
        then rev cur :: splitlines_from [] s''
        else rev cur :: splitlines_from [] s'
    | [] => [rev cur]
    end
  else splitlines_from (c :: cur) s'.
Proof. reflexivity. Qed.

Lemma split2sp_from_cons (cur : str) (c d : N) (s'' : str) :
  split2sp_from cur (c :: d :: s'') =
  if ((c =? 32) && (d =? 32))%N
  then rev cur :: split2sp_from [] s''
  else split2sp_from (c :: cur) (d :: s'').
Proof. reflexivity. Qed.

Lemma visible_splitlines_from (n : nat) :
  forall (s cur : str),
    (List.length s <= n)%nat ->
    visible (List.concat (splitlines_from cur s)) = visible (rev cur ++ s).
Proof.
  induction n as [|n IH]; intros s cur Hn.
  - destruct s; [|simpl in Hn; lia]. simpl.
    destruct cur; simpl; rewrite ?app_nil_r; reflexivity.
  - destruct s as [|c s'].
    + simpl. destruct cur; simpl; rewrite ?app_nil_r; reflexivity.
    + simpl in Hn. rewrite splitlines_from_cons.
      destruct (islinebreak c) eqn:Eb.
      * pose proof (linebreak_isspace c Eb) as Ec.
        destruct s' as [|d s''].
        -- rewrite concat_cons, concat_nil, !app_nil_r, !visible_app.
           rewrite (visible_space c [] Ec).
           change (visible []) with (@nil N). rewrite app_nil_r.
           reflexivity.
        -- destruct ((c =? 13)%N && (d =? 10)%N) eqn:Ecr.
           ++ apply andb_prop in Ecr as [_ Ed]. apply N.eqb_eq in Ed.
              subst d. rewrite concat_cons.
              rewrite !visible_app, (IH s'' []) by (simpl in Hn; lia).
              rewrite (visible_space c _ Ec), (visible_space 10%N)
                by reflexivity.
              reflexivity.
           ++ rewrite concat_cons.
              rewrite !visible_app, (IH (d :: s'') []) by lia.
              rewrite (visible_space c _ Ec). reflexivity.
      * rewrite (IH s' (c :: cur)) by lia. simpl rev.
        rewrite <- app_assoc. reflexivity.
Qed.

Lemma visible_split2sp_from (n : nat) :
  forall (s cur : str),
    (List.length s <= n)%nat ->
    visible (List.concat (split2sp_from cur s)) = visible (rev cur ++ s).
Proof.
  induction n as [|n IH]; intros s cur Hn.
  - destruct s; [|simpl in Hn; lia]. simpl. rewrite app_nil_r.
    reflexivity.
  - destruct s as [|c s']; [simpl; rewrite app_nil_r; reflexivity|].
    simpl in Hn. destruct s' as [|d s''].
    + simpl. rewrite !app_nil_r. reflexivity.
    + rewrite split2sp_from_cons.
      destruct ((c =? 32)%N && (d =? 32)%N) eqn:E.
      * apply andb_prop in E as [Ec Ed].
        apply N.eqb_eq in Ec, Ed. subst c d. rewrite concat_cons.
        rewrite !visible_app, (IH s'' []) by (simpl in Hn; lia).
        rewrite !(visible_space 32%N) by reflexivity. reflexivity.
      * rewrite (IH (d :: s'') (c :: cur)) by lia. simpl rev.
        rewrite <- app_assoc. reflexivity.
Qed.

Lemma visible_concat_map (f : str -> str) (l : list str) :
  (forall x, visible (f x) = visible x) ->
  visible (List.concat (map f l)) = visible (List.concat l).
Proof.
  intros H. induction l as [|a l IH]; [reflexivity|]. simpl.
  rewrite !visible_app, H, IH. reflexivity.
Qed.

Lemma visible_concat_flat_map (f : str -> list str) (l : list str) :
  (forall x, visible (List.concat (f x)) = visible x) ->
  visible (List.concat (flat_map f l)) = visible (List.concat l).
Proof.
  intros H. induction l as [|a l IH]; [reflexivity|]. simpl.
  rewrite concat_app, !visible_app, H, IH. reflexivity.
Qed.

Lemma concat_nonempty (l : list str) :
  List.concat (filter (fun chunk => negb (str_eqb chunk [])) l)
  = List.concat l.
Proof.
  induction l as [|a l IH]; [reflexivity|]. simpl.
  destruct a as [|c a]; simpl; [exact IH|]. rewrite IH. reflexivity.
Qed.

Lemma visible_join (l : list str) :
  visible (join [10%N] l) = visible (List.concat l).
Proof.
  induction l as [|p l IH]; [reflexivity|].
  destruct l as [|q l].
  - simpl. rewrite app_nil_r. reflexivity.
  - rewrite join_cons. simpl List.concat in *.
    rewrite !visible_app, IH, visible_app.
    rewrite (visible_space 10%N []) by reflexivity. reflexivity.
Qed.

Lemma clean_whitespace_visible (text : str) :
  visible (clean_whitespace text) = visible text.
Proof.
  unfold clean_whitespace.
  rewrite visible_join, concat_nonempty, visible_concat_flat_map.
  - rewrite (visible_concat_map strip) by apply visible_strip.
    apply (visible_splitlines_from _ text [] (le_n _)).
  - intros line.
    rewrite (visible_concat_map strip) by apply visible_strip.
    apply (visible_split2sp_from _ line [] (le_n _)).
Qed.

(** X12.  The clean-up removes and adds whitespace only: the characters
    of the text that are no whitespace come out all, once, and in their
    order.  So does the text made of a page that is not cut: it holds the
    characters of the page that are no whitespace and stand outside script
    and style elements, and no other. *)
Theorem clean_whitespace_keeps_visible (text : str) :
  visible (clean_whitespace text) = visible text /\
  forall soup,
    (List.length (extracted_text soup) <= 5000)%nat ->
    visible (page_text soup)
    = visible (Html.get_text (Html.decompose_scripts soup)).
Proof.
  split; [apply clean_whitespace_visible|].
  intros soup H. unfold page_text.
  rewrite (proj2 (limit_length_spec _) H).
  apply clean_whitespace_visible.
Qed.

Lemma chunks_nonempty (text : str) :
  Forall (fun chunk => chunk <> [])
    (filter (fun chunk => negb (str_eqb chunk []))
       (flat_map (fun line => map strip (split2sp line))
          (map strip (splitlines text)))).
Proof.
  apply Forall_forall. intros chunk Hin.
  apply filter_In in Hin as [_ Hne]. intros ->. discriminate.
Qed.

(** The last chunk closes the joined text. *)
Lemma join_ends_hard (chunks : list str) :
  Forall good_chunk chunks -> chunks <> [] ->
  ends_hard (join [10%N] chunks) = true.
Proof.
  induction 1 as [|p rest (Hs & He & Hp) Hrest IH]; [congruence|].
  intros _. destruct rest as [|q rest]; [exact He|].
  rewrite join_cons, app_assoc.
  assert (N : join [10%N] (q :: rest) <> []).
  { inversion Hrest as [|? ? (Hq & _) _]; subst.
    destruct q; [discriminate|].
    destruct rest; simpl; discriminate. }
  rewrite (ends_hard_app _ _ N). apply IH. discriminate.
Qed.

Lemma clean_whitespace_trimmed (text : str) :
  clean_whitespace text = [] \/
  (starts_hard (clean_whitespace text) = true /\
   ends_hard (clean_whitespace text) = true).
Proof.
  unfold clean_whitespace.
  pose proof (chunks_good text) as G.
  destruct (filter _ _) as [|p rest] eqn:E; [left; reflexivity|right].
  split.
  - apply (proj2 (join_good _ G)). discriminate.
  - apply (join_ends_hard _ G). discriminate.
Qed.

Lemma visible_nil_not_hard (s : str) :
  visible s = [] -> starts_hard s = false.
Proof.
  destruct s as [|c s]; [reflexivity|]. intros H. simpl.
  destruct (isspace c) eqn:E; [reflexivity|].
  rewrite (visible_hard c s E) in H. discriminate.
Qed.

Lemma clean_whitespace_nil (text : str) :
  clean_whitespace text = [] <-> visible text = [].
Proof.
  split.
  - intros H. rewrite <- clean_whitespace_visible, H. reflexivity.
  - intros H. rewrite <- clean_whitespace_visible in H.
    destruct (clean_whitespace_trimmed text) as [E|[S _]]; [exact E|].
    rewrite (visible_nil_not_hard _ H) in S. discriminate.
Qed.

Lemma limit_length_nil (text : str) :
  limit_length text = [] <-> text = [].
Proof.
  unfold limit_length. split.
  - destruct (5000 <? List.length text)%nat; [|auto].
    intros H. apply app_eq_nil in H as [_ H]. discriminate.
  - intros ->. reflexivity.
Qed.

(** X13.  The text made of a page is empty exactly when the page, its
    script and style elements apart, holds nothing but whitespace. *)
Theorem page_text_empty_iff (soup : list Html.node) :
  page_text soup = [] <->
  visible (Html.get_text (Html.decompose_scripts soup)) = [].
Proof.
  unfold page_text, extracted_text.
  rewrite limit_length_nil. apply clean_whitespace_nil.
Qed.

Lemma limit_length_trimmed (t : str) :
  starts_hard t = true -> ends_hard t = true ->
  starts_hard (limit_length t) = true /\ ends_hard (limit_length t) = true.
Proof.
  intros S F. unfold limit_length.
  destruct (5000 <? List.length t)%nat eqn:L; [|auto].
  destruct t as [|c t']; [discriminate|]. split.
  - exact S.
  - rewrite ends_hard_app by discriminate. reflexivity.
Qed.

(** X14.  The text made of a page never begins or ends with whitespace:
    it is empty, or its first and its last character are no whitespace,
    cut or not. *)
Theorem page_text_trimmed (soup : list Html.node) :
  page_text soup = [] \/
  (starts_hard (page_text soup) = true /\
   ends_hard (page_text soup) = true).
Proof.
  unfold page_text, extracted_text.
  destruct (clean_whitespace_trimmed
              (Html.get_text (Html.decompose_scripts soup))) as [E|[S F]].
  - left. rewrite E. reflexivity.
  - right. apply limit_length_trimmed; assumption.
Qed.

(** X15.  The text made of a page has at most 5003 characters, and the
    cut changes nothing before the 5000th: the first 5000 characters of
    the result are the first 5000 of the cleaned text. *)
Theorem page_text_bounded (soup : list Html.node) :
  (List.length (page_text soup) <= 5000 + 3)%nat /\
  firstn 5000 (page_text soup) = firstn 5000 (extracted_text soup).
Proof.
  unfold page_text, limit_length.
  destruct (5000 <? List.length (extracted_text soup))%nat eqn:L.
  - apply Nat.ltb_lt in L. split.
    + rewrite length_app, length_firstn.
      change (List.length (py "...")) with 3%nat. lia.
    + rewrite firstn_app, length_firstn.
      replace (5000 - Nat.min 5000 (List.length (extracted_text soup)))%nat
        with 0%nat by lia.
      rewrite firstn_firstn. simpl. rewrite app_nil_r.
      reflexivity.
  - apply Nat.ltb_ge in L. split; [lia|reflexivity].
Qed.

End CleanUpKeeps.

(** ** The clean-up of whitespace: a second pass changes nothing *)

Section CleanUpTwice.

Import Context7.

Lemma chunks_clean (text : str) :
  Forall clean_chunk
    (filter (fun chunk => negb (str_eqb chunk []))
       (flat_map (fun line => map strip (split2sp line))
          (map strip (splitlines text)))).
Proof.
  apply Forall_forall. intros chunk Hin.
  apply filter_In in Hin as [Hin Hne].
  apply in_flat_map in Hin as (line & Hline & Hin).
  apply in_map_iff in Hin as (piece & <- & Hpiece).
  apply in_map_iff in Hline as (l0 & <- & Hl0).
  assert (strip piece <> []) as Hne'.
  { intros E. rewrite E in Hne. discriminate. }
  pose proof (splitlines_from_lines _ text [] (le_n _) (Forall_nil _)) as HL.
  rewrite Forall_forall in HL. specialize (HL _ Hl0).
  apply Forall_strip in HL.
  pose proof (split2sp_from_Forall _ _ (strip l0) [] (le_n _)
                (Forall_nil _) HL) as HP.
  rewrite Forall_forall in HP. specialize (HP _ Hpiece).
  pose proof (split2sp_from_pieces _ (strip l0) [] (le_n _) eq_refl I) as HD.
  rewrite Forall_forall in HD. specialize (HD _ Hpiece).
  destruct (strip_hard piece Hne') as [Hs He].
  repeat split; [exact Hs | exact He | |].
  - apply Forall_strip. exact HP.
  - apply no_adjacent_strip. exact HD.
Qed.

Lemma lstrip_fixed (s : str) : starts_hard s = true -> lstrip s = s.
Proof.
  destruct s as [|c s]; [reflexivity|]. simpl.
  destruct (isspace c); [discriminate|reflexivity].
Qed.

Lemma strip_fixed (s : str) :
  starts_hard s = true -> ends_hard s = true -> strip s = s.
Proof.
  intros S F. unfold strip. rewrite (lstrip_fixed s S).
  rewrite (lstrip_fixed (rev s) F). apply rev_involutive.
Qed.

Lemma split2sp_from_fixed (s : str) :
  forall cur,
    no_adjacent double_space s = true ->
    split2sp_from cur s = [rev cur ++ s].
Proof.
  induction s as [|c s IH]; intros cur H.
  - simpl. rewrite app_nil_r. reflexivity.
  - destruct s as [|d s''].
    + reflexivity.
    + rewrite split2sp_from_cons. rewrite no_adjacent_cons in H.
      apply andb_prop in H as [Hcd H]. unfold double_space in Hcd.
      apply negb_true_iff in Hcd. rewrite Hcd, (IH (c :: cur) H).
      simpl rev. rewrite <- app_assoc. reflexivity.
Qed.

Lemma splitlines_from_run (c : str) :
  forall cur rest,
    Forall (fun x => islinebreak x = false) c ->
    splitlines_from cur (c ++ rest) = splitlines_from (rev c ++ cur) rest.
Proof.
  induction c as [|x c IH]; intros cur rest H; [reflexivity|].
  inversion H as [|? ? Hx Hc]; subst.
  rewrite <- app_comm_cons, splitlines_from_cons, Hx, (IH _ _ Hc).
  simpl rev. rewrite <- app_assoc. reflexivity.
Qed.

Lemma splitlines_from_end (cur : str) :
  cur <> [] -> splitlines_from cur [] = [rev cur].
Proof. destruct cur; [congruence|reflexivity]. Qed.

Lemma clean_chunk_cons (chunk : str) :
  clean_chunk chunk -> exists c t, chunk = c :: t.
Proof.
  intros (S & _). destruct chunk as [|c t]; [discriminate|eauto].
Qed.

Lemma splitlines_join (chunks : list str) :
  Forall clean_chunk chunks -> splitlines (join [10%N] chunks) = chunks.
Proof.
  unfold splitlines.
  induction 1 as [|p rest Hp Hrest IH]; [reflexivity|].
  pose proof Hp as (_ & _ & Hb & _).
  destruct (clean_chunk_cons p Hp) as (p0 & p' & Ep).
  destruct rest as [|q rest].
  - simpl join. rewrite <- (app_nil_r p) at 1.
    rewrite (splitlines_from_run p [] [] Hb), app_nil_r.
    rewrite splitlines_from_end, rev_involutive; [reflexivity|].
    rewrite Ep. simpl. intros E. apply app_eq_nil in E as [_ E].
    discriminate.
  - rewrite join_cons.
    pose proof (Forall_inv Hrest) as Hq.
    destruct (clean_chunk_cons q Hq) as (q0 & q' & Eq).
    assert (J : exists j J', join [10%N] (q :: rest) = j :: J').
    { rewrite Eq. destruct rest; simpl; eauto. }
    destruct J as (j & J' & EJ).
    rewrite (splitlines_from_run p [] _ Hb), app_nil_r.
    change ([10%N] ++ join [10%N] (q :: rest))
      with (10%N :: join [10%N] (q :: rest)).
    rewrite splitlines_from_cons. change (islinebreak 10) with true.
    cbv iota. rewrite EJ at 1.
    change ((10 =? 13)%N) with false. cbv iota. simpl andb. cbv iota.
    rewrite rev_involutive, IH. reflexivity.
Qed.

Lemma rechunk_fixed (chunks : list str) :
  Forall clean_chunk chunks ->
  filter (fun chunk => negb (str_eqb chunk []))
    (flat_map (fun line => map strip (split2sp line)) (map strip chunks))
  = chunks.
Proof.
  induction 1 as [|p rest Hp Hrest IH]; [reflexivity|].
  pose proof Hp as (S & F & _ & D).
  destruct (clean_chunk_cons p Hp) as (p0 & p' & Ep).
  simpl map. simpl flat_map. rewrite (strip_fixed p S F).
  unfold split2sp. rewrite (split2sp_from_fixed p [] D).
  simpl rev. simpl app. simpl map. rewrite (strip_fixed p S F).
  simpl app. simpl filter.
  rewrite Ep at 1. simpl str_eqb. simpl negb. cbv iota.
  f_equal. exact IH.
Qed.

Lemma clean_whitespace_join (chunks : list str) :
  Forall clean_chunk chunks ->
  clean_whitespace (join [10%N] chunks) = join [10%N] chunks.
Proof.
  intros H. unfold clean_whitespace at 1.
  rewrite (splitlines_join chunks H), (rechunk_fixed chunks H).
  reflexivity.
Qed.

(** X16.  The clean-up is idempotent: cleaning a text that has been
    cleaned gives it back unchanged.  Its lines are the chunks of the
    first pass, and no chunk holds anything the second pass would cut or
    strip. *)
Theorem clean_whitespace_idempotent (text : str) :
  clean_whitespace (clean_whitespace text) = clean_whitespace text.
Proof.
  unfold clean_whitespace at 2 3.
  apply clean_whitespace_join, chunks_clean.
Qed.

End CleanUpTwice.

(** ** The removal of script and style elements: what it leaves alone *)

Section DecomposeKeeps.

Import Html.

Lemma forest_fixed (l : list node) :
  Forall (fun n => existsb is_script_element (n :: descendants n) = false ->
                   decompose_node n = [n]) l ->
  existsb is_script_element (all_nodes l) = false ->
  flat_map decompose_node l = l.
Proof.
  unfold all_nodes.
  induction 1 as [|n l Hn _ IH]; [reflexivity|].
  cbn [flat_map]. rewrite existsb_app. intros H.
  apply orb_false_iff in H as [H1 H2].
  rewrite (Hn H1), (IH H2). reflexivity.
Qed.

Lemma decompose_node_fixed (n : node) :
  existsb is_script_element (n :: descendants n) = false ->
  decompose_node n = [n].
Proof.
  induction n as [s|s|name attrs children IH] using node_ind_forest;
    [reflexivity|reflexivity|].
  cbn [existsb is_script_element descendants decompose_node].
  intros H. apply orb_false_iff in H as [H1 H2]. rewrite H1.
  rewrite (forest_fixed children IH H2). reflexivity.
Qed.

Lemma decompose_scripts_fixed (soup : list node) :
  has_script_or_style soup = false -> decompose_scripts soup = soup.
Proof.
  unfold has_script_or_style, decompose_scripts. apply forest_fixed.
  apply Forall_forall. intros n _. apply decompose_node_fixed.
Qed.

(** X17.  The removal of script and style elements changes a tree exactly
    when the tree holds such an element, at whatever depth; and a second
    removal changes nothing. *)
Theorem decompose_scripts_fixed_iff (soup : list node) :
  (decompose_scripts soup = soup <-> has_script_or_style soup = false) /\
  decompose_scripts (decompose_scripts soup) = decompose_scripts soup.
Proof.
  split; [split|].
  - intros H. rewrite <- H. apply decompose_scripts_clean.
  - apply decompose_scripts_fixed.
  - apply decompose_scripts_fixed, decompose_scripts_clean.
Qed.

End DecomposeKeeps.

(** ** The quick search *)

Section QuickSearch.

Import Models Agent.

Lemma fold_left_lines (l : list (nat * str)) :
  forall acc,
    fold_left
      (fun summary '(i, finding) =>
         summary ++ [10%N] ++ str_of_nat i ++ py ". " ++ finding) l acc
    = acc ++ List.concat
               (map (fun '(i, finding) =>
                       [10%N] ++ str_of_nat i ++ py ". " ++ finding) l).
Proof.
  induction l as [|[i finding] l IH]; intros acc.
  - simpl. rewrite app_nil_r. reflexivity.
  - cbn [fold_left map List.concat]. rewrite IH, <- app_assoc.
    reflexivity.
Qed.

Lemma enumerate_split {A} (l : list A) (d : A) (i start : nat) :
  (i < List.length l)%nat ->
  enumerate l start
  = enumerate (firstn i l) start
    ++ (start + i, nth i l d)%nat :: enumerate (skipn (S i) l) (start + S i).
Proof.
  unfold enumerate. revert l start.
  induction i as [|i IH]; intros l start H.
  - destruct l as [|x l]; [simpl in H; lia|]. simpl.
    rewrite Nat.add_0_r, Nat.add_1_r. reflexivity.
  - destruct l as [|x l]; [simpl in H; lia|]. simpl in H.
    cbn [List.length seq combine firstn skipn nth app].
    rewrite (IH l (S start)) by lia.
    rewrite !Nat.add_succ_r. reflexivity.
Qed.

Lemma quick_search_text_lines (findings : ResearchFindings) :
  quick_search_text findings =
  (py "
Research Query: " ++ query findings ++ py "

Summary:
" ++ summary findings ++ py "

Key Findings:
")
  ++ List.concat
       (map (fun '(i, finding) =>
               [10%N] ++ str_of_nat i ++ py ". " ++ finding)
            (enumerate (key_findings findings) 1))
  ++ py "

Sources: " ++ join (py ", ") (sources findings).
Proof.
  unfold quick_search_text. rewrite fold_left_lines, <- !app_assoc.
  reflexivity.
Qed.

(** X18.  In the text of the quick search every finding has its own line
    between the heading and the sources: a line feed, the position of the
    finding counted from 1, in decimal, a full stop and a space, and the
    finding itself.  The sources close the text, joined by a comma and a
    space. *)
Theorem quick_search_numbers_findings (findings : ResearchFindings)
        (i : nat) :
  (i < List.length (key_findings findings))%nat ->
  exists before after,
    quick_search_text findings =
    (py "
Research Query: " ++ query findings ++ py "

Summary:
" ++ summary findings ++ py "

Key Findings:
" ++ before)
    ++ ([10%N] ++ str_of_nat (S i) ++ py ". "
        ++ nth i (key_findings findings) [])
    ++ (after ++ py "

Sources: " ++ join (py ", ") (sources findings)).
Proof.
  intros H. rewrite quick_search_text_lines.
  rewrite (enumerate_split (key_findings findings) [] i 1 H).
  rewrite map_app, concat_app. cbn [map List.concat].
  exists (List.concat
            (map (fun '(i, finding) =>
                    [10%N] ++ str_of_nat i ++ py ". " ++ finding)
                 (enumerate (firstn i (key_findings findings)) 1))).
  exists (List.concat
            (map (fun '(i, finding) =>
                    [10%N] ++ str_of_nat i ++ py ". " ++ finding)
                 (enumerate (skipn (S i) (key_findings findings))
                    (1 + S i)))).
  rewrite <- !app_assoc. reflexivity.
Qed.

(** X18 at the second of two findings. *)
Lemma quick_search_numbers_findings_witness :
  exists before after,
    quick_search_text
      {| query := py "q"; summary := py "s";
         key_findings := [py "first"; py "second"];
         sources := [py "a"; py "b"]; timestamp := [] |} =
    (py "
Research Query: " ++ py "q" ++ py "

Summary:
" ++ py "s" ++ py "

Key Findings:
" ++ before)
    ++ ([10%N] ++ py "2" ++ py ". " ++ py "second")
    ++ (after ++ py "

Sources: " ++ py "a, b").
Proof.
  apply (quick_search_numbers_findings
           {| query := py "q"; summary := py "s";
              key_findings := [py "first"; py "second"];
              sources := [py "a"; py "b"]; timestamp := [] |} 1).
  simpl. lia.
Defined.


(** The text of the quick search for two findings and two sources. *)
Example quick_search_scenario :
  quick_search
    (Samples.replying
       (js "{'query': 'q', 'summary': 's', 'key_findings': ['first', 'second'], 'sources': ['a', 'b']}"))
    (py "asked")
  = Ret (py "
Research Query: q

Summary:
s

Key Findings:

1. first
2. second

Sources: a, b").
Proof. vm_compute. reflexivity. Qed.

End QuickSearch.

(** ** The interactive session *)

Section Session.

Import Models Agent Console.

Lemma lowers_to_apart (x y c : N) :
  x <> y -> (x + 32)%N <> y -> (y + 32)%N <> x -> x <> 107%N ->
  (x < 128)%N ->
  lowers_to x c = true -> lowers_to y c = false.
Proof.
  unfold lowers_to. intros H1 H2 H3 H4 H5 H.
  destruct (N.eqb_spec x 107); [contradiction|].
  rewrite andb_false_l, orb_false_r in H.
  apply orb_prop in H as [H|H]; apply N.eqb_eq in H; subst.
  - destruct (N.eqb_spec x y); [contradiction|].
    destruct (N.eqb_spec (x + 32) y); [contradiction|].
    destruct (N.eqb_spec x 8490); [|rewrite andb_false_r; reflexivity].
    destruct (N.eqb_spec y 107); [|reflexivity]. subst. lia.
  - destruct (N.eqb_spec c y); [lia|].
    destruct (N.eqb_spec (c + 32) y); [contradiction|].
    destruct (N.eqb_spec c 8490); [|rewrite andb_false_r; reflexivity].
    destruct (N.eqb_spec y 107); [|reflexivity]. subst. lia.
Qed.

(** A command is no blank line. *)
Lemma command_truthy (s : str) :
  lower_in s commands = true -> negb (truthy (PStr s)) = false.
Proof.
  destruct s; [discriminate|reflexivity].
Qed.

(** A command is no consent. *)
Lemma command_not_consent (s : str) :
  lower_in s commands = true -> lower_in s consent = false.
Proof.
  destruct s as [|c [|d [|e [|f [|g s]]]]]; cbn -[lowers_to];
    rewrite ?andb_true_r, ?andb_false_r, ?orb_false_r; cbn -[lowers_to];
    try discriminate; try reflexivity.
  apply lowers_to_apart; lia.
Qed.

Lemma loop_quit (world : nat -> Env) (q : str) (post : list str) (n : nat) :
  lower_in (strip q) commands = true ->
  forall pre calls,
    (List.length pre <= n)%nat ->
    loop world (pre ++ q :: post) calls = loop world (pre ++ [q]) calls /\
    fst (fst (loop world (pre ++ [q]) calls)) = Ret tt.
Proof.
  intros Hq. pose proof (command_truthy _ Hq) as Ht.
  pose proof (command_not_consent _ Hq) as Hc.
  induction n as [|n IH]; intros pre calls Hn.
  - destruct pre; [|simpl in Hn; lia].
    cbn [app loop]. rewrite Ht, Hq. auto.
  - destruct pre as [|line pre].
    { cbn [app loop]. rewrite Ht, Hq. auto. }
    simpl in Hn. cbn [app loop].
    destruct (negb (truthy (PStr (strip line)))).
    { destruct (IH pre calls ltac:(lia)) as [-> E].
      destruct (loop world (pre ++ [q]) calls) as [[r k] t]. auto. }
    destruct (lower_in (strip line) commands); [auto|].
    destruct (research (world calls) (strip line) 5) as [results|e].
    + destruct pre as [|a pre]; cbn [app].
      * rewrite Hc. simpl negb. cbv iota. auto.
      * destruct (negb (lower_in (strip a) consent)); [auto|].
        simpl in Hn.
        destruct (IH pre (S calls) ltac:(lia)) as [-> E].
        destruct (loop world (pre ++ [q]) (S calls)) as [[r k] t]. auto.
    + destruct pre as [|a pre]; cbn [app].
      * rewrite Hc. simpl negb. cbv iota. auto.
      * destruct (negb (lower_in (strip a) consent)); [auto|].
        simpl in Hn.
        destruct (IH pre (S calls) ltac:(lia)) as [-> E].
        destruct (loop world (pre ++ [q]) (S calls)) as [[r k] t]. auto.
Qed.

Lemma research_count_app (a b : list action) :
  research_count (a ++ b) = (research_count a + research_count b)%nat.
Proof. unfold research_count. rewrite filter_app, length_app. reflexivity. Qed.

Lemma input_count_app (a b : list action) :
  input_count (a ++ b) = (input_count a + input_count b)%nat.
Proof. unfold input_count. rewrite filter_app, length_app. reflexivity. Qed.

(** A list of prints holds no call and no read. *)
Lemma prints_quiet (t : list action) :
  Forall (fun a => exists s, a = Print s) t ->
  research_count t = 0%nat /\ input_count t = 0%nat /\
  forall inputs, Forall (proper_call inputs) t.
Proof.
  induction 1 as [|a t [s ->] _ (R & I & P)].
  - repeat split. constructor.
  - repeat split; [exact R|exact I|].
    intros inputs. constructor; [exact Logic.I|apply P].
Qed.

Lemma numbered_prints (l : list (nat * str)) :
  Forall (fun a => exists s, a = Print s)
    (map (fun '(i, x) => Print (py "  " ++ str_of_nat i ++ py ". " ++ x)) l).
Proof.
  induction l as [|[i x] l IH]; constructor; eauto.
Qed.

Lemma show_results_prints (results : ResearchFindings) :
  Forall (fun a => exists s, a = Print s) (show_results results).
Proof.
  unfold show_results.
  repeat (apply Forall_app; split);
    try apply numbered_prints; repeat constructor; eauto.
Qed.

Lemma show_error_prints (env : Env) (e : exn) :
  Forall (fun a => exists s, a = Print s) (show_error env e).
Proof. unfold show_error. repeat constructor; eauto. Qed.

Lemma proper_call_more (line : str) (inputs : list str) (t : list action) :
  Forall (proper_call inputs) t -> Forall (proper_call (line :: inputs)) t.
Proof.
  apply Forall_impl. intros [s|z|p|q m]; simpl; auto.
  intros (Hm & l & Hin & H). split; [exact Hm|].
  exists l. split; [right; exact Hin|exact H].
Qed.

Ltac tally :=
  rewrite ?research_count_app, ?input_count_app;
  repeat match goal with
         | |- context [research_count (show_results ?r)] =>
             rewrite (proj1 (prints_quiet _ (show_results_prints r)))
         | |- context [input_count (show_results ?r)] =>
             rewrite (proj1 (proj2 (prints_quiet _ (show_results_prints r))))
         | |- context [research_count (show_error ?v ?e)] =>
             rewrite (proj1 (prints_quiet _ (show_error_prints v e)))
         | |- context [input_count (show_error ?v ?e)] =>
             rewrite (proj1 (proj2 (prints_quiet _ (show_error_prints v e))))
         end;
  unfold research_count, input_count in *;
  cbn [filter is_research is_input List.length app].

Ltac calls_ok :=
  repeat match goal with
         | |- Forall _ (_ ++ _) => apply Forall_app; split
         | |- Forall _ (show_results ?r) =>
             apply (proj2 (proj2 (prints_quiet _ (show_results_prints r))))
         | |- Forall _ (show_error ?v ?e) =>
             apply (proj2 (proj2 (prints_quiet _ (show_error_prints v e))))
         | |- Forall _ (_ :: _) => constructor
         | |- Forall _ [] => constructor
         | |- proper_call _ (Print _) => exact I
         | |- proper_call _ (Sleep _) => exact I
         | |- proper_call _ (Input _) => exact I
         end.

Lemma loop_invariants (world : nat -> Env) (n : nat) :
  forall inputs calls,
    (List.length inputs <= n)%nat ->
    let '(r, k, t) := loop world inputs calls in
    k = (calls + research_count t)%nat /\
    (2 * research_count t <= List.length inputs + 1)%nat /\
    Forall (proper_call inputs) t /\
    match r with
    | Ret _ => (input_count t <= List.length inputs)%nat
    | Raise e =>
        e = EOFError /\
        (List.length inputs < input_count t <= List.length inputs + 2)%nat
    end.
Proof.
  induction n as [|n IH]; intros inputs calls Hn.
  - destruct inputs; [|simpl in Hn; lia]. cbn [loop].
    tally. repeat split; try lia. calls_ok.
  - destruct inputs as [|line inputs].
    { cbn [loop]. tally. repeat split; try lia. calls_ok. }
    simpl in Hn. cbn [loop].
    destruct (negb (truthy (PStr (strip line)))) eqn:Eb.
    { assert (Hn' : (List.length inputs <= n)%nat) by lia.
      specialize (IH inputs calls Hn').
      destruct (loop world inputs calls) as [[r' k'] t'].
      destruct IH as (Hk & Hr & Hp & Hi).
      tally. repeat split; try lia.
      - calls_ok. apply proper_call_more, Hp.
      - destruct r' as [u|e]; [lia|].
        destruct Hi as [-> Hi]. split; [reflexivity|lia]. }
    destruct (lower_in (strip line) commands) eqn:Ec.
    { tally. repeat split; try lia. calls_ok. }
    assert (Hcall : proper_call (line :: inputs) (Research (strip line) 5)).
    { split; [reflexivity|]. exists line. split; [left; reflexivity|].
      split; [reflexivity|]. split; [|exact Ec].
      intros E0. rewrite E0 in Eb. discriminate. }
    destruct (research (world calls) (strip line) 5) as [results|e].
    + destruct inputs as [|a inputs].
      * tally. repeat split; try lia. calls_ok. exact Hcall.
      * destruct (negb (lower_in (strip a) consent)).
        { tally. repeat split; try lia. calls_ok. exact Hcall. }
        simpl in Hn.
        assert (Hn' : (List.length inputs <= n)%nat) by lia.
        specialize (IH inputs (S calls) Hn').
        destruct (loop world inputs (S calls)) as [[r' k'] t'].
        destruct IH as (Hk & Hr & Hp & Hi).
        tally. repeat split; try lia.
        -- calls_ok; [exact Hcall|].
           apply proper_call_more, proper_call_more, Hp.
        -- destruct r' as [u|e]; [lia|].
           destruct Hi as [-> Hi]. split; [reflexivity|lia].
    + destruct inputs as [|a inputs].
      * tally. repeat split; try lia. calls_ok. exact Hcall.
      * destruct (negb (lower_in (strip a) consent)).
        { tally. repeat split; try lia. calls_ok. exact Hcall. }
        simpl in Hn.
        assert (Hn' : (List.length inputs <= n)%nat) by lia.
        specialize (IH inputs (S calls) Hn').
        destruct (loop world inputs (S calls)) as [[r' k'] t'].
        destruct IH as (Hk & Hr & Hp & Hi).
        tally. repeat split; try lia.
        -- calls_ok; [exact Hcall|].
           apply proper_call_more, proper_call_more, Hp.
        -- destruct r' as [u|e']; [lia|].
           destruct Hi as [-> Hi]. split; [reflexivity|lia].
Qed.

(** X20.  A command always ends the session.  Wherever a line that reads
    quit, exit or q (in any case, with any blanks around it) stands in the
    input, as a topic or as the answer to a question, the program returns
    without reading a line after it, provided the agent could be built:
    what follows the command changes nothing. *)
Theorem quit_always_ends (world : nat -> Env) (pre : list str) (q : str)
        (post : list str) :
  lower_in (strip q) commands = true ->
  main world (Ret tt) (pre ++ q :: post) = main world (Ret tt) (pre ++ [q]) /\
  fst (main world (Ret tt) (pre ++ [q])) = Returned.
Proof.
  intros Hq.
  destruct (loop_quit world q post _ Hq pre 0%nat (le_n _)) as [E R].
  unfold main, interactive_research. rewrite E.
  destruct (loop world (pre ++ [q]) 0) as [[r k] t].
  simpl in R. subst r. auto.
Qed.

(** X20 at a session of one topic, a consent, and the command in capitals. *)
Lemma quit_always_ends_witness :
  main (fun _ => Samples.offline) (Ret tt)
    ([py "rust"; py "y"] ++ py " QUIT " :: [py "never read"])
  = main (fun _ => Samples.offline) (Ret tt)
      ([py "rust"; py "y"] ++ [py " QUIT "]) /\
  fst (main (fun _ => Samples.offline) (Ret tt)
         ([py "rust"; py "y"] ++ [py " QUIT "])) = Returned.
Proof.
  apply (quit_always_ends (fun _ => Samples.offline)
           [py "rust"; py "y"] (py " QUIT ") [py "never read"]).
  vm_compute. reflexivity.
Defined.

(** X21.  Every research call of a session has the limit 5 and asks for a
    line of the input, stripped, that is neither blank nor a command; and
    since each call but the last is followed by the reading of an answer,
    a session of [n] lines makes at most [(n + 1) / 2] calls. *)
Theorem session_calls (world : nat -> Env) (init : outcome unit)
        (inputs : list str) :
  Forall (proper_call inputs) (snd (main world init inputs)) /\
  (2 * research_count (snd (main world init inputs))
   <= List.length inputs + 1)%nat.
Proof.
  unfold main, interactive_research.
  destruct init as [u|e].
  - pose proof (loop_invariants world _ inputs 0%nat (le_n _)) as H.
    destruct (loop world inputs 0) as [[r k] t].
    destruct H as (_ & Hr & Hp & _).
    destruct r as [v|e]; cbn [snd]; tally; split; try lia; calls_ok;
      exact Hp.
  - cbn [snd]. tally. split; [calls_ok|lia].
Qed.

(** X22.  A fault of the research never ends the program.  It calls
    [sys.exit], with the code 1, in two cases only: the agent could not be
    built, and then nothing was read and nothing researched; or the input
    had no line left for a read.  When it returns, every read was
    served. *)
Theorem exit_only_at_end_of_input (world : nat -> Env)
        (init : outcome unit) (inputs : list str) :
  match fst (main world init inputs) with
  | Returned =>
      (input_count (snd (main world init inputs))
       <= List.length inputs)%nat
  | Exit code =>
      code = 1%Z /\
      ((exists e, init = Raise e /\
                  input_count (snd (main world init inputs)) = 0%nat /\
                  research_count (snd (main world init inputs)) = 0%nat) \/
       (exists u, init = Ret u /\
                  (List.length inputs
                   < input_count (snd (main world init inputs)))%nat))
  end.
Proof.
  unfold main, interactive_research.
  destruct init as [u|e].
  - pose proof (loop_invariants world _ inputs 0%nat (le_n _)) as H.
    destruct (loop world inputs 0) as [[r k] t].
    destruct H as (_ & _ & _ & Hi).
    destruct r as [v|e]; cbn [fst snd]; tally.
    + exact Hi.
    + split; [reflexivity|]. right. exists u. split; [reflexivity|].
      destruct Hi as [_ Hi]. lia.
  - cbn [fst snd]. split; [reflexivity|]. left. exists e.
    repeat split.
Qed.

End Session.

(** ** The clean-up of whitespace, run by run *)

Section CleanUpExact.

Import Context7.

Lemma clean_whitespace_chunks (text : str) :
  clean_whitespace text = join [10%N] (text_chunks text).
Proof.
  unfold clean_whitespace, text_chunks. f_equal.
  induction (splitlines text) as [|line lines IH]; [reflexivity|].
  simpl. rewrite filter_app, IH. reflexivity.
Qed.

Lemma lstrip_space (c : N) (s : str) :
  isspace c = true -> lstrip (c :: s) = lstrip s.
Proof. intros H. simpl. rewrite H. reflexivity. Qed.

Lemma lstrip_all (W s : str) :
  Forall (fun c => isspace c = true) W -> lstrip (W ++ s) = lstrip s.
Proof.
  induction 1 as [|c W Hc _ IH]; [reflexivity|].
  simpl app. rewrite (lstrip_space c _ Hc). exact IH.
Qed.

Lemma lstrip_split (s : str) :
  exists W, s = W ++ lstrip s /\ Forall (fun c => isspace c = true) W.
Proof.
  induction s as [|c s (W & E & F)]; [exists []; auto|].
  simpl. destruct (isspace c) eqn:Ec.
  - exists (c :: W). split; [simpl; f_equal; exact E|constructor; assumption].
  - exists []. auto.
Qed.

Lemma lstrip_app_l (x y : str) :
  lstrip x <> [] -> lstrip (x ++ y) = lstrip x ++ y.
Proof.
  induction x as [|c x IH]; [simpl; congruence|]. simpl.
  destruct (isspace c); [exact IH|reflexivity].
Qed.

Lemma strip_space (c : N) (s : str) :
  isspace c = true -> strip (c :: s) = strip s.
Proof. intros H. unfold strip. rewrite (lstrip_space c s H). reflexivity. Qed.

Lemma strip_trailing (p W : str) :
  starts_hard p = true -> ends_hard p = true ->
  Forall (fun c => isspace c = true) W ->
  strip (p ++ W) = p.
Proof.
  intros S E F. unfold strip.
  assert (p <> []) as Hp by (intros ->; discriminate).
  rewrite (lstrip_fixed (p ++ W)) by (rewrite starts_hard_app; assumption).
  rewrite rev_app_distr, lstrip_all by (apply Forall_rev; exact F).
  rewrite (lstrip_fixed (rev p) E). apply rev_involutive.
Qed.

Lemma starts_hard_visible (s : str) :
  starts_hard s = true -> visible s <> [].
Proof.
  destruct s as [|c s]; [discriminate|]. intros H. simpl in H.
  apply negb_true_iff in H. rewrite (visible_hard c s H). discriminate.
Qed.

Lemma strip_app_hard (a b : str) :
  starts_hard a = true -> starts_hard b = true ->
  strip (a ++ b) = a ++ strip b.
Proof.
  intros A B. unfold strip.
  assert (a <> []) as Ha by (intros ->; discriminate).
  rewrite (lstrip_fixed (a ++ b)) by (rewrite starts_hard_app; assumption).
  rewrite (lstrip_fixed b B), rev_app_distr.
  rewrite lstrip_app_l.
  - rewrite rev_app_distr, rev_involutive. reflexivity.
  - intros E. apply (starts_hard_visible b B).
    rewrite <- (rev_involutive b), visible_rev, <- visible_lstrip, E.
    reflexivity.
Qed.

(** A piece without line boundary goes into the first line of what
    follows. *)
Lemma splitlines_from_first (s : str) :
  forall cur,
    splitlines_from cur s =
    match splitlines_from [] s with
    | [] => match cur with [] => [] | _ => [rev cur] end
    | l :: r => (rev cur ++ l) :: r
    end.
Proof.
  induction s as [|c s IH]; intros cur.
  - simpl. destruct cur; reflexivity.
  - rewrite !splitlines_from_cons. destruct (islinebreak c).
    + destruct s as [|d s'']; [simpl; rewrite app_nil_r; reflexivity|].
      destruct ((c =? 13)%N && (d =? 10)%N); simpl; rewrite app_nil_r;
        reflexivity.
    + rewrite (IH (c :: cur)), (IH [c]).
      destruct (splitlines_from [] s) as [|l r]; simpl.
      * reflexivity.
      * rewrite <- app_assoc. reflexivity.
Qed.

Lemma splitlines_prefix (q s : str) :
  Forall (fun c => islinebreak c = false) q ->
  splitlines (q ++ s) =
  match splitlines s with
  | [] => match q with [] => [] | _ => [q] end
  | l :: r => (q ++ l) :: r
  end.
Proof.
  intros H. unfold splitlines.
  rewrite (splitlines_from_run q [] s H), app_nil_r, splitlines_from_first.
  rewrite rev_involutive.
  destruct (splitlines_from [] s); [|reflexivity].
  destruct q as [|c q]; [reflexivity|]. simpl.
  destruct (rev q ++ [c]) eqn:E; [|reflexivity].
  apply app_eq_nil in E as [_ E]. discriminate.
Qed.

Lemma line_chunks_nil : line_chunks [] = [].
Proof. reflexivity. Qed.

Lemma line_chunks_space (c : N) (l : str) :
  isspace c = true -> line_chunks (c :: l) = line_chunks l.
Proof. intros H. unfold line_chunks. rewrite (strip_space c l H). reflexivity. Qed.

Lemma text_chunks_prefix (q s : str) :
  Forall (fun c => islinebreak c = false) q ->
  text_chunks (q ++ s) =
  match splitlines s with
  | [] => line_chunks q
  | l :: r => line_chunks (q ++ l) ++ flat_map line_chunks r
  end.
Proof.
  intros H. unfold text_chunks. rewrite (splitlines_prefix q s H).
  destruct (splitlines s) as [|l r]; [|reflexivity].
  destruct q; [reflexivity|]. simpl. rewrite app_nil_r. reflexivity.
Qed.

Lemma text_chunks_newline (s : str) :
  text_chunks (10%N :: s) = text_chunks s.
Proof.
  unfold text_chunks, splitlines. rewrite splitlines_from_cons.
  change (islinebreak 10) with true. cbv iota.
  destruct s as [|d s']; [reflexivity|].
  change ((10 =? 13)%N) with false. reflexivity.
Qed.

(** A line boundary closes the line. *)
Lemma text_chunks_break (q : str) (c : N) (b : str) :
  Forall (fun x => islinebreak x = false) q ->
  islinebreak c = true ->
  text_chunks (q ++ c :: b) = line_chunks q ++ text_chunks b.
Proof.
  intros Hq Hc. unfold text_chunks at 1. unfold splitlines.
  rewrite (splitlines_from_run q [] _ Hq), app_nil_r, splitlines_from_cons.
  rewrite Hc, rev_involutive.
  destruct b as [|d b'].
  - reflexivity.
  - destruct ((c =? 13)%N && (d =? 10)%N) eqn:E.
    + apply andb_prop in E as [_ E]. apply N.eqb_eq in E. subst d.
      rewrite text_chunks_newline. reflexivity.
    + reflexivity.
Qed.

(** Whitespace at the head of a text leaves no chunk. *)
Lemma text_chunks_space (c : N) (s : str) :
  isspace c = true -> text_chunks (c :: s) = text_chunks s.
Proof.
  intros Hc. destruct (islinebreak c) eqn:Eb.
  - apply (text_chunks_break [] c s (Forall_nil _) Eb).
  - change (c :: s) with ([c] ++ s).
    rewrite text_chunks_prefix by (constructor; [exact Eb|constructor]).
    unfold text_chunks. destruct (splitlines s) as [|l r].
    + simpl. apply (line_chunks_space c [] Hc).
    + simpl. rewrite (line_chunks_space c l Hc). reflexivity.
Qed.

Lemma text_chunks_lead (W s : str) :
  Forall (fun c => isspace c = true) W ->
  text_chunks (W ++ s) = text_chunks s.
Proof.
  induction 1 as [|c W Hc _ IH]; [reflexivity|].
  simpl app. rewrite (text_chunks_space c _ Hc). exact IH.
Qed.

Lemma split2sp_from_first (n : nat) :
  forall s cur,
    (List.length s <= n)%nat ->
    split2sp_from cur s =
    match split2sp_from [] s with
    | [] => [rev cur]
    | q :: qs => (rev cur ++ q) :: qs
    end.
Proof.
  induction n as [|n IH]; intros s cur Hn.
  - destruct s; [|simpl in Hn; lia]. simpl. rewrite app_nil_r. reflexivity.
  - destruct s as [|c [|d s'']].
    + simpl. rewrite app_nil_r. reflexivity.
    + reflexivity.
    + rewrite !split2sp_from_cons.
      destruct ((c =? 32)%N && (d =? 32)%N).
      * simpl. rewrite app_nil_r. reflexivity.
      * simpl in Hn.
        rewrite (IH (d :: s'') (c :: cur)), (IH (d :: s'') [c])
          by (simpl; lia).
        destruct (split2sp_from [] (d :: s'')) as [|q qs]; simpl.
        -- reflexivity.
        -- rewrite <- app_assoc. reflexivity.
Qed.

Lemma split2sp_cons (c : N) (s : str) :
  (forall d s', s = d :: s' -> ((c =? 32) && (d =? 32))%N = false) ->
  split2sp (c :: s) =
  match split2sp s with
  | [] => [[c]]
  | q :: qs => (c :: q) :: qs
  end.
Proof.
  intros H. unfold split2sp. destruct s as [|d s'].
  - reflexivity.
  - rewrite split2sp_from_cons, (H d s' eq_refl).
    apply (split2sp_from_first _ (d :: s') [c] (le_n _)).
Qed.

(** Whitespace at the head of a line leaves no piece. *)
Lemma pieces_space (n : nat) :
  forall z c,
    (List.length z <= n)%nat -> isspace c = true ->
    pieces (c :: z) = pieces z.
Proof.
  induction n as [|n IH]; intros z c Hn Hc.
  - destruct z; [|simpl in Hn; lia].
    unfold pieces, split2sp. simpl split2sp_from. simpl map.
    rewrite (strip_space c [] Hc). reflexivity.
  - destruct z as [|d z'].
    + unfold pieces, split2sp. simpl split2sp_from. simpl map.
      rewrite (strip_space c [] Hc). reflexivity.
    + simpl in Hn. destruct ((c =? 32)%N && (d =? 32)%N) eqn:E.
      * apply andb_prop in E as [Ec Ed]. apply N.eqb_eq in Ec, Ed.
        subst c d.
        rewrite (IH z' 32%N) by (auto; lia).
        unfold pieces, split2sp. rewrite split2sp_from_cons. reflexivity.
      * unfold pieces. rewrite split2sp_cons.
        2:{ intros d0 s0 [= <- <-]. exact E. }
        destruct (split2sp (d :: z')) as [|q qs]; simpl map.
        -- rewrite (strip_space c [] Hc). reflexivity.
        -- rewrite (strip_space c q Hc). reflexivity.
Qed.

Lemma pieces_lead (W z : str) :
  Forall (fun c => isspace c = true) W -> pieces (W ++ z) = pieces z.
Proof.
  induction 1 as [|c W Hc _ IH]; [reflexivity|].
  simpl app. rewrite (pieces_space _ _ c (le_n _) Hc). exact IH.
Qed.

(** The first two spaces side by side end the piece. *)
Lemma split2sp_from_run (a : str) :
  forall cur z,
    no_adjacent double_space (a ++ [32%N]) = true ->
    split2sp_from cur (a ++ 32%N :: 32%N :: z)
    = (rev cur ++ a) :: split2sp_from [] z.
Proof.
  induction a as [|x a IH]; intros cur z H.
  - simpl app. rewrite split2sp_from_cons, app_nil_r. reflexivity.
  - destruct a as [|y a].
    + simpl app in *. rewrite no_adjacent_cons in H.
      apply andb_prop in H as [H _]. apply negb_true_iff in H.
      rewrite split2sp_from_cons. unfold double_space in H. rewrite H.
      rewrite split2sp_from_cons. reflexivity.
    + simpl app in *. rewrite no_adjacent_cons in H.
      apply andb_prop in H as [H H']. apply negb_true_iff in H.
      rewrite split2sp_from_cons. unfold double_space in H. rewrite H.
      rewrite (IH (x :: cur) z H'). simpl rev.
      rewrite <- app_assoc. reflexivity.
Qed.

Lemma hard_not_space (x : N) : isspace x = false -> (x =? 32)%N = false.
Proof.
  intros H. destruct (N.eqb_spec x 32); [subst; discriminate|reflexivity].
Qed.

Lemma ends_hard_last (p : str) :
  ends_hard p = true ->
  exists x t, rev p = x :: t /\ isspace x = false.
Proof.
  unfold ends_hard. destruct (rev p) as [|x t]; [discriminate|].
  simpl. intros H. apply negb_true_iff in H. eauto.
Qed.

(** A chunk, then whitespace up to two spaces side by side. *)
Lemma pieces_break (p W1 z : str) :
  clean_chunk p ->
  Forall (fun c => isspace c = true) W1 ->
  no_adjacent double_space (W1 ++ [32%N]) = true ->
  pieces (p ++ W1 ++ 32%N :: 32%N :: z) = p :: pieces z.
Proof.
  intros (S & E & _ & D) HW HD.
  destruct (ends_hard_last p E) as (x & t & Er & Hx).
  assert (no_adjacent double_space ((p ++ W1) ++ [32%N]) = true) as H.
  { rewrite <- app_assoc.
    destruct (W1 ++ [32%N]) as [|c u] eqn:EW.
    - apply app_eq_nil in EW as [_ EW]. discriminate.
    - apply no_adjacent_app; [exact D|exact HD|].
      rewrite Er. unfold double_space. rewrite (hard_not_space x Hx).
      reflexivity. }
  unfold pieces, split2sp. rewrite app_assoc.
  rewrite (split2sp_from_run (p ++ W1) [] z H). simpl rev. simpl app.
  simpl map. rewrite (strip_trailing p W1 S E HW). simpl filter.
  destruct p as [|c p']; [discriminate|]. reflexivity.
Qed.

Lemma pieces_clean (p : str) : clean_chunk p -> pieces p = [p].
Proof.
  intros (S & E & _ & D). unfold pieces, split2sp.
  rewrite (split2sp_from_fixed p [] D). simpl.
  rewrite (strip_fixed p S E).
  destruct p as [|c p']; [discriminate|]. reflexivity.
Qed.

Lemma line_chunks_trailing (p W : str) :
  clean_chunk p -> Forall (fun c => isspace c = true) W ->
  line_chunks (p ++ W) = [p].
Proof.
  intros Hp HW. unfold line_chunks. pose proof Hp as (S & E & _).
  rewrite (strip_trailing p W S E HW). apply pieces_clean, Hp.
Qed.

Lemma hard_not_break (x : N) : isspace x = false -> islinebreak x = false.
Proof.
  intros H. destruct (islinebreak x) eqn:E; [|reflexivity].
  rewrite (linebreak_isspace x E) in H. discriminate.
Qed.

(** The first line of a text that begins with a character that is no
    whitespace begins with it. *)
Lemma splitlines_hard (x : N) (s : str) :
  isspace x = false ->
  exists l r, splitlines (x :: s) = (x :: l) :: r.
Proof.
  intros H. change (x :: s) with ([x] ++ s).
  rewrite splitlines_prefix
    by (constructor; [apply hard_not_break, H|constructor]).
  destruct (splitlines s) as [|l r]; simpl; eauto.
Qed.

(** The first line boundary of a run. *)
Lemma first_linebreak (W : str) :
  forallb (fun c => negb (islinebreak c)) W = false ->
  exists W1 c W2,
    W = W1 ++ c :: W2 /\
    Forall (fun x => islinebreak x = false) W1 /\ islinebreak c = true.
Proof.
  induction W as [|a W IH]; [discriminate|]. simpl.
  destruct (islinebreak a) eqn:Ea; simpl.
  - intros _. exists [], a, W. auto.
  - intros H. destruct (IH H) as (W1 & c & W2 & -> & F & Hc).
    exists (a :: W1), c, W2. repeat split; [constructor; assumption|exact Hc].
Qed.

(** The first two spaces side by side of a run. *)
Lemma first_double_space (W : str) :
  no_adjacent double_space W = false ->
  exists W1 W2,
    W = W1 ++ 32%N :: 32%N :: W2 /\
    no_adjacent double_space (W1 ++ [32%N]) = true.
Proof.
  induction W as [|a W IH]; [discriminate|].
  destruct W as [|b W]; [discriminate|].
  rewrite no_adjacent_cons.
  destruct (double_space a b) eqn:E.
  - intros _. unfold double_space in E. apply andb_prop in E as [Ea Eb].
    apply N.eqb_eq in Ea, Eb. subst. exists [], W. auto.
  - simpl negb. rewrite andb_true_l. intros H.
    destruct (IH H) as (W1 & W2 & EW & D).
    exists (a :: W1), W2. split; [simpl; f_equal; exact EW|].
    destruct W1 as [|w W1].
    + simpl in EW. injection EW as -> _. simpl.
      rewrite E. reflexivity.
    + simpl in EW. injection EW as -> _.
      simpl app in *. rewrite no_adjacent_cons, E. exact D.
Qed.

Lemma forallb_Forall (f : N -> bool) (l : str) :
  forallb f l = true -> Forall (fun c => f c = true) l.
Proof.
  intros H. apply Forall_forall. intros x Hx.
  apply (proj1 (forallb_forall f l) H x Hx).
Qed.

Lemma kept_run_Forall (W : str) :
  forallb (fun c => negb (islinebreak c)) W = true ->
  Forall (fun c => islinebreak c = false) W.
Proof.
  intros H. apply forallb_Forall in H.
  apply (Forall_impl _ (fun c Hc => proj1 (negb_true_iff _) Hc) H).
Qed.

(** A chunk, then whitespace with a line boundary. *)
Lemma text_chunks_linebreak (p W1 : str) (c : N) (b : str) :
  clean_chunk p ->
  Forall (fun x => isspace x = true) W1 ->
  Forall (fun x => islinebreak x = false) W1 ->
  islinebreak c = true ->
  text_chunks (p ++ W1 ++ c :: b) = p :: text_chunks b.
Proof.
  intros Hp HW HB Hc. pose proof Hp as (_ & _ & Hb & _).
  rewrite app_assoc, text_chunks_break;
    [|apply Forall_app; split; assumption|exact Hc].
  rewrite (line_chunks_trailing p W1 Hp HW). reflexivity.
Qed.

(** A chunk, then whitespace to the end of the text. *)
Lemma text_chunks_trailing (p W : str) :
  clean_chunk p -> Forall (fun c => isspace c = true) W ->
  text_chunks (p ++ W) = [p].
Proof.
  intros Hp HW. pose proof Hp as (_ & _ & Hb & _).
  destruct (forallb (fun c => negb (islinebreak c)) W) eqn:E.
  - rewrite <- (app_nil_r (p ++ W)), text_chunks_prefix
      by (apply Forall_app; split; [exact Hb|apply kept_run_Forall, E]).
    simpl. apply line_chunks_trailing; assumption.
  - destruct (first_linebreak W E) as (W1 & c & W2 & -> & F & Hc).
    apply Forall_app in HW as [HW1 HW2].
    apply Forall_cons_iff in HW2 as [_ HW2].
    rewrite (text_chunks_linebreak p W1 c W2 Hp HW1 F Hc).
    rewrite <- (app_nil_r W2), (text_chunks_lead W2 [] HW2). reflexivity.
Qed.

(** A chunk, then a run that is not kept, then the rest. *)
Lemma text_chunks_cut (p W : str) (x : N) (s : str) :
  clean_chunk p -> Forall (fun c => isspace c = true) W ->
  kept_run W = false -> isspace x = false ->
  text_chunks (p ++ W ++ x :: s) = p :: text_chunks (x :: s).
Proof.
  intros Hp HW HK Hx. pose proof Hp as (S & _ & Hb & _).
  destruct (forallb (fun c => negb (islinebreak c)) W) eqn:E.
  - unfold kept_run in HK. rewrite E in HK. simpl in HK.
    destruct (first_double_space W HK) as (W1 & W2 & EW & D).
    assert (Forall (fun c => islinebreak c = false) (p ++ W)) as Hq
      by (apply Forall_app; split; [exact Hb|apply kept_run_Forall, E]).
    rewrite app_assoc, (text_chunks_prefix (p ++ W) (x :: s) Hq).
    unfold text_chunks.
    destruct (splitlines_hard x s Hx) as (l & r & ->).
    simpl flat_map. f_equal.
    unfold line_chunks.
    assert (starts_hard (p ++ W) = true) as SW.
    { rewrite starts_hard_app; [exact S|]. intros ->. discriminate. }
    assert (starts_hard (x :: l) = true) as SL
      by (simpl; rewrite Hx; reflexivity).
    rewrite (strip_app_hard (p ++ W) (x :: l) SW SL).
    subst W. apply Forall_app in HW as [HW1 HW2].
    apply Forall_cons_iff in HW2 as [_ HW2].
    apply Forall_cons_iff in HW2 as [_ HW2].
    rewrite <- !app_assoc. simpl app.
    rewrite (pieces_break p W1 _ Hp HW1 D).
    rewrite (pieces_lead W2 _ HW2). reflexivity.
  - destruct (first_linebreak W E) as (W1 & c & W2 & -> & F & Hc).
    apply Forall_app in HW as [HW1 HW2].
    apply Forall_cons_iff in HW2 as [_ HW2].
    rewrite <- app_assoc. simpl app.
    rewrite (text_chunks_linebreak p W1 c _ Hp HW1 F Hc).
    rewrite (text_chunks_lead W2 _ HW2). reflexivity.
Qed.

(** A chunk grows by a kept run and a character that is no whitespace. *)
Lemma clean_chunk_grow (p W : str) (x : N) :
  (p = [] \/ clean_chunk p) ->
  (p = [] -> W = []) ->
  Forall (fun c => isspace c = true) W ->
  kept_run W = true -> isspace x = false ->
  clean_chunk (p ++ W ++ [x]).
Proof.
  intros Hp HW0 HW HK Hx. unfold kept_run in HK.
  apply andb_prop in HK as [HB HD]. apply kept_run_Forall in HB.
  assert (no_adjacent double_space (W ++ [x]) = true) as HWx.
  { destruct (rev W) as [|w u] eqn:Er.
    - apply (f_equal (@rev N)) in Er. rewrite rev_involutive in Er.
      subst W. reflexivity.
    - apply no_adjacent_app; [exact HD|reflexivity|].
      rewrite Er. unfold double_space. rewrite (hard_not_space x Hx).
      apply andb_false_r. }
  destruct Hp as [->|(S & E & Hb & D)].
  - rewrite (HW0 eq_refl). simpl. repeat split.
    + simpl. rewrite Hx. reflexivity.
    + unfold ends_hard. simpl. rewrite Hx. reflexivity.
    + constructor; [apply hard_not_break, Hx|constructor].
  - assert (p <> []) as Hne by (intros ->; discriminate).
    repeat split.
    + rewrite starts_hard_app; assumption.
    + rewrite app_assoc, ends_hard_app by discriminate.
      unfold ends_hard. simpl. rewrite Hx. reflexivity.
    + apply Forall_app. split; [exact Hb|].
      apply Forall_app. split; [exact HB|].
      constructor; [apply hard_not_break, Hx|constructor].
    + destruct (ends_hard_last p E) as (y & u & Er & Hy).
      destruct (W ++ [x]) as [|c v] eqn:EW.
      * apply app_eq_nil in EW as [_ EW]. discriminate.
      * apply no_adjacent_app; [exact D|exact HWx|].
        rewrite Er. unfold double_space. rewrite (hard_not_space y Hy).
        reflexivity.
Qed.

Lemma collapse_from_run (W : str) :
  forall started run s,
    Forall (fun c => isspace c = true) W ->
    collapse_from started run (W ++ s)
    = collapse_from started (rev W ++ run) s.
Proof.
  induction W as [|c W IH]; intros started run s H; [reflexivity|].
  inversion H as [|? ? Hc HW]; subst. simpl app.
  cbn [collapse_from]. rewrite Hc, (IH _ _ _ HW). simpl rev.
  rewrite <- app_assoc. reflexivity.
Qed.

Lemma collapse_from_hard (started : bool) (run : str) (x : N) (s : str) :
  isspace x = false ->
  collapse_from started run (x :: s)
  = (if started then squeeze (rev run) else [])
    ++ x :: collapse_from true [] s.
Proof. intros H. cbn [collapse_from]. rewrite H. reflexivity. Qed.

Lemma join_first (p : str) (chunks : list str) :
  chunks <> [] ->
  join [10%N] (p :: chunks) = p ++ [10%N] ++ join [10%N] chunks.
Proof. destruct chunks; [congruence|intros _; apply join_cons]. Qed.

(** The text after a chunk. *)
Lemma join_text_chunks (n : nat) :
  forall s p,
    (List.length s <= n)%nat -> clean_chunk p ->
    join [10%N] (text_chunks (p ++ s)) = p ++ collapse_from true [] s.
Proof.
  induction n as [|n IH]; intros s p Hn Hp.
  - destruct s; [|simpl in Hn; lia].
    rewrite (text_chunks_trailing p [] Hp (Forall_nil _)). simpl.
    rewrite app_nil_r. reflexivity.
  - destruct (lstrip_split s) as (W & Es & HW).
    destruct (lstrip s) as [|x s''] eqn:El.
    + rewrite app_nil_r in Es. subst W.
      rewrite (text_chunks_trailing p s Hp HW).
      assert (collapse_from true [] s = []) as ->.
      { rewrite <- (app_nil_r s), (collapse_from_run s true [] [] HW).
        reflexivity. }
      simpl. rewrite app_nil_r. reflexivity.
    + pose proof (lstrip_head s x s'' El) as Hx.
      assert (List.length s'' <= n)%nat as Hn'.
      { rewrite Es, length_app in Hn. simpl in Hn. lia. }
      rewrite Es at 2.
      rewrite (collapse_from_run W true [] _ HW), app_nil_r.
      rewrite (collapse_from_hard true (rev W) x s'' Hx), rev_involutive.
      rewrite Es. unfold squeeze.
      destruct (kept_run W) eqn:EK.
      * assert (clean_chunk (p ++ W ++ [x])) as Hp'.
        { apply clean_chunk_grow; auto.
          intros ->. destruct Hp as (S & _). discriminate. }
        replace (p ++ W ++ x :: s'') with ((p ++ W ++ [x]) ++ s'')
          by (rewrite <- !app_assoc; reflexivity).
        rewrite (IH s'' _ Hn' Hp'). rewrite <- !app_assoc. reflexivity.
      * rewrite (text_chunks_cut p W x s'' Hp HW EK Hx).
        assert (clean_chunk [x]) as Hx'.
        { apply (clean_chunk_grow [] [] x); auto. }
        pose proof (IH s'' [x] Hn' Hx') as E. simpl app in E.
        rewrite join_first.
        -- rewrite E. reflexivity.
        -- intros E0. rewrite E0 in E. discriminate.
Qed.

Lemma clean_whitespace_collapse (text : str) :
  clean_whitespace text = collapse text.
Proof.
  rewrite clean_whitespace_chunks. unfold collapse.
  destruct (lstrip_split text) as (W & Et & HW).
  rewrite Et, (text_chunks_lead W _ HW).
  rewrite (collapse_from_run W false [] _ HW), app_nil_r.
  destruct (lstrip text) as [|x s] eqn:El; [reflexivity|].
  pose proof (lstrip_head text x s El) as Hx.
  rewrite (collapse_from_hard false (rev W) x s Hx).
  assert (clean_chunk [x]) as Hx'.
  { apply (clean_chunk_grow [] [] x); auto. }
  apply (join_text_chunks _ s [x] (le_n _) Hx').
Qed.

Lemma collapse_from_trail (W : str) :
  Forall (fun c => isspace c = true) W ->
  forall s started run,
    collapse_from started run (s ++ W) = collapse_from started run s.
Proof.
  intros HW. induction s as [|c s IH]; intros started run.
  - rewrite <- (app_nil_r ([] ++ W)), (collapse_from_run _ _ _ _ HW).
    reflexivity.
  - simpl app. cbn [collapse_from]. rewrite !IH. reflexivity.
Qed.

(** What comes before a character that is no whitespace does not reach
    beyond it. *)
Lemma collapse_from_split (x : N) (b : str) :
  isspace x = false ->
  forall a started run,
    collapse_from started run (a ++ x :: b)
    = collapse_from started run (a ++ [x]) ++ collapse_from true [] b.
Proof.
  intros Hx. induction a as [|c a IH]; intros started run.
  - cbn [app].
    rewrite (collapse_from_hard _ _ x b Hx), (collapse_from_hard _ _ x [] Hx).
    cbn [collapse_from]. rewrite <- app_assoc. reflexivity.
  - simpl app. cbn [collapse_from]. destruct (isspace c).
    + apply IH.
    + rewrite (IH true []), <- app_assoc. reflexivity.
Qed.

(** The strings left after the removal are those outside the removed
    elements. *)
Lemma strings_decompose_forest (l : list Html.node) :
  Forall (fun n => flat_map Html.strings (Html.decompose_node n)
                   = strings_outside n) l ->
  flat_map Html.strings (flat_map Html.decompose_node l)
  = flat_map strings_outside l.
Proof.
  induction 1 as [|n l Hn _ IH]; [reflexivity|].
  simpl flat_map. rewrite flat_map_app, Hn, IH. reflexivity.
Qed.

Lemma strings_decompose_node (n : Html.node) :
  flat_map Html.strings (Html.decompose_node n) = strings_outside n.
Proof.
  induction n as [s|s|name attrs children IH] using node_ind_forest;
    [reflexivity|reflexivity|].
  cbn [Html.decompose_node strings_outside].
  destruct (Html.is_script_or_style name); [reflexivity|].
  cbn [flat_map Html.strings]. rewrite app_nil_r.
  apply strings_decompose_forest, IH.
Qed.

Lemma get_text_decompose (soup : list Html.node) :
  Html.get_text (Html.decompose_scripts soup) = text_outside_scripts soup.
Proof.
  unfold Html.get_text, text_outside_scripts, Html.decompose_scripts.
  f_equal. apply strings_decompose_forest.
  apply Forall_forall. intros n _. apply strings_decompose_node.
Qed.

End CleanUpExact.

Section FetchTextClaims.

Import Context7.

(** C7, as the code has it.  For a page fetched through the secondary
    provider, the text is extracted after every [script] and [style]
    element has left the tree with all it holds, and it is made of the
    strings outside these elements, all of them and in their order.  The
    clean-up then works run by run.  Whitespace before the first and after
    the last character that is no whitespace is dropped.  A run of
    whitespace between two such characters becomes one line feed when it
    holds a line boundary or two spaces side by side, and stays as it is
    otherwise, so that a single space or a run of tabs is kept.  The
    characters that are no whitespace are not touched.  A cleaned text of
    more than 5000 characters is returned as its first 5000 characters
    followed by "...", and one of 5000 characters or fewer is returned
    uncut. *)
Theorem page_text_spec (soup : list Html.node) :
  (has_script_or_style (Html.decompose_scripts soup) = false /\
   Html.get_text (Html.decompose_scripts soup) = text_outside_scripts soup) /\
  (extracted_text soup = collapse (text_outside_scripts soup) /\
   (forall text, clean_whitespace text = collapse text) /\
   (forall W s,
      Forall (fun c => isspace c = true) W ->
      clean_whitespace (W ++ s) = clean_whitespace s /\
      clean_whitespace (s ++ W) = clean_whitespace s) /\
   (forall a x W y b,
      isspace x = false -> isspace y = false ->
      Forall (fun c => isspace c = true) W ->
      clean_whitespace (a ++ x :: W ++ y :: b)
      = clean_whitespace (a ++ [x]) ++ squeeze W
        ++ clean_whitespace (y :: b)) /\
   soft_runs_collapsed (extracted_text soup) = true) /\
  ((5000 < List.length (extracted_text soup))%nat ->
   page_text soup = firstn 5000 (extracted_text soup) ++ py "...") /\
  ((List.length (extracted_text soup) <= 5000)%nat ->
   page_text soup = extracted_text soup) /\
  (forall env url response,
     http_get env url [] = Ret response ->
     html_parser env (text response) = Ret soup ->
     fallback_fetch env url = (Ret (page_text soup), [Get url])).
Proof.
  split; [split; [apply decompose_scripts_clean|apply get_text_decompose]|].
  split.
  { split.
    { unfold extracted_text.
      rewrite get_text_decompose. apply clean_whitespace_collapse. }
    split; [apply clean_whitespace_collapse|].
    split.
    { intros W s HW. rewrite !clean_whitespace_collapse. unfold collapse.
      split.
      - rewrite (collapse_from_run W false [] s HW), app_nil_r.
        clear HW. generalize (rev W). induction s as [|c s IH]; intros run.
        + reflexivity.
        + cbn [collapse_from]. destruct (isspace c); [|reflexivity].
          rewrite (IH (c :: run)), (IH [c]). reflexivity.
      - apply (collapse_from_trail W HW). }
    split; [|apply clean_whitespace_collapsed].
    intros a x W y b Hx Hy HW. rewrite !clean_whitespace_collapse.
    unfold collapse.
    rewrite (collapse_from_split x (W ++ y :: b) Hx a false []).
    rewrite (collapse_from_run W true [] _ HW), app_nil_r.
    rewrite (collapse_from_hard true (rev W) y b Hy), rev_involutive.
    rewrite (collapse_from_hard false [] y b Hy). reflexivity. }
  split; [apply limit_length_spec|].
  split; [apply limit_length_spec|].
  intros env url response Hget Hparse.
  unfold fallback_fetch, get_url, mtry, mbind, mret, lift.
  rewrite Hget, Hparse. reflexivity.
Qed.

(** C7, as the claim has it, fails: a run of two tabs inside a line comes
    back as it was. *)
Lemma tabs_stay :
  let soup := [Html.Text [97; 9; 9; 98]%N] in
  fallback_fetch (Samples.serving soup) (py "https://example.org/")
    = (Ret [97; 9; 9; 98]%N, [Get (py "https://example.org/")]) /\
  isspace 9 = true /\
  runs_collapsed [97; 9; 9; 98]%N = false.
Proof. repeat split; vm_compute; reflexivity. Qed.

(** The scenario of the specification: 6000 characters of text come back
    as 5000 characters and the marker. *)
Example truncation_scenario :
  page_text [Html.Text (repeat 97%N (60 * 100))]
  = repeat 97%N (50 * 100) ++ py "...".
Proof. vm_compute. reflexivity. Qed.

(** The clean-up at a text with every kind of run: the leading and the
    trailing run go, the tab followed by two spaces and the run with the
    line boundary become line feeds, the single space and the two tabs
    stay. *)
Example clean_whitespace_scenario :
  clean_whitespace (py "  a" ++ [9; 32; 32]%N ++ py "b c" ++ [9; 9]%N
                    ++ py "d " ++ [13; 10]%N ++ py " e ")
  = py "a" ++ [10]%N ++ py "b c" ++ [9; 9]%N ++ py "d" ++ [10]%N ++ py "e".
Proof. vm_compute. reflexivity. Qed.

End FetchTextClaims.
